(** * Abelian sandpile: a shallow embedding of [sandpile.py]

    The Python class [Sandpile] keeps its grains in a NumPy array and
    mutates it in place.  The embedding below follows the source statement
    by statement: NumPy's arrays, integer indexing (with negative indices),
    fancy indexing, broadcasting and fixed-width integers are modelled in
    module [np]; the methods of the class are programs of a small
    state-and-exception monad whose state is [self.grid].

    Plotting ([show], the live view) and the wall-clock report printed by
    [run] have no effect on the grid and are left out. *)

From Stdlib Require Import ZArith Lia String.
From stdpp Require Import base list numbers.

Local Open Scope Z_scope.

(** ** Fixed-width integers

    [np.zeros((h, w), int)] and [np.array] of a list of Python integers
    give arrays of 64-bit signed integers; arithmetic on them wraps. *)
Module int64.

Definition wrap (z : Z) : Z := (z + 2 ^ 63) mod 2 ^ 64 - 2 ^ 63.

Definition in_range (z : Z) : Prop := - 2 ^ 63 <= z < 2 ^ 63.

Definition add (a b : Z) : Z := wrap (a + b).

(** [a // b]: floor division; NumPy gives 0 (and a warning) for [b = 0]. *)
Definition floor_divide (a b : Z) : Z :=
  if b =? 0 then 0 else wrap (a / b).

(** [a % b]: the remainder has the sign of [b]; 0 for [b = 0]. *)
Definition remainder (a b : Z) : Z :=
  if b =? 0 then 0 else a mod b.

End int64.

(** ** Exceptions and results *)

Inductive exn : Type :=
| IndexError (axis : nat) (index : Z) (size : nat)
| ValueError (msg : string).

(** A computation returns, raises, or is cut off by the fuel that bounds
    the [while] loops of the model. *)
Inductive res (A : Type) : Type :=
| Ok (a : A)
| Raise (e : exn)
| OutOfFuel.
Arguments Ok {A} a.
Arguments Raise {A} e.
Arguments OutOfFuel {A}.

Definition res_bind {A B} (r : res A) (k : A -> res B) : res B :=
  match r with
  | Ok a => k a
  | Raise e => Raise e
  | OutOfFuel => OutOfFuel
  end.

(** ** NumPy arrays of dimension 2 *)
Module np.

(** A C-contiguous array: [shape0] rows of [shape1] cells, row-major. *)
Record ndarray : Type := mk {
  shape0 : nat;
  shape1 : nat;
  data : list Z
}.

Definition wf (a : ndarray) : Prop :=
  length (data a) = (shape0 a * shape1 a)%nat.

Definition cell (d : list Z) (p : nat) : Z := default 0 (d !! p).

(** [np.zeros((h, w), int)] *)
Definition zeros (h w : Z) : res ndarray :=
  if (h <? 0) || (w <? 0)
  then Raise (ValueError "negative dimensions are not allowed")
  else Ok (mk (Z.to_nat h) (Z.to_nat w)
              (replicate (Z.to_nat h * Z.to_nat w) 0)).

(** [np.array(rows)] on a list of lists of integers.  Rows of different
    lengths are refused (NumPy 1.24 and later). *)
Definition array (rows : list (list Z)) : res ndarray :=
  match rows with
  | [] => Ok (mk 0 0 [])
  | r :: _ =>
      if forallb (fun r' => Nat.eqb (length r') (length r)) rows
      then Ok (mk (length rows) (length r) (concat rows))
      else Raise (ValueError "inhomogeneous shape")
  end.

(** An integer index on an axis of [size] cells: [-size <= i < size],
    negative indices count from the end. *)
Definition check_index (axis size : nat) (i : Z) : res nat :=
  if (0 <=? i) && (i <? Z.of_nat size) then Ok (Z.to_nat i)
  else if (- Z.of_nat size <=? i) && (i <? 0)
       then Ok (Z.to_nat (i + Z.of_nat size))
       else Raise (IndexError axis i size).

Fixpoint check_indices (axis size : nat) (l : list Z) : res (list nat) :=
  match l with
  | [] => Ok []
  | i :: l' =>
      res_bind (check_index axis size i) (fun n =>
      res_bind (check_indices axis size l') (fun ns => Ok (n :: ns)))
  end.

(** The flat positions addressed by [a[x, y]], where the index arrays
    [x] and [y] (of one length) are given as a list of pairs.  All row
    indices are checked before the column indices. *)
Definition positions (a : ndarray) (xy : list (Z * Z)) : res (list nat) :=
  res_bind (check_indices 0 (shape0 a) (xy.*1)) (fun rows =>
  res_bind (check_indices 1 (shape1 a) (xy.*2)) (fun cols =>
  Ok (zip_with (fun r c => (r * shape1 a + c)%nat) rows cols))).

(** [a[x, y]] *)
Definition getitem (a : ndarray) (xy : list (Z * Z)) : res (list Z) :=
  res_bind (positions a xy) (fun ps => Ok (cell (data a) <$> ps)).

Definition write (d : list Z) (pv : nat * Z) : list Z :=
  <[pv.1 := pv.2]> d.

(** [a[x, y] = vals]: the cells are written one after the other. *)
Definition setitem (a : ndarray) (xy : list (Z * Z)) (vals : list Z)
  : res ndarray :=
  res_bind (positions a xy) (fun ps =>
  Ok (mk (shape0 a) (shape1 a) (foldl write (data a) (zip ps vals)))).

(** [a[i] = v] for an integer [i]: row [i] is filled with [v]. *)
Definition setrow (a : ndarray) (i : Z) (v : Z) : res ndarray :=
  res_bind (check_index 0 (shape0 a) i) (fun r =>
  Ok (mk (shape0 a) (shape1 a)
         (imap (fun p x => if Nat.eqb (p / shape1 a) r then v else x)
               (data a)))).

(** [a[:, j] = v] for an integer [j]: column [j] is filled with [v]. *)
Definition setcol (a : ndarray) (j : Z) (v : Z) : res ndarray :=
  res_bind (check_index 1 (shape1 a) j) (fun c =>
  Ok (mk (shape0 a) (shape1 a)
         (imap (fun p x => if Nat.eqb (p mod shape1 a) c then v else x)
               (data a)))).

(** [np.max(a)]; an empty array has no maximum. *)
Definition max (a : ndarray) : res Z :=
  match data a with
  | [] => Raise (ValueError "zero-size array to reduction operation maximum")
  | v :: d => Ok (foldl Z.max v d)
  end.

(** [a.any()] *)
Definition any (a : ndarray) : bool :=
  existsb (fun v => negb (v =? 0)) (data a).

Fixpoint find_ge (t : Z) (p : nat) (d : list Z) : list nat :=
  match d with
  | [] => []
  | v :: d' =>
      if t <=? v then p :: find_ge t (S p) d' else find_ge t (S p) d'
  end.

Definition coord (a : ndarray) (p : nat) : Z * Z :=
  (Z.of_nat (p / shape1 a), Z.of_nat (p mod shape1 a)).

(** [np.where(a >= t)]: the coordinates of the cells holding at least
    [t], in row-major order. *)
Definition where_ge (a : ndarray) (t : Z) : list (Z * Z) :=
  coord a <$> find_ge t 0 (data a).

(** Broadcasting of one axis: equal sizes, or one of them is 1. *)
Definition broadcast_dim (m n : nat) : option nat :=
  if Nat.eqb m n then Some m
  else if Nat.eqb m 1 then Some n
  else if Nat.eqb n 1 then Some m
  else None.

Definition broadcast_to (a : ndarray) (h w : nat) : list Z :=
  if Nat.eqb (shape0 a) h && Nat.eqb (shape1 a) w then data a
  else
    i ← seq 0 h; j ← seq 0 w;
    [cell (data a)
          ((if Nat.eqb (shape0 a) 1 then 0 else i) * shape1 a
           + (if Nat.eqb (shape1 a) 1 then 0 else j))%nat].

(** [a + b] *)
Definition add (a b : ndarray) : res ndarray :=
  match broadcast_dim (shape0 a) (shape0 b),
        broadcast_dim (shape1 a) (shape1 b) with
  | Some h, Some w =>
      Ok (mk h w (zip_with int64.add (broadcast_to a h w)
                                     (broadcast_to b h w)))
  | _, _ => Raise (ValueError "operands could not be broadcast together")
  end.

End np.

(** ** The state monad of a method body

    The state is [self.grid].  An exception leaves the grid as the last
    completed statement left it. *)

Definition M (A : Type) : Type := np.ndarray -> res A * np.ndarray.

Definition ret {A} (a : A) : M A := fun g => (Ok a, g).

Definition bind {A B} (m : M A) (k : A -> M B) : M B :=
  fun g =>
    match m g with
    | (Ok a, g') => k a g'
    | (Raise e, g') => (Raise e, g')
    | (OutOfFuel, g') => (OutOfFuel, g')
    end.

Declare Scope py_scope.
Delimit Scope py_scope with py.
Notation "'let!' x ':=' m 'in' k" := (bind m (fun x => k))
  (at level 10, x name, m at level 100, k at level 200) : py_scope.
Notation "m ';;!' k" := (bind m (fun _ => k))
  (at level 100, k at level 200, right associativity) : py_scope.

(** Reading: [self.grid[x, y]]. *)
Definition read (xy : list (Z * Z)) : M (list Z) :=
  fun g => (np.getitem g xy, g).

(** A statement that replaces [self.grid] by the result of [f], or raises
    and leaves it. *)
Definition update (f : np.ndarray -> res np.ndarray) : M unit :=
  fun g =>
    match f g with
    | Ok g' => (Ok tt, g')
    | Raise e => (Raise e, g)
    | OutOfFuel => (OutOfFuel, g)
    end.

(** [self.grid[x, y] = vals] *)
Definition assign (xy : list (Z * Z)) (vals : list Z) : M unit :=
  update (fun g => np.setitem g xy vals).

(** [self.grid[x, y] += vals]: NumPy reads [self.grid[x, y]], adds, and
    assigns the sums back. *)
Definition iadd (xy : list (Z * Z)) (vals : list Z) : M unit :=
  (let! old := read xy in
   assign xy (zip_with int64.add old vals))%py.

Definition shift (dx dy : Z) (xy : list (Z * Z)) : list (Z * Z) :=
  (fun p => (p.1 + dx, p.2 + dy)) <$> xy.

Definition np_max : M Z := fun g => (np.max g, g).

Definition np_where_ge (t : Z) : M (list (Z * Z)) :=
  fun g => (Ok (np.where_ge g t), g).

Definition grid_any : M bool := fun g => (Ok (np.any g), g).

Definition out_of_fuel {A} : M A := fun g => (OutOfFuel, g).

(** ** The class [Sandpile] *)

Record Sandpile : Type := mkSandpile {
  max_grains : Z;
  max_iterations : Z;
  live_view : bool;
  height : Z;
  width : Z;
  grid : np.ndarray
}.

Definition set_grid (self : Sandpile) (g : np.ndarray) : Sandpile :=
  mkSandpile (max_grains self) (max_iterations self) (live_view self)
             (height self) (width self) g.

(** Default values of the keyword arguments of [__init__]. *)
Definition default_height : Z := 3.
Definition default_width : Z := 3.
Definition default_grains : Z := 4.
Definition default_max_timesteps : Z := 1000000.
Definition default_live_view : bool := false.

(** [Sandpile(grid, height, width, grains, max_timesteps, live_view)].
    No argument is validated: the only failures are those of [np.zeros],
    of [grid[0]] on an empty list and of [np.array]. *)
Definition __init__ (grid : option (list (list Z)))
    (height width grains max_timesteps : Z) (live_view : bool)
  : res Sandpile :=
  match grid with
  | None =>
      res_bind (np.zeros height width) (fun g =>
      Ok (mkSandpile grains max_timesteps live_view height width g))
  | Some rows =>
      match rows with
      | [] => Raise (IndexError 0 0 0)
      | r :: _ =>
          res_bind (np.array rows) (fun g =>
          Ok (mkSandpile grains max_timesteps live_view
                         (Z.of_nat (length rows)) (Z.of_nat (length r)) g))
      end
  end.

Section Methods.

Local Open Scope py_scope.

(** [self.max_grains] *)
Variable T : Z.

(** Lines 46-56 of [topple]: the pile is reset to the remainder and the
    quotient goes to each of the four neighbours.  [x] and [y] are the
    index arrays [run] gets from [np.where] (or two integers, which behave
    as arrays of one element). *)
Definition redistribute (xy : list (Z * Z)) : M unit :=
  let! pile := read xy in
  let incr := (fun v => int64.floor_divide v T) <$> pile in
  let new := (fun v => int64.remainder v T) <$> pile in
  assign xy new ;;!
  iadd (shift (-1) 0 xy) incr ;;!
  iadd (shift 0 (-1) xy) incr ;;!
  iadd (shift 1 0 xy) incr ;;!
  iadd (shift 0 1 xy) incr.

(** Lines 58-60 of [topple], the border case: first and last row, then
    first and last column, are set to 0. *)
Definition border_case : M unit :=
  update (fun g => np.setrow g 0 0) ;;!
  update (fun g => np.setrow g (-1) 0) ;;!
  update (fun g => np.setcol g 0 0) ;;!
  update (fun g => np.setcol g (-1) 0).

Definition topple (xy : list (Z * Z)) : M unit :=
  redistribute xy ;;! border_case.

(** [set_pile(x, y, value)] *)
Definition set_pile (x y value : Z) : M unit :=
  assign [(x, y)] [value].

(** The loop [while np.max(self.grid) >= self.max_grains] of [run], with
    its body [x, y = np.where(...); self.topple(x, y)].  It occurs twice in
    [run]; the model returns the number of passes, which is what direct
    mode counts in [iterations]. *)
Fixpoint relax (fuel : nat) : M nat :=
  let! m := np_max in
  if T <=? m then
    match fuel with
    | O => out_of_fuel
    | S fuel' =>
        let! xy := np_where_ge T in
        topple xy ;;!
        let! n := relax fuel' in
        ret (S n)
    end
  else ret O.

(** One turn of the [for] loop of automatic mode, for the position
    [(rand_x, rand_y)] that was drawn. *)
Definition drive_step (fuel : nat) (rand : Z * Z) : M unit :=
  iadd [(rand.1, rand.2)] [1] ;;!
  let! m := np_max in
  if T <=? m then (relax fuel ;;! ret tt) else ret tt.

(** [for i in range(n)], the [i]th turn using the draw [draws i]. *)
Fixpoint automatic (fuel : nat) (draws : nat -> Z * Z) (n i : nat)
    (iterations : Z) : M Z :=
  match n with
  | O => ret iterations
  | S n' =>
      drive_step fuel (draws i) ;;!
      automatic fuel draws n' (S i) (iterations + 1)
  end.

End Methods.

(** What [run] draws: [round(float(np.random.uniform(0, self.width - 1)))]
    for [rand_x], and the same with [self.height] for [rand_y]. *)
Definition drawn (self : Sandpile) (rand : Z * Z) : Prop :=
  0 <= rand.1 <= width self - 1 /\ 0 <= rand.2 <= height self - 1.

Definition run_body (self : Sandpile) (fuel : nat) (draws : nat -> Z * Z)
  : M Z :=
  (let! nonzero := grid_any in
   if negb nonzero
   then automatic (max_grains self) fuel draws
                  (Z.to_nat (max_iterations self)) 0 0
   else
     let! n := relax (max_grains self) fuel in
     ret (Z.of_nat n))%py.

(** [self.run()].  The method returns nothing; the model returns the last
    value of the local counter [iterations], and the object as it is left. *)
Definition run (self : Sandpile) (fuel : nat) (draws : nat -> Z * Z)
  : res Z * Sandpile :=
  let (r, g) := run_body self fuel draws (grid self) in
  (r, set_grid self g).

(** What a call of [__add__] does: [result.run()] returns (and [__add__]
    returns its value, [None]), leaving the local object [result]; or the
    [except ValueError] branch prints its message; or another exception
    leaves the method. *)
Inductive add_outcome : Type :=
| AddReturned (result : Sandpile)
| AddPrinted (msg : string)
| AddRaised (e : exn)
| AddOutOfFuel.

Definition __add__ (self other : Sandpile) (fuel : nat)
    (draws : nat -> Z * Z) : add_outcome :=
  match __init__ None (height self) (width self) default_grains
                 default_max_timesteps default_live_view with
  | Raise e => AddRaised e
  | OutOfFuel => AddOutOfFuel
  | Ok result =>
      match np.add (grid self) (grid other) with
      | Raise (ValueError _) => AddPrinted "ValueError: grid sizes must match"
      | Raise e => AddRaised e
      | OutOfFuel => AddOutOfFuel
      | Ok sum =>
          match run (set_grid result sum) fuel draws with
          | (Ok _, result') => AddReturned result'
          | (Raise (ValueError _), _) =>
              AddPrinted "ValueError: grid sizes must match"
          | (Raise e, _) => AddRaised e
          | (OutOfFuel, _) => AddOutOfFuel
          end
      end
  end.

(** ** Data-level views of the statements *)

(** What [self.grid[x, y] = vs] and [self.grid[x, y] += vs] do to the
    cells, once the positions are known. *)
Definition puts (d : list Z) (ps : list nat) (vs : list Z) : list Z :=
  foldl np.write d (zip ps vs).

Definition adds (d : list Z) (ps : list nat) (vs : list Z) : list Z :=
  puts d ps (zip_with int64.add (np.cell d <$> ps) vs).

Definition reshape (g : np.ndarray) (d : list Z) : np.ndarray :=
  np.mk (np.shape0 g) (np.shape1 g) d.


(** ** Vocabulary of the properties *)

(** [a[i, j]] for a row [i] and a column [j] of the array. *)
Definition item (a : np.ndarray) (i j : nat) : Z :=
  np.cell (np.data a) (i * np.shape1 a + j).

(** The outer border of an [h] by [w] array: first and last row, first and
    last column. *)
Definition on_border (h w p : nat) : bool :=
  Nat.eqb (p / w) 0 || Nat.eqb (p / w) (h - 1)
  || Nat.eqb (p mod w) 0 || Nat.eqb (p mod w) (w - 1).

Definition clear_border (h w : nat) (d : list Z) : list Z :=
  imap (fun p x => if on_border h w p then 0 else x) d.

(** Weighted sum of the cells, the weight of a cell depending on its
    position; [total] counts every grain once. *)
Fixpoint wsum_from (wt : nat -> Z) (p : nat) (d : list Z) : Z :=
  match d with
  | [] => 0
  | v :: d' => wt p * v + wsum_from wt (S p) d'
  end.

Definition wsum (wt : nat -> Z) (d : list Z) : Z := wsum_from wt 0 d.

Definition total (a : np.ndarray) : Z := wsum (fun _ => 1) (np.data a).

(** The grains held by the border cells. *)
Definition border_total (a : np.ndarray) : Z :=
  wsum (fun p => if on_border (np.shape0 a) (np.shape1 a) p then 1 else 0)
       (np.data a).

(** No cell holds [t] grains or more: the exit test of the loop of [run]. *)
Definition stable (t : Z) (a : np.ndarray) : Prop :=
  exists m, np.max a = Ok m /\ m < t.

Definition border_is_zero (a : np.ndarray) : Prop :=
  forall p, on_border (np.shape0 a) (np.shape1 a) p = true ->
            np.cell (np.data a) p = 0.

(** The cells after lines 46-56 of [topple], given the positions of the
    piles ([p0]) and of their upper, left, lower and right neighbours. *)
Definition redistributed (T : Z) (d : list Z) (p0 p1 p2 p3 p4 : list nat)
  : list Z :=
  let pile := np.cell d <$> p0 in
  let incr := (fun v => int64.floor_divide v T) <$> pile in
  let new := (fun v => int64.remainder v T) <$> pile in
  adds (adds (adds (adds (puts d p0 new) p1 incr) p2 incr) p3 incr) p4 incr.

(** Sum of [f] over a list of positions. *)
Fixpoint lsum (f : nat -> Z) (ps : list nat) : Z :=
  match ps with
  | [] => 0
  | p :: ps' => f p + lsum f ps'
  end.

(** The position [dx] rows below and [dy] columns to the right of [p]. *)
Definition moved (w : nat) (dx dy : Z) (p : nat) : nat :=
  Z.to_nat (Z.of_nat p + dx * Z.of_nat w + dy).

(** Cells of the interior: neither in the first or last row nor in the
    first or last column; by coordinates, and by position. *)
Definition inside (h w i j : nat) : Prop :=
  (1 <= i)%nat /\ (i + 2 <= h)%nat /\ (1 <= j)%nat /\ (j + 2 <= w)%nat.

Definition interior (h w p : nat) : Prop :=
  exists i j, p = (i * w + j)%nat /\ inside h w i j.

(** A weight that vanishes on the border and that every interior cell
    holds more of than the average of its four neighbours. *)
Definition weight (h w p : nat) : Z :=
  let i := Z.of_nat (p / w) in
  let j := Z.of_nat (p mod w) in
  (i * (Z.of_nat h - 1 - i)) * (j * (Z.of_nat w - 1 - j)).

Definition potential (a : np.ndarray) : Z :=
  wsum (weight (np.shape0 a) (np.shape1 a)) (np.data a).

(** The grids of the data model: at least one cell, no negative cell, an
    empty border, and a grain count that fits a machine integer. *)
Definition sandpile_grid (a : np.ndarray) : Prop :=
  np.wf a /\ (0 < np.shape0 a)%nat /\ (0 < np.shape1 a)%nat /\
  Forall (fun v => 0 <= v) (np.data a) /\
  border_is_zero a /\
  total a < 2 ^ 63.

(** Quotient and remainder of the pile at position [p]. *)
Definition quot (T : Z) (d : list Z) (p : nat) : Z := np.cell d p / T.
Definition rest (T : Z) (d : list Z) (p : nat) : Z := np.cell d p mod T.

(** ** Relaxing the operands of a sum

    The programs that the Abelian property compares, as a user of the
    class writes them: [a + b]; [a.run()] followed by [a + b]; [a.run()]
    and [b.run()] followed by [a + b].  [run] relaxes an operand in place,
    with the threshold of that operand and with the test of [run] for an
    empty grid; an exception raised by [run] outside [__add__] is not
    caught.  [a] and [b] are two objects, and each call of [run] has its
    own draws. *)
Definition after_run (self : Sandpile) (fuel : nat) (draws : nat -> Z * Z)
    (k : Sandpile -> add_outcome) : add_outcome :=
  match run self fuel draws with
  | (Ok _, self') => k self'
  | (Raise e, _) => AddRaised e
  | (OutOfFuel, _) => AddOutOfFuel
  end.

Definition add_relaxed_left (a b : Sandpile) (fuel : nat)
    (draws_a draws_sum : nat -> Z * Z) : add_outcome :=
  after_run a fuel draws_a (fun a' => __add__ a' b fuel draws_sum).

Definition add_relaxed_both (a b : Sandpile) (fuel : nat)
    (draws_a draws_b draws_sum : nat -> Z * Z) : add_outcome :=
  after_run a fuel draws_a (fun a' =>
  after_run b fuel draws_b (fun b' => __add__ a' b' fuel draws_sum)).

(** ** The pass as the specification words it

    The reading of the specification, to compare with the pass of [run]:
    the coordinates of the snapshot are toppled one at a time, in the
    order of the snapshot, each call reading the grid as the call before
    it left it. *)
Fixpoint topple_one_at_a_time (T : Z) (xy : list (Z * Z)) : M unit :=
  match xy with
  | [] => ret tt
  | c :: xy' => (topple T [c] ;;! topple_one_at_a_time T xy')%py
  end.

Fixpoint relax_one_at_a_time (T : Z) (fuel : nat) : M nat :=
  (let! m := np_max in
   if T <=? m then
     match fuel with
     | O => out_of_fuel
     | S fuel' =>
         let! xy := np_where_ge T in
         topple_one_at_a_time T xy ;;!
         let! n := relax_one_at_a_time T fuel' in
         ret (S n)
     end
   else ret O)%py.

(** What a cell holding [v] keeps, and what it gives to each neighbour,
    when all unstable cells are toppled at once. *)
Definition kept (T v : Z) : Z := if T <=? v then v mod T else v.
Definition given (T v : Z) : Z := if T <=? v then v / T else 0.

(** The weight that counts the cell at position [k] and no other. *)
Definition only (k p : nat) : Z := if Nat.eqb p k then 1 else 0.

(** One more pass in the count the loop returns. *)
Definition count_pass (r : res nat * np.ndarray) : res nat * np.ndarray :=
  match r with
  | (Ok n, g) => (Ok (S n), g)
  | other => other
  end.

(** A check of [border_is_zero] that computes. *)
Definition border_zero_check (a : np.ndarray) : bool :=
  forallb (fun p => implb (on_border (np.shape0 a) (np.shape1 a) p)
                          (np.cell (np.data a) p =? 0))
          (seq 0 (length (np.data a))).

(** ** Firing counts

    A count [c i j] says how many times the cell of row [i] and column
    [j] has given one grain to each of its neighbours (and given up [T]
    grains); [lap] is what the counts of a cell and of its neighbours
    change in the cell, [fired f c] the cells [f] after the counts [c]. *)
Definition lap (T : Z) (c : nat -> nat -> Z) (i j : nat) : Z :=
  c (i + 1)%nat j + c i (j + 1)%nat + c (i - 1)%nat j + c i (j - 1)%nat
  - T * c i j.

Definition fired (T : Z) (f c : nat -> nat -> Z) (i j : nat) : Z :=
  f i j + lap T c i j.

(** Counts reached by firing interior cells in blocks: a cell fires [u]
    times in a row when it holds at least [T * u] grains. *)
Inductive legal (h w : nat) (T : Z) (f : nat -> nat -> Z)
  : (nat -> nat -> Z) -> Prop :=
| legal_zero c : (forall i j, c i j = 0) -> legal h w T f c
| legal_step c u c' :
    legal h w T f c ->
    (forall i j, 0 <= u i j) ->
    (forall i j, ~ inside h w i j -> u i j = 0) ->
    (forall i j, inside h w i j -> 0 < u i j ->
                 T * u i j <= fired T f c i j) ->
    (forall i j, c' i j = c i j + u i j) ->
    legal h w T f c'.

Definition insideb (h w i j : nat) : bool :=
  (1 <=? i)%nat && (i + 2 <=? h)%nat && (1 <=? j)%nat && (j + 2 <=? w)%nat.

(** The counts of one pass of the loop of [run]: every interior cell at
    or above the threshold fires its quotient. *)
Definition pass_counts (T : Z) (g : np.ndarray) (i j : nat) : Z :=
  if insideb (np.shape0 g) (np.shape1 g) i j
  then given T (item g i j) else 0.

(** The counts of one call of [topple] on the single pile at position
    [p]. *)
Definition pile_count (T : Z) (g : np.ndarray) (p : nat) (i j : nat) : Z :=
  if insideb (np.shape0 g) (np.shape1 g) i j
  then only (i * np.shape1 g + j) p * quot T (np.data g) p
  else 0.

(** ** Shapes

    [same_shape g g'] says that [g'] has the shape of [g] and as many
    cells; a method body [keeps_shape] when the grid it leaves has the
    shape of the grid it started from, whether it returns, raises or is cut
    off. *)
Definition same_shape (g g' : np.ndarray) : Prop :=
  np.shape0 g' = np.shape0 g /\ np.shape1 g' = np.shape1 g /\
  length (np.data g') = length (np.data g).

Definition keeps_shape {A} (m : M A) : Prop :=
  forall g r g', m g = (r, g') -> same_shape g g'.

(** The four cells next to the cell of row [r] and column [c]. *)
Definition neighbours (r c i j : nat) : bool :=
  (Nat.eqb i r && (Nat.eqb j (c + 1) || Nat.eqb (j + 1) c))
  || (Nat.eqb j c && (Nat.eqb i (r + 1) || Nat.eqb (i + 1) r)).
(** * Properties *)

(** ** The monad *)

Lemma bind_Ok {A B} (m : M A) (k : A -> M B) g a g1 :
  m g = (Ok a, g1) -> bind m k g = k a g1.
Proof. intros E. unfold bind. now rewrite E. Qed.

Lemma bind_Raise {A B} (m : M A) (k : A -> M B) g e g1 :
  m g = (Raise e, g1) -> bind m k g = (Raise e, g1).
Proof. intros E. unfold bind. now rewrite E. Qed.

Lemma bind_Ok_inv {A B} (m : M A) (k : A -> M B) g b g2 :
  bind m k g = (Ok b, g2) ->
  exists a g1, m g = (Ok a, g1) /\ k a g1 = (Ok b, g2).
Proof.
  unfold bind. destruct (m g) as [[a| |] g1]; intros E; try discriminate.
  now exists a, g1.
Qed.

Lemma update_Ok_inv f g u g' :
  update f g = (Ok u, g') -> f g = Ok g'.
Proof.
  unfold update. destruct (f g); intros E; now inversion E.
Qed.

(** ** Integer indices *)

Lemma check_index_nonneg axis size i :
  0 <= i < Z.of_nat size ->
  np.check_index axis size i = Ok (Z.to_nat i).
Proof.
  intros Hi. unfold np.check_index.
  destruct (Z.leb_spec 0 i), (Z.ltb_spec i (Z.of_nat size)); simpl; try lia.
  reflexivity.
Qed.

Lemma check_index_negative axis size i :
  - Z.of_nat size <= i < 0 ->
  np.check_index axis size i = Ok (Z.to_nat (i + Z.of_nat size)).
Proof.
  intros Hi. unfold np.check_index.
  destruct (Z.leb_spec 0 i); simpl; try lia.
  destruct (Z.leb_spec (- Z.of_nat size) i), (Z.ltb_spec i 0); simpl; try lia.
  reflexivity.
Qed.

Lemma check_index_beyond axis size i :
  Z.of_nat size <= i ->
  np.check_index axis size i = Raise (IndexError axis i size).
Proof.
  intros Hi. unfold np.check_index.
  destruct (Z.leb_spec 0 i), (Z.ltb_spec i (Z.of_nat size)); simpl; try lia.
  destruct (Z.leb_spec (- Z.of_nat size) i), (Z.ltb_spec i 0); simpl; try lia;
    reflexivity.
Qed.


Lemma check_index_total axis size i :
  - Z.of_nat size <= i < Z.of_nat size ->
  exists n, np.check_index axis size i = Ok n.
Proof.
  intros Hi. destruct (Z.lt_ge_cases i 0).
  - eexists. apply check_index_negative. lia.
  - eexists. apply check_index_nonneg. lia.
Qed.

(** ** Statements of a method body *)

Lemma positions_reshape g d xy :
  np.positions (reshape g d) xy = np.positions g xy.
Proof. reflexivity. Qed.

Lemma read_Ok g xy ps :
  np.positions g xy = Ok ps ->
  read xy g = (Ok (np.cell (np.data g) <$> ps), g).
Proof. intros E. unfold read, np.getitem. now rewrite E. Qed.

Lemma assign_Ok g xy vs ps :
  np.positions g xy = Ok ps ->
  assign xy vs g = (Ok tt, reshape g (puts (np.data g) ps vs)).
Proof. intros E. unfold assign, update, np.setitem. now rewrite E. Qed.

Lemma iadd_Ok g xy vs ps :
  np.positions g xy = Ok ps ->
  iadd xy vs g = (Ok tt, reshape g (adds (np.data g) ps vs)).
Proof.
  intros E. unfold iadd.
  rewrite (bind_Ok _ _ _ _ _ (read_Ok _ _ _ E)).
  now rewrite (assign_Ok _ _ _ _ E).
Qed.

Lemma iadd_Raise g xy vs e :
  np.positions g xy = Raise e -> iadd xy vs g = (Raise e, g).
Proof.
  intros E. unfold iadd, bind, read, np.getitem. now rewrite E.
Qed.

Lemma iadd_Ok_inv g xy vs u g' :
  iadd xy vs g = (Ok u, g') ->
  exists ps, np.positions g xy = Ok ps /\
             g' = reshape g (adds (np.data g) ps vs).
Proof.
  intros E. destruct (np.positions g xy) as [ps|e|] eqn:P.
  - rewrite (iadd_Ok _ _ _ _ P) in E. inversion E. now exists ps.
  - rewrite (iadd_Raise _ _ _ _ P) in E. discriminate.
  - unfold iadd, bind, read, np.getitem in E. rewrite P in E. discriminate.
Qed.
(** ** The border case *)

Lemma clear_border_lookup h w d p :
  np.cell (clear_border h w d) p =
  if on_border h w p then 0 else np.cell d p.
Proof.
  unfold np.cell, clear_border. rewrite list_lookup_imap.
  destruct (d !! p); simpl; [reflexivity|]. now destruct on_border.
Qed.

Lemma border_case_Ok g :
  (0 < np.shape0 g)%nat -> (0 < np.shape1 g)%nat ->
  border_case g =
  (Ok tt, reshape g (clear_border (np.shape0 g) (np.shape1 g) (np.data g))).
Proof.
  intros Hh Hw. destruct g as [h w d]. simpl in *.
  unfold border_case, bind, update, np.setrow, np.setcol; simpl.
  rewrite (check_index_nonneg 0 h 0) by lia. simpl.
  rewrite (check_index_negative 0 h (-1)) by lia. simpl.
  rewrite (check_index_nonneg 1 w 0) by lia. simpl.
  rewrite (check_index_negative 1 w (-1)) by lia. simpl.
  unfold reshape. simpl. f_equal. f_equal.
  apply list_eq. intros p. unfold clear_border.
  rewrite !list_lookup_imap. destruct (d !! p) as [x|]; simpl; [|reflexivity].
  f_equal. unfold on_border.
  replace (Z.to_nat (-1 + Z.of_nat h)) with (h - 1)%nat by lia.
  replace (Z.to_nat (-1 + Z.of_nat w)) with (w - 1)%nat by lia.
  change (Z.to_nat 0) with 0%nat.
  destruct (Nat.eqb (p / w) 0), (Nat.eqb (p / w) (h - 1)),
    (Nat.eqb (p mod w) 0), (Nat.eqb (p mod w) (w - 1)); reflexivity.
Qed.

Lemma border_case_Ok_inv g u g' :
  border_case g = (Ok u, g') ->
  (0 < np.shape0 g)%nat /\ (0 < np.shape1 g)%nat /\
  g' = reshape g (clear_border (np.shape0 g) (np.shape1 g) (np.data g)).
Proof.
  intros E.
  destruct (Nat.eq_dec (np.shape0 g) 0%nat) as [Hh|Hh].
  { exfalso. unfold border_case, bind, update, np.setrow in E.
    rewrite Hh in E. simpl in E. discriminate. }
  destruct (Nat.eq_dec (np.shape1 g) 0%nat) as [Hw|Hw].
  { exfalso. destruct g as [h w d]. simpl in *. subst w.
    unfold border_case, bind, update, np.setrow, np.setcol in E. simpl in E.
    rewrite (check_index_nonneg 0 h 0) in E by lia. simpl in E.
    rewrite (check_index_negative 0 h (-1)) in E by lia. simpl in E.
    discriminate. }
  rewrite border_case_Ok in E by lia. inversion E. repeat split; lia.
Qed.

Lemma topple_Ok_inv T xy g u g' :
  topple T xy g = (Ok u, g') ->
  exists gm, redistribute T xy g = (Ok tt, gm) /\
             border_case gm = (Ok tt, g').
Proof.
  intros E. apply bind_Ok_inv in E as ([] & gm & E1 & E2).
  destruct u. now exists gm.
Qed.

Lemma topple_border_is_zero T xy g u g' :
  topple T xy g = (Ok u, g') -> border_is_zero g'.
Proof.
  intros E. apply topple_Ok_inv in E as (gm & _ & E).
  apply border_case_Ok_inv in E as (_ & _ & ->).
  intros p Hp. simpl in *. rewrite clear_border_lookup. now rewrite Hp.
Qed.

(** ** The loop of [run] *)

Lemma relax_unfold T fuel g :
  relax T fuel g =
  match np.max g with
  | Ok m =>
      if T <=? m then
        match fuel with
        | O => (OutOfFuel, g)
        | S fuel' =>
            match topple T (np.where_ge g T) g with
            | (Ok _, g1) =>
                match relax T fuel' g1 with
                | (Ok n, g2) => (Ok (S n), g2)
                | (Raise e, g2) => (Raise e, g2)
                | (OutOfFuel, g2) => (OutOfFuel, g2)
                end
            | (Raise e, g1) => (Raise e, g1)
            | (OutOfFuel, g1) => (OutOfFuel, g1)
            end
        end
      else (Ok O, g)
  | Raise e => (Raise e, g)
  | OutOfFuel => (OutOfFuel, g)
  end.
Proof.
  destruct fuel; simpl; unfold bind, np_max, np_where_ge, out_of_fuel, ret;
    destruct (np.max g) as [m| |]; try reflexivity;
    destruct (T <=? m); reflexivity.
Qed.

Lemma relax_stable T fuel g : stable T g -> relax T fuel g = (Ok O, g).
Proof.
  intros (m & E & Hm). rewrite relax_unfold, E.
  destruct (Z.leb_spec T m); [lia|reflexivity].
Qed.

Lemma relax_Ok_stable T fuel : forall g n g',
  relax T fuel g = (Ok n, g') -> stable T g'.
Proof.
  induction fuel as [|fuel IH]; intros g n g' E; rewrite relax_unfold in E;
    destruct (np.max g) as [m| |] eqn:Em; try discriminate;
    destruct (Z.leb_spec T m); try discriminate.
  - inversion E; subst. now exists m.
  - destruct (topple T (np.where_ge g T) g) as [[[]| |] g1]; try discriminate.
    destruct (relax T fuel g1) as [[k| |] g2] eqn:E2; try discriminate.
    inversion E; subst. eapply IH, E2.
  - inversion E; subst. now exists m.
Qed.

Lemma relax_Ok_border T fuel : forall g n g',
  relax T fuel g = (Ok n, g') -> (n = O /\ g' = g) \/ border_is_zero g'.
Proof.
  induction fuel as [|fuel IH]; intros g n g' E; rewrite relax_unfold in E;
    destruct (np.max g) as [m| |] eqn:Em; try discriminate;
    destruct (Z.leb_spec T m); try discriminate.
  - inversion E; subst. now left.
  - destruct (topple T (np.where_ge g T) g) as [[[]| |] g1] eqn:E1;
      try discriminate.
    destruct (relax T fuel g1) as [[k| |] g2] eqn:E2; try discriminate.
    inversion E; subst. right.
    destruct (IH _ _ _ E2) as [[_ ->]|Hb]; [|exact Hb].
    eapply topple_border_is_zero, E1.
  - inversion E; subst. now left.
Qed.

Lemma set_grid_grid self : set_grid self (grid self) = self.
Proof. now destruct self. Qed.

(** C4: a grid whose maximum is below the threshold is left as it is by
    the relaxation loop of [run], whatever the fuel: no cell changes and
    no pass is made. *)
Theorem relax_below_threshold_identity :
  forall T fuel g m,
    np.max g = Ok m -> m < T -> relax T fuel g = (Ok O, g).
Proof.
  intros T fuel g m Em Hm. apply relax_stable. now exists m.
Qed.

Lemma relax_below_threshold_identity_witness :
  let g := np.mk 3 3 [0;0;0; 0;3;0; 0;0;0] in
  relax 4 0 g = (Ok O, g).
Proof.
  apply (relax_below_threshold_identity 4 0 _ 3); [reflexivity | lia].
Defined.

(** The same through [run]: a stable grid with a nonzero cell is run in
    direct mode and comes back unchanged, with no iteration counted. *)
Lemma run_direct_below_threshold self fuel draws m :
  np.any (grid self) = true ->
  np.max (grid self) = Ok m -> m < max_grains self ->
  run self fuel draws = (Ok 0, self).
Proof.
  intros Hany Em Hm. unfold run, run_body, bind, grid_any, ret.
  rewrite Hany. simpl.
  rewrite (relax_stable (max_grains self) fuel (grid self))
    by (now exists m).
  simpl. now rewrite set_grid_grid.
Qed.

(** ** [topple], statement by statement *)

Lemma redistribute_Ok T xy g p0 p1 p2 p3 p4 :
  np.positions g xy = Ok p0 ->
  np.positions g (shift (-1) 0 xy) = Ok p1 ->
  np.positions g (shift 0 (-1) xy) = Ok p2 ->
  np.positions g (shift 1 0 xy) = Ok p3 ->
  np.positions g (shift 0 1 xy) = Ok p4 ->
  redistribute T xy g =
  (Ok tt, reshape g (redistributed T (np.data g) p0 p1 p2 p3 p4)).
Proof.
  intros E0 E1 E2 E3 E4. unfold redistribute.
  rewrite (bind_Ok _ _ _ _ _ (read_Ok _ _ _ E0)).
  rewrite (bind_Ok _ _ _ _ _ (assign_Ok _ _ _ _ E0)).
  erewrite bind_Ok by (apply iadd_Ok; rewrite positions_reshape; exact E1).
  erewrite bind_Ok by (apply iadd_Ok; rewrite positions_reshape; exact E2).
  erewrite bind_Ok by (apply iadd_Ok; rewrite positions_reshape; exact E3).
  erewrite iadd_Ok by (rewrite positions_reshape; exact E4).
  reflexivity.
Qed.

Lemma redistribute_Raise_down T xy g p0 p1 p2 e :
  np.positions g xy = Ok p0 ->
  np.positions g (shift (-1) 0 xy) = Ok p1 ->
  np.positions g (shift 0 (-1) xy) = Ok p2 ->
  np.positions g (shift 1 0 xy) = Raise e ->
  exists g', redistribute T xy g = (Raise e, g').
Proof.
  intros E0 E1 E2 E3. unfold redistribute.
  rewrite (bind_Ok _ _ _ _ _ (read_Ok _ _ _ E0)).
  rewrite (bind_Ok _ _ _ _ _ (assign_Ok _ _ _ _ E0)).
  erewrite bind_Ok by (apply iadd_Ok; rewrite positions_reshape; exact E1).
  erewrite bind_Ok by (apply iadd_Ok; rewrite positions_reshape; exact E2).
  erewrite bind_Raise by (apply iadd_Raise; rewrite positions_reshape; exact E3).
  eauto.
Qed.

Lemma redistribute_Raise_right T xy g p0 p1 p2 p3 e :
  np.positions g xy = Ok p0 ->
  np.positions g (shift (-1) 0 xy) = Ok p1 ->
  np.positions g (shift 0 (-1) xy) = Ok p2 ->
  np.positions g (shift 1 0 xy) = Ok p3 ->
  np.positions g (shift 0 1 xy) = Raise e ->
  exists g', redistribute T xy g = (Raise e, g').
Proof.
  intros E0 E1 E2 E3 E4. unfold redistribute.
  rewrite (bind_Ok _ _ _ _ _ (read_Ok _ _ _ E0)).
  rewrite (bind_Ok _ _ _ _ _ (assign_Ok _ _ _ _ E0)).
  erewrite bind_Ok by (apply iadd_Ok; rewrite positions_reshape; exact E1).
  erewrite bind_Ok by (apply iadd_Ok; rewrite positions_reshape; exact E2).
  erewrite bind_Ok by (apply iadd_Ok; rewrite positions_reshape; exact E3).
  erewrite iadd_Raise by (rewrite positions_reshape; exact E4).
  eauto.
Qed.

Lemma redistribute_Ok_inv T xy g u g' :
  redistribute T xy g = (Ok u, g') ->
  exists p0 p1 p2 p3 p4,
    np.positions g xy = Ok p0 /\
    np.positions g (shift (-1) 0 xy) = Ok p1 /\
    np.positions g (shift 0 (-1) xy) = Ok p2 /\
    np.positions g (shift 1 0 xy) = Ok p3 /\
    np.positions g (shift 0 1 xy) = Ok p4 /\
    g' = reshape g (redistributed T (np.data g) p0 p1 p2 p3 p4).
Proof.
  intros E. unfold redistribute in E.
  apply bind_Ok_inv in E as (pile & g0 & E0 & E).
  unfold read, np.getitem in E0.
  destruct (np.positions g xy) as [p0| |] eqn:P0; try discriminate.
  simpl in E0. inversion E0; subst g0 pile. clear E0.
  apply bind_Ok_inv in E as ([] & g1 & E1 & E).
  rewrite (assign_Ok _ _ _ _ P0) in E1. inversion E1; subst g1. clear E1.
  apply bind_Ok_inv in E as ([] & g2 & E2 & E).
  apply iadd_Ok_inv in E2 as (p1 & P1 & ->).
  apply bind_Ok_inv in E as ([] & g3 & E3 & E).
  apply iadd_Ok_inv in E3 as (p2 & P2 & ->).
  apply bind_Ok_inv in E as ([] & g4 & E4 & E).
  apply iadd_Ok_inv in E4 as (p3 & P3 & ->).
  apply iadd_Ok_inv in E as (p4 & P4 & ->).
  exists p0, p1, p2, p3, p4. repeat split; assumption.
Qed.

Lemma positions_single g x y :
  np.positions g [(x, y)] =
  res_bind (np.check_index 0 (np.shape0 g) x) (fun r =>
  res_bind (np.check_index 1 (np.shape1 g) y) (fun c =>
  Ok [(r * np.shape1 g + c)%nat])).
Proof.
  unfold np.positions. simpl.
  destruct (np.check_index 0 (np.shape0 g) x); simpl; try reflexivity.
  destruct (np.check_index 1 (np.shape1 g) y); reflexivity.
Qed.

Lemma positions_single_total g x y :
  - Z.of_nat (np.shape0 g) <= x < Z.of_nat (np.shape0 g) ->
  - Z.of_nat (np.shape1 g) <= y < Z.of_nat (np.shape1 g) ->
  exists p, np.positions g [(x, y)] = Ok [p].
Proof.
  intros Hx Hy. rewrite positions_single.
  destruct (check_index_total 0 _ _ Hx) as [r ->].
  destruct (check_index_total 1 _ _ Hy) as [c ->].
  simpl. eauto.
Qed.

(** What the failing call leaves behind: the pile is reset and the
    neighbours reached before the failing access have received their
    grains; the border is not cleared. *)
Example topple_last_column_partial :
  topple 4 [(1, 2)] (np.mk 3 3 [0;0;0; 0;0;4; 0;0;0]) =
  (Raise (IndexError 1 3 3), np.mk 3 3 [0;0;1; 0;1;0; 0;0;1]).
Proof. reflexivity. Qed.

(** ** Scenarios *)

Lemma relax_single_pile_3x3 fuel :
  relax 4 (S fuel) (np.mk 3 3 [0;0;0; 0;4;0; 0;0;0]) =
  (Ok 1%nat, np.mk 3 3 [0;0;0; 0;0;0; 0;0;0]).
Proof.
  rewrite relax_unfold.
  change (np.max (np.mk 3 3 [0;0;0; 0;4;0; 0;0;0])) with (@Ok Z 4).
  change (4 <=? 4) with true. cbv iota.
  change (topple 4 _ _) with (@Ok unit tt, np.mk 3 3 [0;0;0; 0;0;0; 0;0;0]).
  cbv iota.
  rewrite (relax_stable 4 fuel) by (exists 0; split; [reflexivity|lia]).
  reflexivity.
Qed.

(** C8: the 3 by 3 grid whose centre holds 4 grains, with the default
    threshold 4.  [run] takes direct mode and stops after one pass on the
    all-zero grid, whose maximum is 0: the four grains went to the border
    and were cleared. *)
Theorem run_single_pile_3x3 :
  forall fuel draws,
    exists self,
      __init__ (Some [[0;0;0]; [0;4;0]; [0;0;0]]) default_height
               default_width default_grains default_max_timesteps
               default_live_view = Ok self /\
      grid self = np.mk 3 3 [0;0;0; 0;4;0; 0;0;0] /\
      max_grains self = 4 /\
      run self (S fuel) draws =
        (Ok 1, set_grid self (np.mk 3 3 [0;0;0; 0;0;0; 0;0;0])) /\
      np.max (np.mk 3 3 [0;0;0; 0;0;0; 0;0;0]) = Ok 0.
Proof.
  intros fuel draws. eexists. split; [reflexivity|].
  split; [reflexivity|]. split; [reflexivity|]. split; [|reflexivity].
  unfold run, run_body, bind, grid_any, ret.
  change (np.any _) with true. change (negb true) with false. cbv iota.
  change (max_grains _) with 4. change (grid _) with (np.mk 3 3 [0;0;0; 0;4;0; 0;0;0]).
  cbv beta. rewrite relax_single_pile_3x3. reflexivity.
Qed.

(** The 5 by 5 grid whose centre holds 4 grains: one pass moves one grain
    to each neighbour of the centre, and no grain is lost. *)
Example relax_single_pile_5x5 fuel :
  let g := np.mk 5 5 [0;0;0;0;0; 0;0;0;0;0; 0;0;4;0;0; 0;0;0;0;0; 0;0;0;0;0] in
  let g' := np.mk 5 5 [0;0;0;0;0; 0;0;1;0;0; 0;1;0;1;0; 0;0;1;0;0; 0;0;0;0;0] in
  relax 4 (S fuel) g = (Ok 1%nat, g') /\ total g = 4 /\ total g' = 4.
Proof.
  cbv zeta. split; [|split; reflexivity].
  rewrite relax_unfold.
  change (np.max _) with (@Ok Z 4). change (4 <=? 4) with true. cbv iota.
  change (topple 4 _ _) with
    (@Ok unit tt,
     np.mk 5 5 [0;0;0;0;0; 0;0;1;0;0; 0;1;0;1;0; 0;0;1;0;0; 0;0;0;0;0]).
  cbv iota.
  rewrite (relax_stable 4 fuel) by (exists 1; split; [reflexivity|lia]).
  reflexivity.
Qed.

(** Relaxing twice is relaxing once. *)
Lemma relax_idempotent T fuel fuel' g k g' :
  relax T fuel g = (Ok k, g') -> relax T fuel' g' = (Ok O, g').
Proof. intros E. apply relax_stable. eapply relax_Ok_stable, E. Qed.

(** Automatic mode with no iteration allowed leaves the empty grid. *)
Lemma run_no_iteration self fuel draws :
  np.any (grid self) = false -> max_iterations self <= 0 ->
  run self fuel draws = (Ok 0, self).
Proof.
  intros Hany Hn. unfold run, run_body, bind, grid_any, ret.
  rewrite Hany. simpl negb. cbv iota.
  replace (Z.to_nat (max_iterations self)) with O by lia.
  simpl. now rewrite set_grid_grid.
Qed.

(** ** Automatic mode *)

(** C9: on a grid of 3 rows and 5 columns the position (4, 0) can be
    drawn ([rand_x] ranges over the width), and it is used as a row index:
    the increment raises [IndexError] on axis 0. *)
Theorem drive_step_nonsquare_index_error :
  forall fuel,
    exists self,
      __init__ None 3 5 default_grains default_max_timesteps
               default_live_view = Ok self /\
      drawn self (4, 0) /\
      drive_step (max_grains self) fuel (4, 0) (grid self) =
        (Raise (IndexError 0 4 3), grid self) /\
      run self fuel (fun _ => (4, 0)) = (Raise (IndexError 0 4 3), self).
Proof.
  intros fuel. eexists. split; [reflexivity|].
  split; [unfold drawn; simpl; lia|]. split; [reflexivity|].
  unfold run, run_body, bind, grid_any, ret. simpl np.any. simpl negb.
  cbv iota. simpl max_iterations. simpl max_grains. unfold default_max_timesteps.
  replace (Z.to_nat 1000000) with (S (Z.to_nat 999999)) by lia.
  reflexivity.
Qed.

(** ** Construction *)

(** C6, as stated, fails: a grid of 2 rows and 2 columns is constructed. *)
Lemma init_accepts_small_grid :
  __init__ None 2 2 default_grains default_max_timesteps default_live_view =
  Ok (mkSandpile 4 1000000 false 2 2 (np.mk 2 2 [0;0;0;0])).
Proof. reflexivity. Qed.

Lemma array_ragged rows r1 r2 :
  r1 ∈ rows -> r2 ∈ rows -> length r1 <> length r2 ->
  exists msg, np.array rows = Raise (ValueError msg).
Proof.
  intros H1 H2 Hne. unfold np.array. destruct rows as [|r rows'].
  { now apply elem_of_nil in H1. }
  destruct (forallb _ (r :: rows')) eqn:F; [|eauto].
  exfalso. rewrite forallb_forall in F.
  apply list_elem_of_In in H1, H2.
  apply F in H1, H2. apply Nat.eqb_eq in H1, H2. congruence.
Qed.

(** C6, amended: [__init__] checks no minimum size.  Any height and width
    from 0 on give the all-zero grid of that shape; rows of different
    lengths are refused, by [np.array], with a [ValueError]. *)
Theorem init_unvalidated :
  forall h w grains timesteps lv rows r1 r2,
    0 <= h -> 0 <= w ->
    r1 ∈ rows -> r2 ∈ rows -> length r1 <> length r2 ->
    __init__ None h w grains timesteps lv =
      Ok (mkSandpile grains timesteps lv h w
            (np.mk (Z.to_nat h) (Z.to_nat w)
                   (replicate (Z.to_nat h * Z.to_nat w) 0))) /\
    exists msg,
      __init__ (Some rows) h w grains timesteps lv = Raise (ValueError msg).
Proof.
  intros h w grains timesteps lv rows r1 r2 Hh Hw H1 H2 Hne. split.
  - unfold __init__, np.zeros.
    destruct (Z.ltb_spec h 0), (Z.ltb_spec w 0); try lia. reflexivity.
  - destruct (array_ragged rows r1 r2 H1 H2 Hne) as [msg E].
    exists msg. unfold __init__. destruct rows as [|r rows'].
    { now apply elem_of_nil in H1. }
    now rewrite E.
Qed.

Lemma init_unvalidated_witness :
  __init__ None 1 2 4 10 false =
    Ok (mkSandpile 4 10 false 1 2 (np.mk 1 2 [0; 0])) /\
  exists msg,
    __init__ (Some [[1; 2]; [3]]) 1 2 4 10 false = Raise (ValueError msg).
Proof.
  apply (init_unvalidated 1 2 4 10 false [[1; 2]; [3]] [1; 2] [3]);
    [lia | lia | | | simpl; lia].
  - apply list_elem_of_In. simpl. auto.
  - apply list_elem_of_In. simpl. auto.
Defined.

(** ** Composition *)

Lemma broadcast_dim_refl n : np.broadcast_dim n n = Some n.
Proof. unfold np.broadcast_dim. now rewrite Nat.eqb_refl. Qed.

Lemma broadcast_dim_None m n :
  m <> n -> m <> 1%nat -> n <> 1%nat -> np.broadcast_dim m n = None.
Proof.
  intros H1 H2 H3. unfold np.broadcast_dim.
  destruct (Nat.eqb_spec m n); [contradiction|].
  destruct (Nat.eqb_spec m 1); [contradiction|].
  destruct (Nat.eqb_spec n 1); [contradiction|reflexivity].
Qed.

Lemma add_same_shape a b :
  np.shape0 a = np.shape0 b -> np.shape1 a = np.shape1 b ->
  np.add a b =
  Ok (np.mk (np.shape0 a) (np.shape1 a)
            (zip_with int64.add (np.data a) (np.data b))).
Proof.
  intros H0 H1. unfold np.add, np.broadcast_to.
  rewrite <- H0, <- H1, !broadcast_dim_refl, !Nat.eqb_refl. reflexivity.
Qed.

Lemma add_mismatch a b :
  (np.shape0 a <> np.shape0 b /\
   np.shape0 a <> 1%nat /\ np.shape0 b <> 1%nat) \/
  (np.shape1 a <> np.shape1 b /\
   np.shape1 a <> 1%nat /\ np.shape1 b <> 1%nat) ->
  exists msg, np.add a b = Raise (ValueError msg).
Proof.
  intros [(H1 & H2 & H3)|(H1 & H2 & H3)]; unfold np.add.
  - rewrite (broadcast_dim_None _ _ H1 H2 H3). eauto.
  - rewrite (broadcast_dim_None _ _ H1 H2 H3).
    destruct (np.broadcast_dim (np.shape0 a) (np.shape0 b)); eauto.
Qed.

Lemma run_direct self fuel draws :
  np.any (grid self) = true ->
  run self fuel draws =
  (let (r, g) := relax (max_grains self) fuel (grid self) in
   (match r with
    | Ok n => Ok (Z.of_nat n)
    | Raise e => Raise e
    | OutOfFuel => OutOfFuel
    end, set_grid self g)).
Proof.
  intros Hany. unfold run, run_body, bind, grid_any, ret.
  rewrite Hany. change (negb true) with false. cbv beta iota.
  destruct (relax (max_grains self) fuel (grid self)) as [[n|e|] g];
    reflexivity.
Qed.

Lemma run_automatic self fuel draws :
  np.any (grid self) = false ->
  run self fuel draws =
  (let (r, g) := automatic (max_grains self) fuel draws
                           (Z.to_nat (max_iterations self)) 0 0 (grid self) in
   (r, set_grid self g)).
Proof.
  intros Hany. unfold run, run_body, bind, grid_any, ret.
  rewrite Hany. reflexivity.
Qed.

(** C7, amended: when the two shapes differ on an axis where neither has
    size 1 (so for any two grids of at least 3 rows and 3 columns of
    different shapes), [__add__] catches the [ValueError] of the sum,
    prints its message and runs nothing.  When the shapes are equal,
    [run] is called on a new object holding the elementwise sum, with the
    default threshold 4: if the sum has a nonzero cell the relaxation loop
    runs on it, and the relaxed grid is the grid of the local object
    [result]; if the sum is empty, automatic mode runs on it. *)
Theorem add_dispatch :
  forall self other fuel draws,
    0 <= height self -> 0 <= width self ->
    let a := grid self in
    let b := grid other in
    ((np.shape0 a <> np.shape0 b /\
      np.shape0 a <> 1%nat /\ np.shape0 b <> 1%nat) \/
     (np.shape1 a <> np.shape1 b /\
      np.shape1 a <> 1%nat /\ np.shape1 b <> 1%nat) ->
     __add__ self other fuel draws =
       AddPrinted "ValueError: grid sizes must match") /\
    (forall sum,
       np.shape0 a = np.shape0 b -> np.shape1 a = np.shape1 b ->
       sum = np.mk (np.shape0 a) (np.shape1 a)
                   (zip_with int64.add (np.data a) (np.data b)) ->
       np.any sum = true ->
       __add__ self other fuel draws =
         match relax default_grains fuel sum with
         | (Ok _, g') =>
             AddReturned
               (mkSandpile default_grains default_max_timesteps
                           default_live_view (height self) (width self) g')
         | (Raise (ValueError _), _) =>
             AddPrinted "ValueError: grid sizes must match"
         | (Raise e, _) => AddRaised e
         | (OutOfFuel, _) => AddOutOfFuel
         end) /\
    (forall sum,
       np.shape0 a = np.shape0 b -> np.shape1 a = np.shape1 b ->
       sum = np.mk (np.shape0 a) (np.shape1 a)
                   (zip_with int64.add (np.data a) (np.data b)) ->
       np.any sum = false ->
       __add__ self other fuel draws =
         match automatic default_grains fuel draws
                         (Z.to_nat default_max_timesteps) 0 0 sum with
         | (Ok _, g') =>
             AddReturned
               (mkSandpile default_grains default_max_timesteps
                           default_live_view (height self) (width self) g')
         | (Raise (ValueError _), _) =>
             AddPrinted "ValueError: grid sizes must match"
         | (Raise e, _) => AddRaised e
         | (OutOfFuel, _) => AddOutOfFuel
         end).
Proof.
  intros self other fuel draws Hh Hw a b.
  assert (I : __init__ None (height self) (width self) default_grains
                default_max_timesteps default_live_view =
              Ok (mkSandpile default_grains default_max_timesteps
                    default_live_view (height self) (width self)
                    (np.mk (Z.to_nat (height self)) (Z.to_nat (width self))
                       (replicate (Z.to_nat (height self)
                                   * Z.to_nat (width self)) 0)))).
  { unfold __init__, np.zeros.
    destruct (Z.ltb_spec (height self) 0), (Z.ltb_spec (width self) 0);
      try lia. reflexivity. }
  split; [|split].
  - intros Hm. destruct (add_mismatch a b Hm) as [msg E].
    unfold __add__. rewrite I. fold a b. now rewrite E.
  - intros sum H0 H1 -> Hany. unfold __add__. rewrite I. fold a b.
    rewrite (add_same_shape a b H0 H1).
    rewrite run_direct by exact Hany.
    unfold set_grid. cbn [grid max_grains max_iterations live_view height width].
    destruct (relax default_grains fuel _) as [[n|e|] g']; reflexivity.
  - intros sum H0 H1 -> Hany. unfold __add__. rewrite I. fold a b.
    rewrite (add_same_shape a b H0 H1).
    rewrite run_automatic by exact Hany.
    unfold set_grid. cbn [grid max_grains max_iterations live_view height width].
    destruct (automatic default_grains fuel draws _ 0 0 _) as [[n|e|] g'];
      reflexivity.
Qed.

Lemma add_dispatch_witness :
  let a := mkSandpile 4 1000000 false 3 3 (np.mk 3 3 [0;0;0; 0;3;0; 0;0;0]) in
  let b := mkSandpile 4 1000000 false 4 4 (np.mk 4 4 (replicate 16 0)) in
  __add__ a b 2 (fun _ => (0, 0)) =
    AddPrinted "ValueError: grid sizes must match" /\
  __add__ a a 2 (fun _ => (0, 0)) =
    AddReturned
      (mkSandpile 4 1000000 false 3 3 (np.mk 3 3 [0;0;0; 0;2;0; 0;0;0])).
Proof.
  intros a b. split.
  - apply (proj1 (add_dispatch a b 2 (fun _ => (0, 0))
                    ltac:(simpl; lia) ltac:(simpl; lia))).
    left. simpl. lia.
  - rewrite (proj1 (proj2 (add_dispatch a a 2 (fun _ => (0, 0))
                             ltac:(simpl; lia) ltac:(simpl; lia)))
               _ eq_refl eq_refl eq_refl eq_refl).
    reflexivity.
Defined.

(** ** The sum of two empty grids *)

Lemma corner_drops fuel' : forall n i it c,
  (1 <= i)%nat -> 0 <= c < 4 ->
  automatic 4 (S fuel') (fun i => if Nat.eqb i 0 then (1, 1) else (0, 0))
            n i it (np.mk 3 3 [c;0;0; 0;1;0; 0;0;0]) =
  (Ok (it + Z.of_nat n),
   np.mk 3 3 [(c + Z.of_nat n) mod 4;0;0; 0;1;0; 0;0;0]).
Proof.
  induction n as [|n IH]; intros i it c Hi Hc.
  - simpl. unfold ret. rewrite Z.add_0_r, Z.add_0_r, Z.mod_small by lia.
    reflexivity.
  - cbn [automatic].
    destruct (Nat.eqb_spec i 0) as [->|_]; [lia|].
    assert (D : drive_step 4 (S fuel') (0, 0)
                  (np.mk 3 3 [c;0;0; 0;1;0; 0;0;0]) =
                (Ok tt, np.mk 3 3 [(c + 1) mod 4;0;0; 0;1;0; 0;0;0])).
    { assert (C : c = 0 \/ c = 1 \/ c = 2 \/ c = 3) by lia.
      destruct C as [-> | [-> | [-> | ->]]]; try reflexivity.
      unfold drive_step. unfold bind at 1.
      change (iadd _ _ _) with
        (@Ok unit tt, np.mk 3 3 [4;0;0; 0;1;0; 0;0;0]).
      cbv iota. unfold bind at 1. unfold np_max.
      change (np.max _) with (@Ok Z 4). cbv iota.
      change (4 <=? 4) with true. cbv iota. unfold bind at 1.
      rewrite relax_unfold.
      change (np.max _) with (@Ok Z 4). cbv iota.
      change (4 <=? 4) with true. cbv iota.
      change (topple 4 _ _) with
        (@Ok unit tt, np.mk 3 3 [0;0;0; 0;1;0; 0;0;0]).
      cbv iota.
      rewrite (relax_stable 4 fuel') by (exists 1; split; [reflexivity|lia]).
      reflexivity. }
    rewrite (bind_Ok _ _ _ _ _ D).
    rewrite IH by (try lia; apply Z.mod_pos_bound; lia).
    f_equal; [f_equal; lia|]. f_equal. f_equal.
    rewrite Zplus_mod_idemp_l. f_equal. lia.
Qed.

Lemma run_empty_grid_drops_grains fuel' :
  run (mkSandpile 4 1000000 false 3 3 (np.mk 3 3 [0;0;0; 0;0;0; 0;0;0]))
      (S fuel') (fun i => if Nat.eqb i 0 then (1, 1) else (0, 0)) =
  (Ok 1000000,
   mkSandpile 4 1000000 false 3 3 (np.mk 3 3 [3;0;0; 0;1;0; 0;0;0])).
Proof.
  unfold run, run_body. unfold bind at 1. unfold grid_any.
  cbn [grid max_grains max_iterations]. change (np.any _) with false.
  cbv iota. change (negb false) with true. cbv iota.
  replace (Z.to_nat 1000000) with (S (Z.to_nat 999999)) by lia.
  cbn [automatic].
  assert (D : drive_step 4 (S fuel') (1, 1)
                (np.mk 3 3 [0;0;0; 0;0;0; 0;0;0]) =
              (Ok tt, np.mk 3 3 [0;0;0; 0;1;0; 0;0;0])) by reflexivity.
  change (if Nat.eqb 0 0 then (1, 1) else (0, 0)) with (1, 1).
  rewrite (bind_Ok _ _ _ _ _ D).
  rewrite (corner_drops fuel' _ 1 (0 + 1) 0) by lia.
  rewrite Z2Nat.id by lia. reflexivity.
Qed.

(** C7, as stated, fails, in both halves.  A grid of 3 rows and a grid of
    1 row differ in height, and their sum is broadcast and relaxed without
    any error.  And two empty grids of one shape have an empty sum, which
    [run] takes for the start of automatic mode: it drops a million grains
    on it, and what is left is not the relaxed sum (the empty grid). *)
Lemma add_is_not_guarded_relaxed_sum :
  let a := mkSandpile 4 1000000 false 3 3 (np.mk 3 3 [0;0;0; 0;4;0; 0;0;0]) in
  let b := mkSandpile 4 1000000 false 1 3 (np.mk 1 3 [1;1;1]) in
  let z := mkSandpile 4 1000000 false 3 3 (np.mk 3 3 [0;0;0; 0;0;0; 0;0;0]) in
  (np.shape0 (grid a) <> np.shape0 (grid b) /\
   __add__ a b 2 (fun _ => (0, 0)) =
     AddReturned
       (mkSandpile 4 1000000 false 3 3 (np.mk 3 3 [0;0;0; 0;1;0; 0;0;0]))) /\
  ((np.add (grid z) (grid z) = Ok (grid z) /\
    relax 4 2 (grid z) = (Ok 0%nat, grid z)) /\
   __add__ z z 2 (fun i => if Nat.eqb i 0 then (1, 1) else (0, 0)) =
     AddReturned
       (mkSandpile 4 1000000 false 3 3 (np.mk 3 3 [3;0;0; 0;1;0; 0;0;0]))).
Proof.
  cbv zeta. split; [split; [simpl; lia|reflexivity]|].
  split; [split; reflexivity|].
  assert (E : forall draws,
    __add__ (mkSandpile 4 1000000 false 3 3 (np.mk 3 3 [0;0;0; 0;0;0; 0;0;0]))
            (mkSandpile 4 1000000 false 3 3 (np.mk 3 3 [0;0;0; 0;0;0; 0;0;0]))
            2 draws =
    match run (mkSandpile 4 1000000 false 3 3
                 (np.mk 3 3 [0;0;0; 0;0;0; 0;0;0])) 2 draws with
    | (Ok _, result') => AddReturned result'
    | (Raise (ValueError _), _) =>
        AddPrinted "ValueError: grid sizes must match"
    | (Raise e, _) => AddRaised e
    | (OutOfFuel, _) => AddOutOfFuel
    end) by reflexivity.
  rewrite E, run_empty_grid_drops_grains. reflexivity.
Qed.


(** ** The border *)

(** C2, as stated, fails.  A drive step that drops its grain on the
    corner (0, 0) of the empty 3 by 3 grid makes no cell reach the
    threshold, so nothing is toppled and the grain stays on the border;
    and relaxing the stable grid so obtained leaves it there. *)
Lemma border_grain_survives :
  let self := mkSandpile 4 1000000 false 3 3 (np.mk 3 3 (replicate 9 0)) in
  let g' := np.mk 3 3 [1;0;0; 0;0;0; 0;0;0] in
  drawn self (0, 0) /\
  drive_step 4 5 (0, 0) (grid self) = (Ok tt, g') /\
  relax 4 5 g' = (Ok O, g') /\
  on_border 3 3 0 = true /\
  item g' 0 0 = 1 /\
  ~ border_is_zero g'.
Proof.
  cbv zeta. split; [unfold drawn; simpl; lia|].
  split; [reflexivity|]. split; [reflexivity|]. split; [reflexivity|].
  split; [reflexivity|].
  intros Hb. specialize (Hb 0%nat eq_refl). discriminate.
Qed.

Lemma drive_step_Ok_inv T fuel rand g u g' :
  drive_step T fuel rand g = (Ok u, g') ->
  exists g1 m,
    iadd [(rand.1, rand.2)] [1] g = (Ok tt, g1) /\
    np.max g1 = Ok m /\
    ((m < T /\ g' = g1) \/
     (T <= m /\ exists n, relax T fuel g1 = (Ok n, g'))).
Proof.
  intros E. unfold drive_step in E.
  apply bind_Ok_inv in E as ([] & g1 & E1 & E).
  apply bind_Ok_inv in E as (m & g2 & E2 & E).
  unfold np_max in E2.
  destruct (np.max g1) as [m'| |] eqn:Em; inversion E2; subst m' g2.
  exists g1, m. split; [exact E1|]. split; [exact Em|].
  destruct (Z.leb_spec T m) as [Hm|Hm].
  - right. split; [exact Hm|].
    apply bind_Ok_inv in E as (n & g3 & E3 & E).
    inversion E; subst. now exists n.
  - left. split; [exact Hm|]. now inversion E.
Qed.

(** C2, amended: the border is cleared by [topple] and by nothing else.
    Every border cell holds 0 after each call of [topple] that returns;
    therefore after each relaxation that made at least one pass, and
    after each drive step in which a cell reached the threshold. *)
Theorem border_zero_after_topple :
  forall T fuel g g',
    (exists xy u, topple T xy g = (Ok u, g')) \/
    (exists n, relax T fuel g = (Ok (S n), g')) \/
    (exists rand u g1 m,
       iadd [(rand.1, rand.2)] [1] g = (Ok tt, g1) /\
       np.max g1 = Ok m /\ T <= m /\
       drive_step T fuel rand g = (Ok u, g')) ->
    forall i j,
      (i < np.shape0 g')%nat -> (j < np.shape1 g')%nat ->
      i = 0%nat \/ i = (np.shape0 g' - 1)%nat \/
      j = 0%nat \/ j = (np.shape1 g' - 1)%nat ->
      item g' i j = 0.
Proof.
  intros T fuel g g' H.
  assert (Hb : border_is_zero g').
  { destruct H as [(xy & u & E)|[(n & E)|(rand & u & g1 & m & E1 & Em & Hm & E)]].
    - eapply topple_border_is_zero, E.
    - destruct (relax_Ok_border _ _ _ _ _ E) as [[? _]|Hb];
        [discriminate|exact Hb].
    - apply drive_step_Ok_inv in E
        as (g1' & m' & E1' & Em' & [[Hlt ->]|[_ (n & R)]]).
      + rewrite E1 in E1'. inversion E1'; subst g1'.
        rewrite Em in Em'. inversion Em'; subst m'. lia.
      + rewrite E1 in E1'. inversion E1'; subst g1'.
        destruct (relax_Ok_border _ _ _ _ _ R) as [[-> ->]|Hb];
          [|exact Hb].
        exfalso. rewrite relax_unfold, Em in R.
        destruct (Z.leb_spec T m); [|lia].
        destruct fuel; [discriminate|].
        destruct (topple T (np.where_ge g1 T) g1) as [[[]| |] g2];
          try discriminate.
        destruct (relax T fuel g2) as [[k| |] g3]; discriminate. }
  intros i j Hi Hj Hij. unfold item. apply Hb. unfold on_border.
  assert (Hw : (np.shape1 g' <> 0)%nat) by lia.
  rewrite (Nat.div_add_l i _ j Hw), (Nat.div_small j _ Hj), Nat.add_0_r.
  rewrite Nat.add_comm, Nat.Div0.mod_add, (Nat.mod_small j _ Hj).
  destruct Hij as [-> | [-> | [-> | ->]]];
    rewrite ?Nat.eqb_refl, ?orb_true_r; reflexivity.
Qed.

Lemma border_zero_after_topple_witness :
  item (np.mk 3 3 [0;0;0; 0;1;0; 0;0;0]) 2 1 = 0.
Proof.
  apply (border_zero_after_topple 4 1 (np.mk 3 3 [0;0;0; 0;5;0; 0;0;0])).
  - right. left. exists O. reflexivity.
  - simpl. lia.
  - simpl. lia.
  - right. left. reflexivity.
Defined.

(** ** Cells, writes and weighted sums *)

Lemma cell_lookup d p v : d !! p = Some v -> np.cell d p = v.
Proof. unfold np.cell. now intros ->. Qed.

Lemma cell_insert_eq d p v :
  (p < length d)%nat -> np.cell (<[p := v]> d) p = v.
Proof. intros H. unfold np.cell. now rewrite list_lookup_insert_eq. Qed.

Lemma cell_insert_ne d p q v :
  p <> q -> np.cell (<[p := v]> d) q = np.cell d q.
Proof. intros H. unfold np.cell. now rewrite list_lookup_insert_ne. Qed.

Lemma cell_beyond d p : (length d <= p)%nat -> np.cell d p = 0.
Proof. intros H. unfold np.cell. now rewrite lookup_ge_None_2. Qed.

Lemma wsum_from_insert wt : forall d k p v,
  (p < length d)%nat ->
  wsum_from wt k (<[p := v]> d) =
  wsum_from wt k d + wt (k + p)%nat * (v - np.cell d p).
Proof.
  induction d as [|x d IH]; intros k p v Hp; simpl in Hp; [lia|].
  destruct p as [|p]; simpl.
  - rewrite Nat.add_0_r. unfold np.cell. simpl. lia.
  - rewrite IH by lia. unfold np.cell. simpl.
    replace (k + S p)%nat with (S (k + p)) by lia. lia.
Qed.

Lemma wsum_insert wt d p v :
  (p < length d)%nat ->
  wsum wt (<[p := v]> d) = wsum wt d + wt p * (v - np.cell d p).
Proof. intros H. unfold wsum. now rewrite wsum_from_insert. Qed.

Lemma wsum_from_pointwise wt wt' : forall d d' k,
  length d = length d' ->
  (forall p, (p < length d)%nat ->
             wt (k + p)%nat * np.cell d p = wt' (k + p)%nat * np.cell d' p) ->
  wsum_from wt k d = wsum_from wt' k d'.
Proof.
  induction d as [|x d IH]; intros [|x' d'] k Hl Hp; simpl in *;
    try discriminate; [reflexivity|].
  f_equal.
  - specialize (Hp 0%nat ltac:(lia)). rewrite Nat.add_0_r in Hp. exact Hp.
  - apply IH; [lia|]. intros p Hlt.
    specialize (Hp (S p) ltac:(lia)).
    replace (S k + p)%nat with (k + S p)%nat by lia. exact Hp.
Qed.

Lemma wsum_from_plus wt1 wt2 : forall d k,
  wsum_from (fun p => wt1 p + wt2 p) k d =
  wsum_from wt1 k d + wsum_from wt2 k d.
Proof.
  induction d as [|x d IH]; intros k; simpl; [reflexivity|].
  rewrite IH. lia.
Qed.

Lemma wsum_from_nonneg wt : forall d k,
  (forall p, (k <= p < k + length d)%nat -> 0 <= wt p) ->
  Forall (fun v => 0 <= v) d ->
  0 <= wsum_from wt k d.
Proof.
  induction d as [|x d IH]; intros k Hw Hd; simpl; [lia|].
  inversion Hd; subst.
  assert (0 <= wsum_from wt (S k) d).
  { apply IH; [|assumption]. intros p Hp. apply Hw. simpl. lia. }
  assert (0 <= wt k) by (apply Hw; simpl; lia).
  nia.
Qed.

Lemma length_clear_border h w d : length (clear_border h w d) = length d.
Proof. unfold clear_border. apply length_imap. Qed.

Lemma wsum_clear_border wt h w d :
  (forall p, on_border h w p = true -> wt p = 0) ->
  wsum wt (clear_border h w d) = wsum wt d.
Proof.
  intros Hw. unfold wsum. apply wsum_from_pointwise.
  - apply length_clear_border.
  - intros p _. simpl. rewrite clear_border_lookup.
    destruct (on_border h w p) eqn:B; [|reflexivity].
    rewrite (Hw p B). lia.
Qed.

Lemma total_clear_border g :
  total g =
  total (reshape g (clear_border (np.shape0 g) (np.shape1 g) (np.data g)))
  + border_total g.
Proof.
  unfold total, border_total, wsum. simpl.
  rewrite <- (wsum_from_pointwise
    (fun p => if on_border (np.shape0 g) (np.shape1 g) p then 0 else 1)
    (fun _ => 1) (np.data g)
    (clear_border (np.shape0 g) (np.shape1 g) (np.data g)) 0).
  - rewrite <- wsum_from_plus. apply wsum_from_pointwise; [reflexivity|].
    intros p _. simpl. now destruct on_border.
  - symmetry. apply length_clear_border.
  - intros p _. simpl. rewrite clear_border_lookup.
    destruct on_border; lia.
Qed.

(** ** Positions are cells of the array *)




(** ** Arithmetic without overflow *)

Lemma wrap_in_range z : int64.in_range z -> int64.wrap z = z.
Proof.
  unfold int64.in_range, int64.wrap. intros H.
  rewrite Z.mod_small by lia. lia.
Qed.

Lemma floor_divide_exact v T :
  0 < T -> 0 <= v < 2 ^ 63 ->
  int64.floor_divide v T = v / T /\ int64.remainder v T = v mod T /\
  0 <= v / T <= v /\ 0 <= v mod T < T /\ v = T * (v / T) + v mod T.
Proof.
  intros HT Hv. unfold int64.floor_divide, int64.remainder.
  destruct (Z.eqb_spec T 0); [lia|].
  assert (Hq : 0 <= v / T <= v).
  { split; [apply Z.div_pos; lia|].
    apply Z.div_le_upper_bound; [lia|]. nia. }
  rewrite wrap_in_range by (unfold int64.in_range; lia).
  repeat split; try lia.
  - apply Z.mod_pos_bound; lia.
  - apply Z.mod_pos_bound; lia.
  - apply Z.div_mod; lia.
Qed.

Lemma Forall_cell (P : Z -> Prop) d p :
  Forall P d -> (p < length d)%nat -> P (np.cell d p).
Proof.
  intros F Hp. destruct (lookup_lt_is_Some_2 d p Hp) as [v E].
  rewrite (cell_lookup _ _ _ E). eapply Forall_lookup_1; eauto.
Qed.

(** One cell receives [q] grains. *)
Lemma bump_cell wt B d p q :
  (p < length d)%nat -> Forall (fun v => 0 <= v < B) d ->
  0 <= q -> B + q <= 2 ^ 63 ->
  wsum wt (<[p := int64.add (np.cell d p) q]> d) = wsum wt d + wt p * q /\
  Forall (fun v => 0 <= v < B + q) (<[p := int64.add (np.cell d p) q]> d).
Proof.
  intros Hp F Hq HB.
  pose proof (Forall_cell _ _ _ F Hp) as Hc. simpl in Hc.
  unfold int64.add. rewrite wrap_in_range by (unfold int64.in_range; lia).
  split.
  - rewrite wsum_insert by exact Hp. lia.
  - apply Forall_insert; [|lia].
    eapply Forall_impl; [|exact F]. simpl. intros; lia.
Qed.

(** ** Grains through one call of [topple] *)




(** ** Sums over positions *)

Lemma lsum_ext f g ps :
  (forall p, p ∈ ps -> f p = g p) -> lsum f ps = lsum g ps.
Proof.
  induction ps as [|a ps IH]; intros H; simpl; [reflexivity|].
  rewrite (H a) by (left). rewrite IH; [reflexivity|].
  intros p Hp. apply H. now right.
Qed.

Lemma lsum_le f g ps :
  (forall p, p ∈ ps -> f p <= g p) -> lsum f ps <= lsum g ps.
Proof.
  induction ps as [|a ps IH]; intros H; simpl; [lia|].
  pose proof (H a ltac:(left)).
  assert (lsum f ps <= lsum g ps) by (apply IH; intros p Hp; apply H; now right).
  lia.
Qed.

Lemma lsum_plus f g ps :
  lsum (fun p => f p + g p) ps = lsum f ps + lsum g ps.
Proof. induction ps as [|a ps IH]; simpl; lia. Qed.

Lemma lsum_nonneg f ps : (forall p, p ∈ ps -> 0 <= f p) -> 0 <= lsum f ps.
Proof.
  induction ps as [|a ps IH]; intros H; simpl; [lia|].
  pose proof (H a ltac:(left)).
  assert (0 <= lsum f ps) by (apply IH; intros p Hp; apply H; now right).
  lia.
Qed.

Lemma lsum_elem_le f ps p :
  (forall p, p ∈ ps -> 0 <= f p) -> p ∈ ps -> f p <= lsum f ps.
Proof.
  induction ps as [|a ps IH]; intros H Hp.
  - now apply elem_of_nil in Hp.
  - simpl. apply elem_of_cons in Hp as [->|Hp].
    + assert (0 <= lsum f ps)
        by (apply lsum_nonneg; intros; apply H; now right).
      lia.
    + pose proof (H a ltac:(left)).
      assert (f p <= lsum f ps)
        by (apply IH; [intros; apply H; now right|exact Hp]).
      lia.
Qed.

(** ** Fancy assignment, cell by cell *)

Lemma length_puts : forall ps vs d, length (puts d ps vs) = length d.
Proof.
  unfold puts. induction ps as [|p ps IH]; intros [|v vs] d; simpl;
    try reflexivity.
  rewrite IH. unfold np.write. simpl. apply length_insert.
Qed.

Lemma puts_Forall (P : Z -> Prop) : forall ps vs d,
  Forall P d -> Forall P vs -> Forall P (puts d ps vs).
Proof.
  unfold puts. induction ps as [|p ps IH]; intros [|v vs] d Fd Fv; simpl;
    try exact Fd.
  inversion Fv; subst. apply IH; [|assumption].
  unfold np.write. simpl. now apply Forall_insert.
Qed.

Lemma puts_fmap_cons (pos : nat -> nat) (f : nat -> Z) a ps d :
  puts d (pos <$> a :: ps) (f <$> a :: ps) =
  puts (<[pos a := f a]> d) (pos <$> ps) (f <$> ps).
Proof. reflexivity. Qed.

Lemma puts_fmap_wsum wt (pos : nat -> nat) (f : nat -> Z) : forall ps d,
  NoDup (pos <$> ps) ->
  Forall (fun p => (pos p < length d)%nat) ps ->
  wsum wt (puts d (pos <$> ps) (f <$> ps)) =
  wsum wt d + lsum (fun p => wt (pos p) * (f p - np.cell d (pos p))) ps.
Proof.
  induction ps as [|a ps IH]; intros d ND F.
  - unfold puts. simpl. lia.
  - rewrite puts_fmap_cons. rewrite fmap_cons in ND.
    apply list.NoDup_cons in ND as [Ha ND]. inversion F; subst.
    rewrite IH; [|exact ND|].
    + rewrite wsum_insert by assumption. simpl.
      rewrite (lsum_ext _ (fun p => wt (pos p) * (f p - np.cell d (pos p)))).
      * lia.
      * intros p Hp. rewrite cell_insert_ne; [reflexivity|].
        intros Heq. apply Ha. rewrite Heq.
        apply list_elem_of_fmap. now exists p.
    + rewrite length_insert. assumption.
Qed.

Lemma zip_with_fmap_same {A B C D} (h : B -> C -> D) (f : A -> B)
    (g : A -> C) (l : list A) :
  zip_with h (f <$> l) (g <$> l) = (fun x => h (f x) (g x)) <$> l.
Proof. induction l as [|a l IH]; simpl; [reflexivity|]. f_equal. apply IH. Qed.

Lemma adds_fmap (pos : nat -> nat) (q : nat -> Z) ps d :
  adds d (pos <$> ps) (q <$> ps) =
  puts d (pos <$> ps)
       ((fun p => int64.add (np.cell d (pos p)) (q p)) <$> ps).
Proof.
  unfold adds. f_equal. rewrite <- list_fmap_compose.
  apply (zip_with_fmap_same int64.add (np.cell d ∘ pos) q).
Qed.

Lemma fmap_ext_elem {A B} (f g : A -> B) (l : list A) :
  (forall x, x ∈ l -> f x = g x) -> f <$> l = g <$> l.
Proof.
  induction l as [|a l IH]; intros H; simpl; [reflexivity|].
  rewrite (H a) by left. f_equal. apply IH.
  intros x Hx. apply H. now right.
Qed.

Lemma cell_le_total : forall d p,
  Forall (fun v => 0 <= v) d -> np.cell d p <= wsum (fun _ => 1) d.
Proof.
  intros d p F. destruct (Nat.lt_ge_cases p (length d)) as [Hp|Hp].
  - pose proof (wsum_insert (fun _ => 1) d p 0 Hp) as E.
    assert (0 <= wsum (fun _ => 1) (<[p := 0]> d)).
    { apply wsum_from_nonneg; [intros; lia|].
      now apply Forall_insert. }
    cbv beta in E. lia.
  - rewrite cell_beyond by exact Hp.
    apply wsum_from_nonneg; [intros; lia|exact F].
Qed.

(** [self.grid[x, y] += incr] on distinct cells, without overflow: every
    cell addressed receives its increment. *)
Lemma adds_fmap_wsum wt (pos : nat -> nat) (q : nat -> Z) ps d :
  NoDup (pos <$> ps) ->
  Forall (fun p => (pos p < length d)%nat) ps ->
  Forall (fun v => 0 <= v) d ->
  (forall p, p ∈ ps -> 0 <= q p) ->
  wsum (fun _ => 1) d + lsum q ps < 2 ^ 63 ->
  wsum wt (adds d (pos <$> ps) (q <$> ps)) =
    wsum wt d + lsum (fun p => wt (pos p) * q p) ps /\
  Forall (fun v => 0 <= v) (adds d (pos <$> ps) (q <$> ps)) /\
  length (adds d (pos <$> ps) (q <$> ps)) = length d.
Proof.
  intros ND F Fd Hq Hb. rewrite adds_fmap.
  assert (Hd0 : 0 <= wsum (fun _ => 1) d)
    by (apply wsum_from_nonneg; [intros; lia|exact Fd]).
  rewrite (fmap_ext_elem _ (fun p => np.cell d (pos p) + q p)).
  2:{ intros p Hp. unfold int64.add. apply wrap_in_range.
      pose proof (cell_le_total d (pos p) Fd).
      pose proof (lsum_elem_le q ps p Hq Hp).
      pose proof (Hq p Hp).
      assert (0 <= np.cell d (pos p)).
      { apply (Forall_cell _ _ _ Fd).
        rewrite Forall_forall in F. apply F. now apply list_elem_of_In. }
      unfold int64.in_range. lia. }
  split; [|split].
  - rewrite puts_fmap_wsum by assumption. f_equal.
    apply lsum_ext. intros p _. lia.
  - apply puts_Forall; [exact Fd|].
    apply Forall_fmap, Forall_forall. intros p Hp. simpl.
    apply list_elem_of_In in Hp.
    assert (0 <= np.cell d (pos p)).
    { apply (Forall_cell _ _ _ Fd).
      rewrite Forall_forall in F. apply F. now apply list_elem_of_In. }
    pose proof (Hq p Hp). lia.
  - apply length_puts.
Qed.

(** ** The unstable cells *)

Lemma elem_of_find_ge T : forall d k p,
  p ∈ np.find_ge T k d <->
  (k <= p)%nat /\ (p < k + length d)%nat /\ T <= np.cell d (p - k).
Proof.
  induction d as [|v d IH]; intros k p; simpl.
  - split; [intros H; now apply elem_of_nil in H|lia].
  - assert (Hs : forall q, (S k <= q)%nat ->
              np.cell (v :: d) (q - k) = np.cell d (q - S k)).
    { intros q Hq. replace (q - k)%nat with (S (q - S k)) by lia.
      reflexivity. }
    destruct (Z.leb_spec T v) as [Hv|Hv].
    + rewrite elem_of_cons, IH. split.
      * intros [->|(H1 & H2 & H3)].
        -- rewrite Nat.sub_diag. unfold np.cell. simpl. lia.
        -- rewrite Hs by lia. lia.
      * intros (H1 & H2 & H3).
        destruct (Nat.eq_dec p k) as [->|Hne]; [now left|right].
        rewrite Hs in H3 by lia. lia.
    + rewrite IH. split.
      * intros (H1 & H2 & H3). rewrite Hs by lia. lia.
      * intros (H1 & H2 & H3).
        destruct (Nat.eq_dec p k) as [->|Hne].
        -- rewrite Nat.sub_diag in H3. unfold np.cell in H3. simpl in H3. lia.
        -- rewrite Hs in H3 by lia. lia.
Qed.

Lemma NoDup_find_ge T : forall d k, NoDup (np.find_ge T k d).
Proof.
  induction d as [|v d IH]; intros k; simpl; [constructor|].
  destruct (T <=? v); [|apply IH].
  apply NoDup_cons_2; [|apply IH].
  rewrite elem_of_find_ge. lia.
Qed.

Lemma find_ge_nil T : forall d k,
  np.find_ge T k d = [] -> Forall (fun v => v < T) d.
Proof.
  induction d as [|v d IH]; intros k E; simpl in E; [constructor|].
  destruct (Z.leb_spec T v); [discriminate|].
  constructor; [assumption|eapply IH, E].
Qed.

Lemma foldl_max_lt T : forall d v,
  v < T -> Forall (fun x => x < T) d -> foldl Z.max v d < T.
Proof.
  induction d as [|x d IH]; intros v Hv F; simpl; [exact Hv|].
  inversion F; subst. apply IH; [lia|assumption].
Qed.

Lemma unstable_where g T m :
  np.max g = Ok m -> T <= m -> np.find_ge T 0 (np.data g) <> [].
Proof.
  intros E Hm Hnil. unfold np.max in E.
  apply find_ge_nil in Hnil.
  destruct (np.data g) as [|v d]; [discriminate|].
  inversion E; subst. inversion Hnil; subst.
  pose proof (foldl_max_lt T d v H1 H2). lia.
Qed.

Lemma max_total g :
  np.data g <> [] -> exists m, np.max g = Ok m.
Proof.
  intros H. unfold np.max. destruct (np.data g); [contradiction|eauto].
Qed.

(** ** Positions and coordinates *)

Lemma divmod_position w i j :
  (j < w)%nat -> ((i * w + j) / w = i /\ (i * w + j) mod w = j)%nat.
Proof.
  intros H. split.
  - rewrite Nat.div_add_l by lia. rewrite Nat.div_small by exact H. lia.
  - rewrite Nat.add_comm, Nat.Div0.mod_add. now apply Nat.mod_small.
Qed.

Lemma interior_off_border h w p :
  (0 < w)%nat -> (p < h * w)%nat -> on_border h w p = false -> interior h w p.
Proof.
  intros Hw Hp Hb. exists (p / w)%nat, (p mod w)%nat.
  unfold on_border in Hb.
  apply orb_false_elim in Hb as [Hb H4].
  apply orb_false_elim in Hb as [Hb H3].
  apply orb_false_elim in Hb as [H1 H2].
  apply Nat.eqb_neq in H1, H2, H3, H4.
  pose proof (Nat.mod_upper_bound p w ltac:(lia)).
  assert (p / w < h)%nat by (apply Nat.Div0.div_lt_upper_bound; lia).
  split; [|unfold inside; lia].
  rewrite (Nat.div_mod_eq p w) at 1. lia.
Qed.

Lemma unstable_interior g T p :
  sandpile_grid g -> 0 < T ->
  p ∈ np.find_ge T 0 (np.data g) ->
  interior (np.shape0 g) (np.shape1 g) p.
Proof.
  intros (Hwf & Hh & Hw & Fd & Hb & _) HT Hp.
  apply elem_of_find_ge in Hp as (_ & Hlt & Hc).
  rewrite Nat.sub_0_r in Hc. simpl in Hlt. rewrite Hwf in Hlt.
  apply interior_off_border; [exact Hw|exact Hlt|].
  destruct (on_border _ _ p) eqn:B; [|reflexivity].
  rewrite (Hb p B) in Hc. lia.
Qed.

Lemma check_indices_fmap axis size (f : nat -> Z) (r : nat -> nat) ps :
  (forall p, p ∈ ps -> np.check_index axis size (f p) = Ok (r p)) ->
  np.check_indices axis size (f <$> ps) = Ok (r <$> ps).
Proof.
  induction ps as [|a ps IH]; intros H; [reflexivity|].
  rewrite !fmap_cons. cbn [np.check_indices].
  rewrite (H a) by left. cbn [res_bind].
  rewrite IH by (intros p Hp; apply H; now right). reflexivity.
Qed.

Lemma positions_moved g ps dx dy :
  -1 <= dx <= 1 -> -1 <= dy <= 1 ->
  Forall (interior (np.shape0 g) (np.shape1 g)) ps ->
  np.positions g (shift dx dy (np.coord g <$> ps)) =
  Ok (moved (np.shape1 g) dx dy <$> ps).
Proof.
  intros Hdx Hdy F. destruct g as [h w d]. unfold np.positions, shift.
  cbn [np.shape0 np.shape1] in *.
  rewrite <- !list_fmap_compose.
  rewrite (check_indices_fmap 0 h _
             (fun p => Z.to_nat (Z.of_nat (p / w) + dx))).
  2:{ intros p Hp. rewrite Forall_forall in F.
      destruct (F p) as (i & j & -> & (? & ? & ? & ?)); [now apply list_elem_of_In|].
      unfold np.coord. simpl.
      destruct (divmod_position w i j ltac:(lia)) as [-> _].
      apply check_index_nonneg. lia. }
  simpl.
  rewrite (check_indices_fmap 1 w _
             (fun p => Z.to_nat (Z.of_nat (p mod w) + dy))).
  2:{ intros p Hp. rewrite Forall_forall in F.
      destruct (F p) as (i & j & -> & (? & ? & ? & ?)); [now apply list_elem_of_In|].
      unfold np.coord. simpl.
      destruct (divmod_position w i j ltac:(lia)) as [_ ->].
      apply check_index_nonneg. lia. }
  simpl. f_equal. rewrite zip_with_fmap_same.
  apply fmap_ext_elem. intros p Hp. rewrite Forall_forall in F.
  destruct (F p) as (i & j & -> & (? & ? & ? & ?)); [now apply list_elem_of_In|].
  destruct (divmod_position w i j ltac:(lia)) as [-> ->].
  unfold moved. nia.
Qed.

Lemma shift_0 xy : shift 0 0 xy = xy.
Proof.
  unfold shift. induction xy as [|[x y] xy IH]; simpl; [reflexivity|].
  rewrite !Z.add_0_r. f_equal. exact IH.
Qed.

Lemma moved_0 w p : moved w 0 0 p = p.
Proof. unfold moved. lia. Qed.

Lemma moved_interior h w dx dy p :
  -1 <= dx <= 1 -> -1 <= dy <= 1 -> interior h w p ->
  (moved w dx dy p < h * w)%nat /\
  Z.of_nat (moved w dx dy p) = Z.of_nat p + dx * Z.of_nat w + dy.
Proof.
  intros Hdx Hdy (i & j & -> & (? & ? & ? & ?)). unfold moved. split; nia.
Qed.

Lemma NoDup_moved h w dx dy ps :
  -1 <= dx <= 1 -> -1 <= dy <= 1 ->
  Forall (interior h w) ps -> NoDup ps -> NoDup (moved w dx dy <$> ps).
Proof.
  intros Hdx Hdy F ND. apply NoDup_fmap_2_strong; [|exact ND].
  intros p p' Hp Hp' E. rewrite Forall_forall in F.
  pose proof (proj2 (moved_interior h w dx dy p Hdx Hdy
                       (F p ltac:(now apply list_elem_of_In)))).
  pose proof (proj2 (moved_interior h w dx dy p' Hdx Hdy
                       (F p' ltac:(now apply list_elem_of_In)))).
  lia.
Qed.

Lemma lsum_scale c f ps : lsum (fun p => c * f p) ps = c * lsum f ps.
Proof. induction ps as [|a ps IH]; simpl; lia. Qed.

Lemma lsum_nonpos f ps : (forall p, p ∈ ps -> f p <= 0) -> lsum f ps <= 0.
Proof.
  induction ps as [|a ps IH]; intros H; simpl; [lia|].
  pose proof (H a ltac:(left)).
  assert (lsum f ps <= 0) by (apply IH; intros p Hp; apply H; now right).
  lia.
Qed.

(** ** The weight *)

Lemma weight_position h w i j :
  (j < w)%nat ->
  weight h w (i * w + j) =
  (Z.of_nat i * (Z.of_nat h - 1 - Z.of_nat i))
  * (Z.of_nat j * (Z.of_nat w - 1 - Z.of_nat j)).
Proof.
  intros Hj. unfold weight.
  destruct (divmod_position w i j Hj) as [-> ->]. reflexivity.
Qed.

Lemma weight_border h w p : on_border h w p = true -> weight h w p = 0.
Proof.
  unfold on_border, weight. intros H.
  apply orb_true_iff in H as [H|H].
  - apply orb_true_iff in H as [H|H].
    + apply orb_true_iff in H as [H|H]; apply Nat.eqb_eq in H.
      * rewrite H. lia.
      * rewrite H. destruct h; simpl; [lia|].
        replace (h - 0)%nat with h by lia. lia.
    + apply Nat.eqb_eq in H. rewrite H. lia.
  - apply Nat.eqb_eq in H. rewrite H. destruct w; simpl; [lia|].
    replace (w - 0)%nat with w by lia. lia.
Qed.

Lemma weight_nonneg h w p : (p < h * w)%nat -> 0 <= weight h w p.
Proof.
  intros Hp. unfold weight.
  assert (0 < w)%nat by (destruct w; lia).
  pose proof (Nat.mod_upper_bound p w ltac:(lia)).
  assert (p / w < h)%nat by (apply Nat.Div0.div_lt_upper_bound; lia).
  apply Z.mul_nonneg_nonneg; apply Z.mul_nonneg_nonneg; lia.
Qed.

Lemma moved_position w i j dx dy :
  0 <= Z.of_nat i + dx -> 0 <= Z.of_nat j + dy ->
  moved w dx dy (i * w + j) =
  (Z.to_nat (Z.of_nat i + dx) * w + Z.to_nat (Z.of_nat j + dy))%nat.
Proof. intros Hi Hj. unfold moved. nia. Qed.

Lemma weight_moved h w i j dx dy :
  0 <= Z.of_nat i + dx -> 0 <= Z.of_nat j + dy < Z.of_nat w ->
  weight h w (moved w dx dy (i * w + j)) =
  ((Z.of_nat i + dx) * (Z.of_nat h - 1 - (Z.of_nat i + dx)))
  * ((Z.of_nat j + dy) * (Z.of_nat w - 1 - (Z.of_nat j + dy))).
Proof.
  intros Hi Hj. rewrite moved_position by lia.
  rewrite weight_position by lia. rewrite !Z2Nat.id by lia. reflexivity.
Qed.

(** An interior cell weighs more than the average of its neighbours. *)
Lemma weight_superharmonic h w p T :
  interior h w p -> 4 <= T ->
  0 <= weight h w p /\
  weight h w (moved w (-1) 0 p) + weight h w (moved w 0 (-1) p)
  + weight h w (moved w 1 0 p) + weight h w (moved w 0 1 p) + 1
  <= T * weight h w p.
Proof.
  intros (i & j & -> & Hi1 & Hi2 & Hj1 & Hj2) HT.
  rewrite !weight_moved by lia. rewrite weight_position by lia.
  set (a := Z.of_nat i). set (b := Z.of_nat j).
  set (A := Z.of_nat h - 1 - a). set (B := Z.of_nat w - 1 - b).
  replace (Z.of_nat h - 1 - (a + -1)) with (A + 1) by (unfold A; lia).
  replace (Z.of_nat h - 1 - (a + 1)) with (A - 1) by (unfold A; lia).
  replace (Z.of_nat h - 1 - (a + 0)) with A by (unfold A; lia).
  replace (Z.of_nat w - 1 - (b + -1)) with (B + 1) by (unfold B; lia).
  replace (Z.of_nat w - 1 - (b + 1)) with (B - 1) by (unfold B; lia).
  replace (Z.of_nat w - 1 - (b + 0)) with B by (unfold B; lia).
  assert (Ha : 1 <= a) by (unfold a; lia).
  assert (Hb : 1 <= b) by (unfold b; lia).
  assert (HA : 1 <= A) by (unfold A, a; lia).
  assert (HB : 1 <= B) by (unfold B, b; lia).
  clearbody a b A B. clear - Ha Hb HA HB HT.
  assert (Hu : 1 <= a * A) by nia.
  assert (Hv : 1 <= b * B) by nia.
  set (u := a * A) in *. set (v := b * B) in *.
  replace ((a + -1) * (A + 1) * ((b + 0) * B)) with ((u + a - A - 1) * v)
    by (unfold u, v; ring).
  replace ((a + 0) * A * ((b + -1) * (B + 1))) with (u * (v + b - B - 1))
    by (unfold u, v; ring).
  replace ((a + 1) * (A - 1) * ((b + 0) * B)) with ((u - a + A - 1) * v)
    by (unfold u, v; ring).
  replace ((a + 0) * A * ((b + 1) * (B - 1))) with (u * (v - b + B - 1))
    by (unfold u, v; ring).
  clearbody u v. nia.
Qed.

(** ** One pass over distinct interior piles *)

Section Pass.

Variables (h w : nat) (d : list Z) (T : Z) (ps : list nat).
Hypothesis HT : 4 <= T.
Hypothesis Hlen : length d = (h * w)%nat.
Hypothesis Fd : Forall (fun v => 0 <= v) d.
Hypothesis Htot : wsum (fun _ => 1) d < 2 ^ 63.
Hypothesis Fint : Forall (interior h w) ps.
Hypothesis ND : NoDup ps.
Hypothesis Hu : forall p, p ∈ ps -> T <= np.cell d p.

Lemma pile_facts p :
  p ∈ ps ->
  int64.floor_divide (np.cell d p) T = quot T d p /\
  int64.remainder (np.cell d p) T = rest T d p /\
  1 <= quot T d p /\ 0 <= rest T d p /\
  np.cell d p = T * quot T d p + rest T d p.
Proof.
  intros Hp. pose proof (Hu p Hp) as Hc.
  pose proof (cell_le_total d p Fd) as Hle.
  destruct (floor_divide_exact (np.cell d p) T ltac:(lia) ltac:(lia))
    as (E1 & E2 & Hq & Hm & Hd).
  unfold quot, rest. repeat split; try assumption; try lia;
    try (apply Z.div_le_lower_bound; lia).
Qed.

Lemma pile_in_range dx dy :
  -1 <= dx <= 1 -> -1 <= dy <= 1 ->
  forall d' : list Z, length d' = length d ->
  Forall (fun p => (moved w dx dy p < length d')%nat) ps.
Proof.
  intros Hdx Hdy d' L. rewrite Forall_forall in Fint.
  apply Forall_forall. intros p Hp.
  rewrite L, Hlen. apply (moved_interior h w dx dy p Hdx Hdy (Fint p Hp)).
Qed.

Lemma redistributed_piles :
  redistributed T d (moved w 0 0 <$> ps) (moved w (-1) 0 <$> ps)
                (moved w 0 (-1) <$> ps) (moved w 1 0 <$> ps)
                (moved w 0 1 <$> ps) =
  adds (adds (adds (adds (puts d (moved w 0 0 <$> ps) (rest T d <$> ps))
                         (moved w (-1) 0 <$> ps) (quot T d <$> ps))
                   (moved w 0 (-1) <$> ps) (quot T d <$> ps))
             (moved w 1 0 <$> ps) (quot T d <$> ps))
       (moved w 0 1 <$> ps) (quot T d <$> ps).
Proof.
  assert (Hi : (fun v => int64.floor_divide v T)
                 <$> (np.cell d <$> (moved w 0 0 <$> ps)) = quot T d <$> ps).
  { rewrite <- !list_fmap_compose. apply fmap_ext_elem. intros p Hp.
    simpl. rewrite moved_0. apply (pile_facts p Hp). }
  assert (Hn : (fun v => int64.remainder v T)
                 <$> (np.cell d <$> (moved w 0 0 <$> ps)) = rest T d <$> ps).
  { rewrite <- !list_fmap_compose. apply fmap_ext_elem. intros p Hp.
    simpl. rewrite moved_0. apply (pile_facts p Hp). }
  unfold redistributed. cbv zeta. now rewrite Hi, Hn.
Qed.

Lemma quot_sum_bounds :
  0 <= lsum (quot T d) ps /\
  lsum (fun p => rest T d p - np.cell d p) ps + 4 * lsum (quot T d) ps <= 0.
Proof.
  split.
  - apply lsum_nonneg. intros p Hp.
    pose proof (pile_facts p Hp). lia.
  - rewrite <- lsum_scale, <- lsum_plus. apply lsum_nonpos.
    intros p Hp. destruct (pile_facts p Hp) as (_ & _ & Hq & Hr & Hc).
    rewrite Hc at 1. nia.
Qed.

(** The cells after lines 46-56 of [topple]: no cell is negative, and a
    weighted sum changes by what each pile gives up and what each of its
    neighbours receives. *)
Lemma redistributed_wsum :
  let d5 :=
    redistributed T d (moved w 0 0 <$> ps) (moved w (-1) 0 <$> ps)
                  (moved w 0 (-1) <$> ps) (moved w 1 0 <$> ps)
                  (moved w 0 1 <$> ps) in
  Forall (fun v => 0 <= v) d5 /\
  length d5 = length d /\
  forall wt,
    wsum wt d5 =
    wsum wt d
    + lsum (fun p =>
              wt p * (rest T d p - np.cell d p)
              + quot T d p
                * (wt (moved w (-1) 0 p) + wt (moved w 0 (-1) p)
                   + wt (moved w 1 0 p) + wt (moved w 0 1 p))) ps.
Proof.
  cbv zeta. rewrite redistributed_piles.
  destruct quot_sum_bounds as [HS HR].
  set (S := lsum (quot T d) ps) in *.
  set (R := lsum (fun p => rest T d p - np.cell d p) ps) in *.
  assert (Hq : forall p, p ∈ ps -> 0 <= quot T d p).
  { intros p Hp. pose proof (pile_facts p Hp). lia. }
  (* the piles are reset *)
  set (d1 := puts d (moved w 0 0 <$> ps) (rest T d <$> ps)).
  assert (L1 : length d1 = length d) by apply length_puts.
  assert (F1 : Forall (fun v => 0 <= v) d1).
  { apply puts_Forall; [exact Fd|]. apply Forall_fmap, Forall_forall.
    intros p Hp. simpl. apply list_elem_of_In in Hp.
    pose proof (pile_facts p Hp). lia. }
  assert (W1 : forall wt, wsum wt d1 =
             wsum wt d + lsum (fun p => wt p * (rest T d p - np.cell d p)) ps).
  { intros wt. unfold d1. rewrite puts_fmap_wsum.
    - f_equal. apply lsum_ext. intros p _. now rewrite moved_0.
    - apply (NoDup_moved h w); [lia|lia|exact Fint|exact ND].
    - apply pile_in_range; [lia|lia|reflexivity]. }
  assert (T1 : wsum (fun _ => 1) d1 = wsum (fun _ => 1) d + R).
  { rewrite W1. f_equal. apply lsum_ext. intros; lia. }
  (* the four neighbours of each pile receive its quotient *)
  assert (Step : forall dx dy dk,
             -1 <= dx <= 1 -> -1 <= dy <= 1 ->
             length dk = length d -> Forall (fun v => 0 <= v) dk ->
             wsum (fun _ => 1) dk + S < 2 ^ 63 ->
             let dk' := adds dk (moved w dx dy <$> ps) (quot T d <$> ps) in
             length dk' = length d /\ Forall (fun v => 0 <= v) dk' /\
             (forall wt, wsum wt dk' =
                wsum wt dk + lsum (fun p => wt (moved w dx dy p) * quot T d p) ps)
             /\ wsum (fun _ => 1) dk' = wsum (fun _ => 1) dk + S).
  { intros dx dy dk Hdx Hdy Lk Fk Bk dk'.
    assert (A : forall wt,
               wsum wt dk' =
                 wsum wt dk
                 + lsum (fun p => wt (moved w dx dy p) * quot T d p) ps /\
               Forall (fun v => 0 <= v) dk' /\ length dk' = length dk).
    { intros wt. apply adds_fmap_wsum.
      - apply (NoDup_moved h w); assumption.
      - apply pile_in_range; assumption.
      - exact Fk.
      - exact Hq.
      - exact Bk. }
    split; [rewrite <- Lk; apply (A (fun _ => 0))|].
    split; [apply (A (fun _ => 0))|].
    split; [intros wt; apply (A wt)|].
    rewrite (proj1 (A (fun _ => 1))). f_equal.
    apply lsum_ext. intros; lia. }
  destruct (Step (-1) 0 d1 ltac:(lia) ltac:(lia) L1 F1 ltac:(lia))
    as (L2 & F2 & W2 & T2).
  set (d2 := adds d1 _ _) in *.
  destruct (Step 0 (-1) d2 ltac:(lia) ltac:(lia) L2 F2 ltac:(lia))
    as (L3 & F3 & W3 & T3).
  set (d3 := adds d2 _ _) in *.
  destruct (Step 1 0 d3 ltac:(lia) ltac:(lia) L3 F3 ltac:(lia))
    as (L4 & F4 & W4 & T4).
  set (d4 := adds d3 _ _) in *.
  destruct (Step 0 1 d4 ltac:(lia) ltac:(lia) L4 F4 ltac:(lia))
    as (L5 & F5 & W5 & T5).
  set (d5 := adds d4 _ _) in *.
  split; [exact F5|]. split; [exact L5|].
  intros wt. rewrite W5, W4, W3, W2, W1.
  rewrite <- !Z.add_assoc. f_equal.
  rewrite <- !lsum_plus. apply lsum_ext. intros p _. ring.
Qed.

End Pass.

Lemma clear_border_Forall h w d :
  Forall (fun v => 0 <= v) d -> Forall (fun v => 0 <= v) (clear_border h w d).
Proof.
  intros F. apply Forall_lookup. intros i x E. unfold clear_border in E.
  rewrite list_lookup_imap in E. destruct (d !! i) as [y|] eqn:Ed;
    simpl in E; inversion E; subst.
  destruct on_border; [lia|].
  rewrite Forall_lookup in F. apply (F i y Ed).
Qed.

(** ** A block of piles toppled in one call *)

(** [topple] on distinct unstable interior cells of a grid of the data
    model: all accesses are in range and the call returns. *)
Lemma block_result g T ps :
  sandpile_grid g -> 4 <= T ->
  Forall (interior (np.shape0 g) (np.shape1 g)) ps ->
  NoDup ps ->
  (forall p, p ∈ ps -> T <= np.cell (np.data g) p) ->
  let h := np.shape0 g in
  let w := np.shape1 g in
  let d := np.data g in
  let d5 := redistributed T d (moved w 0 0 <$> ps) (moved w (-1) 0 <$> ps)
                          (moved w 0 (-1) <$> ps) (moved w 1 0 <$> ps)
                          (moved w 0 1 <$> ps) in
  topple T (np.coord g <$> ps) g =
    (Ok tt, np.mk h w (clear_border h w d5)) /\
  (forall p, p ∈ ps ->
     1 <= quot T d p /\ 0 <= rest T d p /\
     np.cell d p = T * quot T d p + rest T d p) /\
  Forall (fun v => 0 <= v) d5 /\
  length d5 = length d /\
  forall wt,
    wsum wt d5 =
    wsum wt d
    + lsum (fun p =>
              wt p * (rest T d p - np.cell d p)
              + quot T d p
                * (wt (moved w (-1) 0 p) + wt (moved w 0 (-1) p)
                   + wt (moved w 1 0 p) + wt (moved w 0 1 p))) ps.
Proof.
  intros Hg HT Fint ND Hu.
  destruct Hg as (Hwf & Hh & Hw & Fd & Hb & Htot).
  destruct g as [h w d]. unfold np.wf, total in *.
  cbn [np.shape0 np.shape1 np.data] in *. cbv zeta.
  set (g := np.mk h w d).
  pose proof (positions_moved g ps 0 0 ltac:(lia) ltac:(lia) Fint) as E0.
  rewrite shift_0 in E0.
  pose proof (positions_moved g ps (-1) 0 ltac:(lia) ltac:(lia) Fint) as E1.
  pose proof (positions_moved g ps 0 (-1) ltac:(lia) ltac:(lia) Fint) as E2.
  pose proof (positions_moved g ps 1 0 ltac:(lia) ltac:(lia) Fint) as E3.
  pose proof (positions_moved g ps 0 1 ltac:(lia) ltac:(lia) Fint) as E4.
  pose proof (redistribute_Ok T _ g _ _ _ _ _ E0 E1 E2 E3 E4) as R.
  destruct (redistributed_wsum h w d T ps HT Hwf Fd Htot Fint ND Hu)
    as (F5 & L5 & W5).
  cbn [np.shape1 np.data g] in R, F5, L5, W5.
  set (d5 := redistributed T d _ _ _ _ _) in *.
  pose proof (border_case_Ok (reshape g d5) Hh Hw) as C.
  cbn [reshape np.shape0 np.shape1 np.data g] in C.
  split; [unfold topple; rewrite (bind_Ok _ _ _ _ _ R); exact C|].
  split; [|split; [exact F5|split; [exact L5|exact W5]]].
  intros p Hp. apply (pile_facts h w d T ps HT Hwf Fd Htot Hu p Hp).
Qed.

(** Such a call keeps the grid in the data model and creates no grain;
    when a pile is toppled the potential drops. *)
Lemma block_progress g T ps :
  sandpile_grid g -> 4 <= T ->
  Forall (interior (np.shape0 g) (np.shape1 g)) ps ->
  NoDup ps ->
  (forall p, p ∈ ps -> T <= np.cell (np.data g) p) ->
  exists g',
    topple T (np.coord g <$> ps) g = (Ok tt, g') /\
    sandpile_grid g' /\
    np.shape0 g' = np.shape0 g /\ np.shape1 g' = np.shape1 g /\
    potential g' <= potential g /\
    (ps <> [] -> potential g' + 1 <= potential g) /\
    total g' <= total g.
Proof.
  intros Hg HT Fint ND Hu.
  destruct (block_result g T ps Hg HT Fint ND Hu) as (E & Hq & F5 & L5 & W5).
  destruct Hg as (Hwf & Hh & Hw & Fd & Hb & Htot).
  destruct g as [h w d]. unfold np.wf, total, potential in *.
  cbn [np.shape0 np.shape1 np.data] in *.
  set (d5 := redistributed T d _ _ _ _ _) in *.
  exists (np.mk h w (clear_border h w d5)).
  split; [exact E|].
  assert (Tle : wsum (fun _ => 1) d5 <= wsum (fun _ => 1) d).
  { rewrite W5.
    assert (lsum (fun p => 1 * (rest T d p - np.cell d p)
                           + quot T d p * (1 + 1 + 1 + 1)) ps <= 0); [|lia].
    apply lsum_nonpos. intros p Hp. destruct (Hq p Hp) as (H1 & H2 & H3).
    rewrite H3 at 1. nia. }
  assert (Tb : wsum (fun _ => 1) (clear_border h w d5)
               <= wsum (fun _ => 1) d5).
  { pose proof (total_clear_border (np.mk h w d5)) as E'.
    unfold total, border_total in E'.
    cbn [reshape np.shape0 np.shape1 np.data] in E'.
    assert (0 <= wsum (fun p => if on_border h w p then 1 else 0) d5).
    { apply wsum_from_nonneg; [|exact F5].
      intros p _. destruct on_border; lia. }
    lia. }
  assert (Hs : lsum (fun p =>
                 weight h w p * (rest T d p - np.cell d p)
                 + quot T d p
                   * (weight h w (moved w (-1) 0 p)
                      + weight h w (moved w 0 (-1) p)
                      + weight h w (moved w 1 0 p)
                      + weight h w (moved w 0 1 p))) ps
               <= - lsum (quot T d) ps).
  { replace (- lsum (quot T d) ps) with (-1 * lsum (quot T d) ps) by lia.
    rewrite <- lsum_scale.
    apply lsum_le. intros p Hp. destruct (Hq p Hp) as (H1 & H2 & H3).
    rewrite Forall_forall in Fint.
    destruct (weight_superharmonic h w p T
                (Fint p ltac:(now apply list_elem_of_In)) HT) as [W0 Ws].
    rewrite H3 at 1.
    set (s := weight h w (moved w (-1) 0 p)
              + weight h w (moved w 0 (-1) p)
              + weight h w (moved w 1 0 p)
              + weight h w (moved w 0 1 p)) in *.
    set (x := weight h w p) in *. set (y := quot T d p) in *.
    set (z := rest T d p) in *. clearbody s x y z.
    replace (x * (z - (T * y + z)) + y * s) with (y * (s - T * x)) by ring.
    nia. }
  assert (Hq0 : 0 <= lsum (quot T d) ps).
  { apply lsum_nonneg. intros p Hp. pose proof (Hq p Hp). lia. }
  cbn [np.shape0 np.shape1 np.data].
  rewrite (wsum_clear_border (weight h w)) by (apply weight_border).
  rewrite (W5 (weight h w)).
  split; [|split; [reflexivity|split; [reflexivity|]]].
  - unfold sandpile_grid, np.wf, total, border_is_zero.
    cbn [np.shape0 np.shape1 np.data].
    rewrite length_clear_border, L5. split; [exact Hwf|].
    split; [exact Hh|]. split; [exact Hw|].
    split; [now apply clear_border_Forall|].
    split; [|lia].
    intros p Hp. rewrite clear_border_lookup. now rewrite Hp.
  - split; [lia|]. split; [|lia].
    intros Hne.
    assert (1 <= lsum (quot T d) ps); [|lia].
    destruct ps as [|a ps']; [contradiction|].
    assert (Ha : a ∈ a :: ps') by left.
    pose proof (lsum_elem_le (quot T d) (a :: ps') a
                  (fun p Hp => ltac:(pose proof (Hq p Hp); lia)) Ha).
    pose proof (Hq a Ha). lia.
Qed.

(** ** A pass of the loop *)

Lemma unstable_cells g T :
  sandpile_grid g -> 0 < T ->
  let ps := np.find_ge T 0 (np.data g) in
  Forall (interior (np.shape0 g) (np.shape1 g)) ps /\
  NoDup ps /\
  forall p, p ∈ ps -> T <= np.cell (np.data g) p.
Proof.
  intros Hg HT. cbv zeta. split; [|split].
  - apply Forall_forall. intros p Hp. apply list_elem_of_In in Hp.
    apply (unstable_interior g T p Hg HT Hp).
  - apply NoDup_find_ge.
  - intros p Hp. apply elem_of_find_ge in Hp as (_ & _ & Hc).
    now rewrite Nat.sub_0_r in Hc.
Qed.

(** On a grid of the data model the unstable cells are interior cells,
    all accesses of [topple] are in range, and the pass returns. *)
Lemma pass_result g T :
  sandpile_grid g -> 4 <= T ->
  let h := np.shape0 g in
  let w := np.shape1 g in
  let d := np.data g in
  let ps := np.find_ge T 0 d in
  let d5 := redistributed T d (moved w 0 0 <$> ps) (moved w (-1) 0 <$> ps)
                          (moved w 0 (-1) <$> ps) (moved w 1 0 <$> ps)
                          (moved w 0 1 <$> ps) in
  topple T (np.where_ge g T) g = (Ok tt, np.mk h w (clear_border h w d5)) /\
  Forall (interior h w) ps /\
  (forall p, p ∈ ps ->
     1 <= quot T d p /\ 0 <= rest T d p /\
     np.cell d p = T * quot T d p + rest T d p) /\
  Forall (fun v => 0 <= v) d5 /\
  length d5 = length d /\
  forall wt,
    wsum wt d5 =
    wsum wt d
    + lsum (fun p =>
              wt p * (rest T d p - np.cell d p)
              + quot T d p
                * (wt (moved w (-1) 0 p) + wt (moved w 0 (-1) p)
                   + wt (moved w 1 0 p) + wt (moved w 0 1 p))) ps.
Proof.
  intros Hg HT. cbv zeta.
  destruct (unstable_cells g T Hg ltac:(lia)) as (Fint & ND & Hu).
  destruct (block_result g T _ Hg HT Fint ND Hu) as (E & Hq & F5 & L5 & W5).
  split; [exact E|]. split; [exact Fint|]. split; [exact Hq|].
  split; [exact F5|]. split; [exact L5|exact W5].
Qed.

(** A pass on an unstable grid keeps the grid in the data model, loses no
    fewer than one unit of potential and creates no grain. *)
Lemma pass_progress g T :
  sandpile_grid g -> 4 <= T ->
  np.find_ge T 0 (np.data g) <> [] ->
  exists g',
    topple T (np.where_ge g T) g = (Ok tt, g') /\
    sandpile_grid g' /\
    potential g' + 1 <= potential g /\
    total g' <= total g.
Proof.
  intros Hg HT Hne.
  destruct (unstable_cells g T Hg ltac:(lia)) as (Fint & ND & Hu).
  destruct (block_progress g T _ Hg HT Fint ND Hu)
    as (g' & E & Hg' & _ & _ & _ & Hp & Ht).
  exists g'. split; [exact E|]. split; [exact Hg'|].
  split; [exact (Hp Hne)|exact Ht].
Qed.

Lemma potential_nonneg g : sandpile_grid g -> 0 <= potential g.
Proof.
  intros (Hwf & _ & _ & Fd & _). unfold potential.
  apply wsum_from_nonneg; [|exact Fd].
  intros p Hp. apply weight_nonneg. unfold np.wf in Hwf. lia.
Qed.

Lemma grid_has_max g : sandpile_grid g -> exists m, np.max g = Ok m.
Proof.
  intros (Hwf & Hh & Hw & _). apply max_total. unfold np.wf in Hwf.
  intros E. rewrite E in Hwf. simpl in Hwf. nia.
Qed.

(** ** The loop of [run] terminates *)

Lemma relax_terminates T :
  4 <= T ->
  forall n g,
    sandpile_grid g -> potential g < Z.of_nat n ->
    forall fuel, (n <= fuel)%nat ->
    exists k g',
      relax T fuel g = (Ok k, g') /\ stable T g' /\
      sandpile_grid g' /\ total g' <= total g.
Proof.
  intros HT. induction n as [|n IH]; intros g Hg Hpot fuel Hfuel.
  { pose proof (potential_nonneg g Hg). lia. }
  destruct (grid_has_max g Hg) as [m Em].
  destruct (Z.lt_ge_cases m T) as [Hm|Hm].
  - exists O, g. rewrite relax_stable by (now exists m).
    split; [reflexivity|]. split; [now exists m|]. split; [exact Hg|lia].
  - destruct fuel as [|fuel]; [lia|].
    destruct (pass_progress g T Hg HT (unstable_where g T m Em Hm))
      as (g1 & E1 & Hg1 & Hp1 & Ht1).
    destruct (IH g1 Hg1 ltac:(lia) fuel ltac:(lia))
      as (k & g' & E2 & Hs & Hg' & Ht').
    exists (S k), g'. rewrite relax_unfold, Em.
    destruct (Z.leb_spec T m); [|lia].
    rewrite E1, E2. split; [reflexivity|].
    split; [exact Hs|]. split; [exact Hg'|lia].
Qed.

(** ** Sums of grids *)

Lemma zip_add_exact Ba Bb : forall da db,
  Forall (fun v => 0 <= v <= Ba) da -> Forall (fun v => 0 <= v <= Bb) db ->
  Ba + Bb < 2 ^ 63 ->
  zip_with int64.add da db = zip_with Z.add da db.
Proof.
  induction da as [|x da IH]; intros [|y db] Fa Fb HB; simpl;
    try reflexivity.
  inversion Fa; inversion Fb; subst. f_equal.
  - unfold int64.add. apply wrap_in_range. unfold int64.in_range. lia.
  - now apply IH.
Qed.

Lemma wsum_from_zip_add wt : forall da db k,
  length da = length db ->
  wsum_from wt k (zip_with Z.add da db) =
  wsum_from wt k da + wsum_from wt k db.
Proof.
  induction da as [|x da IH]; intros [|y db] k L; simpl in *;
    try discriminate; [reflexivity|].
  rewrite IH by lia. lia.
Qed.

Lemma Forall_le_total d :
  Forall (fun v => 0 <= v) d ->
  Forall (fun v => 0 <= v <= wsum (fun _ => 1) d) d.
Proof.
  intros F. apply Forall_lookup. intros i x E.
  split; [rewrite Forall_lookup in F; apply (F i x E)|].
  rewrite <- (cell_lookup d i x E). now apply cell_le_total.
Qed.

Lemma cell_zip_add da db p :
  length da = length db ->
  np.cell (zip_with Z.add da db) p = np.cell da p + np.cell db p.
Proof.
  intros L. unfold np.cell. rewrite lookup_zip_with.
  destruct (da !! p) as [x|] eqn:Ea; simpl.
  - destruct (lookup_lt_is_Some_2 db p) as [y Eb].
    { rewrite <- L. eapply lookup_lt_Some, Ea. }
    now rewrite Eb.
  - rewrite lookup_ge_None_2; [reflexivity|].
    rewrite <- L. now apply lookup_ge_None_1.
Qed.

Lemma add_sandpile_grids a b :
  sandpile_grid a -> sandpile_grid b ->
  np.shape0 a = np.shape0 b -> np.shape1 a = np.shape1 b ->
  total a + total b < 2 ^ 63 ->
  exists s, np.add a b = Ok s /\ sandpile_grid s /\
            total s = total a + total b.
Proof.
  intros (Wa & Ha & Wwa & Fa & Ba & Ta) (Wb & Hb & Wwb & Fb & Bb & Tb)
         H0 H1 Hsum.
  rewrite (add_same_shape a b H0 H1). eexists. split; [reflexivity|].
  unfold np.wf, total in *.
  assert (L : length (np.data a) = length (np.data b))
    by (rewrite Wa, Wb, H0, H1; reflexivity).
  rewrite (zip_add_exact _ _ _ _ (Forall_le_total _ Fa)
             (Forall_le_total _ Fb) Hsum).
  unfold sandpile_grid, np.wf, total, border_is_zero.
  cbn [np.shape0 np.shape1 np.data].
  assert (Ts : wsum (fun _ => 1) (zip_with Z.add (np.data a) (np.data b)) =
               wsum (fun _ => 1) (np.data a) + wsum (fun _ => 1) (np.data b))
    by (apply wsum_from_zip_add; exact L).
  split; [|exact Ts].
  split; [rewrite length_zip_with; lia|].
  split; [exact Ha|]. split; [exact Wwa|].
  split; [|split; [|lia]].
  - apply Forall_lookup. intros i x E.
    apply lookup_zip_with_Some in E as (u & v & -> & Eu & Ev).
    rewrite Forall_lookup in Fa, Fb.
    pose proof (Fa i u Eu). pose proof (Fb i v Ev). lia.
  - intros p Hp. rewrite cell_zip_add by exact L.
    rewrite (Ba p Hp). rewrite H0, H1 in Hp. rewrite (Bb p Hp). lia.
Qed.

Lemma relax_fuel_mono T : forall fuel g k g',
  relax T fuel g = (Ok k, g') ->
  forall fuel', (fuel <= fuel')%nat -> relax T fuel' g = (Ok k, g').
Proof.
  induction fuel as [|fuel IH]; intros g k g' E fuel' Hle;
    rewrite relax_unfold in E; rewrite relax_unfold;
    destruct (np.max g) as [m| |]; try discriminate;
    destruct (T <=? m); try discriminate; try exact E.
  destruct fuel' as [|fuel']; [lia|].
  destruct (topple T (np.where_ge g T) g) as [[[]| |] g1]; try discriminate.
  destruct (relax T fuel g1) as [[n| |] g2] eqn:E2; try discriminate.
  now rewrite (IH _ _ _ E2 fuel' ltac:(lia)).
Qed.

(** ** The pass, cell by cell *)

(** C5, as stated, fails.  Two neighbouring unstable cells, holding 4 and
    7 grains with threshold 4: the pass of [run] takes both quotients from
    the snapshot, leaving 1 and 4 grains, and the loop needs a second
    pass; toppled one at a time, the second cell has already received a
    grain from the first when its turn comes, and one pass is enough. *)
Lemma pass_is_not_one_at_a_time :
  let g := np.mk 4 4 [0;0;0;0; 0;4;7;0; 0;0;0;0; 0;0;0;0] in
  np.where_ge g 4 = [(1, 1); (1, 2)] /\
  topple 4 (np.where_ge g 4) g =
    (Ok tt, np.mk 4 4 [0;0;0;0; 0;1;4;0; 0;1;1;0; 0;0;0;0]) /\
  topple_one_at_a_time 4 (np.where_ge g 4) g =
    (Ok tt, np.mk 4 4 [0;0;0;0; 0;2;0;0; 0;1;2;0; 0;0;0;0]) /\
  topple 4 (np.where_ge g 4) g <> topple_one_at_a_time 4 (np.where_ge g 4) g /\
  relax 4 5 g = (Ok 2%nat, np.mk 4 4 [0;0;0;0; 0;2;0;0; 0;1;2;0; 0;0;0;0]) /\
  relax_one_at_a_time 4 5 g =
    (Ok 1%nat, np.mk 4 4 [0;0;0;0; 0;2;0;0; 0;1;2;0; 0;0;0;0]).
Proof.
  cbv zeta.
  assert (E1 : topple 4 [(1, 1); (1, 2)]
                 (np.mk 4 4 [0;0;0;0; 0;4;7;0; 0;0;0;0; 0;0;0;0]) =
               (Ok tt, np.mk 4 4 [0;0;0;0; 0;1;4;0; 0;1;1;0; 0;0;0;0]))
    by (vm_compute; reflexivity).
  assert (E2 : topple_one_at_a_time 4 [(1, 1); (1, 2)]
                 (np.mk 4 4 [0;0;0;0; 0;4;7;0; 0;0;0;0; 0;0;0;0]) =
               (Ok tt, np.mk 4 4 [0;0;0;0; 0;2;0;0; 0;1;2;0; 0;0;0;0]))
    by (vm_compute; reflexivity).
  change (np.where_ge _ 4) with [(1, 1); (1, 2)].
  rewrite E1, E2.
  split; [reflexivity|]. split; [reflexivity|]. split; [reflexivity|].
  split; [intros E; inversion E|].
  split; vm_compute; reflexivity.
Qed.

Lemma wsum_from_only k : forall d o,
  wsum_from (only k) o d =
  if (o <=? k)%nat then np.cell d (k - o) else 0.
Proof.
  induction d as [|x d IH]; intros o; simpl.
  - destruct (o <=? k)%nat; reflexivity.
  - rewrite IH. unfold only.
    destruct (Nat.eqb_spec o k) as [->|Hne].
    + rewrite Nat.leb_refl, Nat.sub_diag.
      destruct (Nat.leb_spec (S k) k); [lia|]. unfold np.cell. simpl. lia.
    + destruct (Nat.leb_spec o k), (Nat.leb_spec (S o) k); try lia.
      replace (k - o)%nat with (S (k - S o)) by lia.
      unfold np.cell. simpl. lia.
Qed.

Lemma wsum_only k d : wsum (only k) d = np.cell d k.
Proof. unfold wsum. rewrite wsum_from_only. simpl. now rewrite Nat.sub_0_r. Qed.

Lemma lsum_only_notin a f ps :
  a ∉ ps -> lsum (fun p => only a p * f p) ps = 0.
Proof.
  induction ps as [|b ps IH]; intros H; simpl; [reflexivity|].
  apply not_elem_of_cons in H as [Hne Hn]. rewrite (IH Hn).
  unfold only. destruct (Nat.eqb_spec b a); [congruence|lia].
Qed.

Lemma lsum_only_in a f ps :
  NoDup ps -> a ∈ ps -> lsum (fun p => only a p * f p) ps = f a.
Proof.
  induction ps as [|b ps IH]; intros ND H; [now apply elem_of_nil in H|].
  apply list.NoDup_cons in ND as [Hb ND]. simpl.
  destruct (Nat.eq_dec b a) as [->|Hne].
  - rewrite (lsum_only_notin a f ps Hb). unfold only.
    rewrite Nat.eqb_refl. lia.
  - apply elem_of_cons in H as [->|H]; [congruence|].
    rewrite (IH ND H). unfold only.
    destruct (Nat.eqb_spec b a); [congruence|lia].
Qed.

Lemma lsum_only_find_ge T d a f :
  0 < T ->
  lsum (fun p => only a p * f p) (np.find_ge T 0 d) =
  if T <=? np.cell d a then f a else 0.
Proof.
  intros HT. destruct (Z.leb_spec T (np.cell d a)) as [Hc|Hc].
  - apply lsum_only_in; [apply NoDup_find_ge|].
    apply elem_of_find_ge. rewrite Nat.sub_0_r.
    split; [lia|]. split; [|exact Hc].
    destruct (Nat.lt_ge_cases a (length d)) as [Hl|Hl]; [simpl; lia|].
    rewrite cell_beyond in Hc by exact Hl. lia.
  - apply lsum_only_notin. rewrite elem_of_find_ge, Nat.sub_0_r. lia.
Qed.

Lemma only_moved h w dx dy k p :
  -1 <= dx <= 1 -> -1 <= dy <= 1 ->
  interior h w p -> interior h w k ->
  only k (moved w dx dy p) = only (moved w (- dx) (- dy) k) p.
Proof.
  intros Hdx Hdy Hp Hk.
  pose proof (proj2 (moved_interior h w dx dy p Hdx Hdy Hp)).
  pose proof (proj2 (moved_interior h w (- dx) (- dy) k
                       ltac:(lia) ltac:(lia) Hk)).
  unfold only.
  destruct (Nat.eqb_spec (moved w dx dy p) k),
           (Nat.eqb_spec p (moved w (- dx) (- dy) k)); try reflexivity; lia.
Qed.

Lemma moved_item g i j dx dy :
  0 <= Z.of_nat i + dx -> 0 <= Z.of_nat j + dy ->
  np.cell (np.data g) (moved (np.shape1 g) dx dy (i * np.shape1 g + j)) =
  item g (Z.to_nat (Z.of_nat i + dx)) (Z.to_nat (Z.of_nat j + dy)).
Proof.
  intros Hi Hj. unfold item. now rewrite moved_position by assumption.
Qed.

(** The cells of the interior after lines 46-56 of a pass: what the cell
    keeps, plus what its four neighbours give. *)
Lemma pass_cell g T i j :
  sandpile_grid g -> 4 <= T ->
  (1 <= i)%nat -> (i + 2 <= np.shape0 g)%nat ->
  (1 <= j)%nat -> (j + 2 <= np.shape1 g)%nat ->
  let w := np.shape1 g in
  let d := np.data g in
  let ps := np.find_ge T 0 d in
  np.cell (redistributed T d (moved w 0 0 <$> ps) (moved w (-1) 0 <$> ps)
                         (moved w 0 (-1) <$> ps) (moved w 1 0 <$> ps)
                         (moved w 0 1 <$> ps)) (i * w + j) =
  kept T (item g i j)
  + given T (item g (i + 1) j) + given T (item g i (j + 1))
  + given T (item g (i - 1) j) + given T (item g i (j - 1)).
Proof.
  intros Hg HT Hi1 Hi2 Hj1 Hj2. cbv zeta.
  destruct (pass_result g T Hg HT) as (_ & Fint & Hq & _ & _ & W5).
  set (w := np.shape1 g) in *. set (d := np.data g) in *.
  set (ps := np.find_ge T 0 d) in *. set (k := (i * w + j)%nat).
  assert (Hk : interior (np.shape0 g) w k)
    by (exists i, j; split; [reflexivity|unfold inside; auto]).
  rewrite <- wsum_only, W5, wsum_only.
  rewrite (lsum_ext _ (fun p =>
             only k p * (rest T d p - np.cell d p)
             + (only (moved w 1 0 k) p * quot T d p
                + (only (moved w 0 1 k) p * quot T d p
                   + (only (moved w (-1) 0 k) p * quot T d p
                      + only (moved w 0 (-1) k) p * quot T d p))))).
  2:{ intros p Hp. rewrite Forall_forall in Fint.
      assert (Ip : interior (np.shape0 g) w p)
        by (apply Fint; now apply list_elem_of_In).
      rewrite (only_moved _ w (-1) 0 k p ltac:(lia) ltac:(lia) Ip Hk).
      rewrite (only_moved _ w 0 (-1) k p ltac:(lia) ltac:(lia) Ip Hk).
      rewrite (only_moved _ w 1 0 k p ltac:(lia) ltac:(lia) Ip Hk).
      rewrite (only_moved _ w 0 1 k p ltac:(lia) ltac:(lia) Ip Hk).
      change (- -1) with 1. change (- (1)) with (-1). change (- 0) with 0.
      ring. }
  rewrite !lsum_plus. unfold ps.
  rewrite !lsum_only_find_ge by lia.
  unfold k, w, d, quot, rest. rewrite !moved_item by lia.
  replace (Z.to_nat (Z.of_nat i + 1)) with (i + 1)%nat by lia.
  replace (Z.to_nat (Z.of_nat i + 0)) with i by lia.
  replace (Z.to_nat (Z.of_nat i + -1)) with (i - 1)%nat by lia.
  replace (Z.to_nat (Z.of_nat j + 1)) with (j + 1)%nat by lia.
  replace (Z.to_nat (Z.of_nat j + 0)) with j by lia.
  replace (Z.to_nat (Z.of_nat j + -1)) with (j - 1)%nat by lia.
  unfold kept, given. fold (item g i j).
  destruct (T <=? item g i j), (T <=? item g (i + 1) j),
    (T <=? item g i (j + 1)), (T <=? item g (i - 1) j),
    (T <=? item g i (j - 1)); lia.
Qed.

Lemma border_zero_check_sound a :
  border_zero_check a = true -> border_is_zero a.
Proof.
  intros H p Hp. destruct (Nat.lt_ge_cases p (length (np.data a))) as [Hl|Hl].
  - unfold border_zero_check in H. rewrite forallb_forall in H.
    specialize (H p). rewrite Hp in H. simpl in H.
    apply Z.eqb_eq, H, in_seq. lia.
  - now apply cell_beyond.
Qed.

(** Closed grids are shown to be grids of the data model by computing. *)
Ltac data_model_grid :=
  split; [reflexivity|];
  split; [simpl; lia|];
  split; [simpl; lia|];
  split; [repeat constructor; lia|];
  split; [apply border_zero_check_sound; reflexivity|reflexivity].

(** C5, amended: a pass of the loop takes the snapshot of the cells at or
    above the threshold and topples them in one call, all at once: every
    pile keeps the remainder and gives the quotient of the value it has in
    the snapshot.  So after the pass an interior cell holds what it keeps
    plus what its four neighbours give, and the border holds nothing.
    The loop makes such a pass as long as the maximum is at or above the
    threshold, and with enough fuel it returns a grid with no cell at or
    above it.  (Grids of the data model, threshold at least 4.) *)
Theorem relax_pass_simultaneous :
  forall T g,
    sandpile_grid g -> 4 <= T ->
    exists g',
      topple T (np.where_ge g T) g = (Ok tt, g') /\
      np.shape0 g' = np.shape0 g /\ np.shape1 g' = np.shape1 g /\
      (forall i j,
         (1 <= i)%nat -> (i + 2 <= np.shape0 g)%nat ->
         (1 <= j)%nat -> (j + 2 <= np.shape1 g)%nat ->
         item g' i j =
         kept T (item g i j)
         + given T (item g (i + 1) j) + given T (item g i (j + 1))
         + given T (item g (i - 1) j) + given T (item g i (j - 1))) /\
      border_is_zero g' /\
      (forall m fuel,
         np.max g = Ok m -> T <= m ->
         relax T (S fuel) g = count_pass (relax T fuel g')) /\
      exists N, forall fuel, (N <= fuel)%nat ->
        exists k g'', relax T fuel g = (Ok k, g'') /\ stable T g''.
Proof.
  intros T g Hg HT.
  destruct (pass_result g T Hg HT) as (E & _).
  eexists. split; [exact E|].
  split; [reflexivity|]. split; [reflexivity|].
  split; [|split; [|split]].
  - intros i j Hi1 Hi2 Hj1 Hj2. unfold item at 1.
    cbn [np.shape1 np.data]. rewrite clear_border_lookup.
    assert (B : on_border (np.shape0 g) (np.shape1 g)
                          (i * np.shape1 g + j) = false).
    { unfold on_border.
      destruct (divmod_position (np.shape1 g) i j ltac:(lia)) as [-> ->].
      destruct (Nat.eqb_spec i 0), (Nat.eqb_spec i (np.shape0 g - 1)),
        (Nat.eqb_spec j 0), (Nat.eqb_spec j (np.shape1 g - 1));
        try lia; reflexivity. }
    rewrite B. now apply pass_cell.
  - eapply topple_border_is_zero, E.
  - intros m fuel Em Hm. rewrite relax_unfold, Em.
    destruct (Z.leb_spec T m); [|lia]. rewrite E. unfold count_pass.
    destruct (relax T fuel _) as [[n| |] g2]; reflexivity.
  - pose proof (potential_nonneg g Hg) as Hp.
    exists (S (Z.to_nat (potential g))). intros fuel Hfuel.
    destruct (relax_terminates T HT (S (Z.to_nat (potential g))) g Hg
                ltac:(lia) fuel Hfuel) as (k & g'' & R & Hs & _).
    exists k, g''. split; assumption.
Qed.

Lemma relax_pass_simultaneous_witness :
  let g := np.mk 4 4 [0;0;0;0; 0;4;7;0; 0;0;0;0; 0;0;0;0] in
  exists g',
    topple 4 (np.where_ge g 4) g = (Ok tt, g') /\
    np.shape0 g' = np.shape0 g /\ np.shape1 g' = np.shape1 g /\
    (forall i j,
       (1 <= i)%nat -> (i + 2 <= np.shape0 g)%nat ->
       (1 <= j)%nat -> (j + 2 <= np.shape1 g)%nat ->
       item g' i j =
       kept 4 (item g i j)
       + given 4 (item g (i + 1) j) + given 4 (item g i (j + 1))
       + given 4 (item g (i - 1) j) + given 4 (item g i (j - 1))) /\
    border_is_zero g' /\
    (forall m fuel,
       np.max g = Ok m -> 4 <= m ->
       relax 4 (S fuel) g = count_pass (relax 4 fuel g')) /\
    exists N, forall fuel, (N <= fuel)%nat ->
      exists k g'', relax 4 fuel g = (Ok k, g'') /\ stable 4 g''.
Proof.
  apply (relax_pass_simultaneous 4
           (np.mk 4 4 [0;0;0;0; 0;4;7;0; 0;0;0;0; 0;0;0;0])); [|lia].
  data_model_grid.
Defined.

(** ** Firing counts: the least action principle *)

Section LeastAction.

Variables (h w : nat) (T : Z).
Hypothesis HT : 0 < T.

Lemma legal_supported f c :
  legal h w T f c ->
  (forall i j, 0 <= c i j) /\ (forall i j, ~ inside h w i j -> c i j = 0).
Proof.
  induction 1 as [c Hc|c u c' _ [IH1 IH2] Hu Hs _ Hc'].
  - split; intros i j; rewrite ?Hc; [lia|reflexivity].
  - split.
    + intros i j. rewrite Hc'. specialize (IH1 i j). specialize (Hu i j). lia.
    + intros i j Hn. rewrite Hc', (IH2 i j Hn), (Hs i j Hn). reflexivity.
Qed.

Lemma classic_inside i j : inside h w i j \/ ~ inside h w i j.
Proof. unfold inside. lia. Qed.

(** Counts that leave every interior cell below [T] bound every legal
    count. *)
Lemma least_action f c s :
  legal h w T f c ->
  (forall i j, 0 <= s i j) ->
  (forall i j, inside h w i j -> fired T f s i j < T) ->
  forall i j, c i j <= s i j.
Proof.
  intros L Hs Hst.
  induction L as [c Hc|c u c' _ IH Hu Hsup Hleg Hc'].
  - intros i j. rewrite Hc. apply Hs.
  - intros i j. rewrite Hc'.
    destruct (Z.eq_dec (u i j) 0) as [E|Hne]; [rewrite E, Z.add_0_r; apply IH|].
    assert (Hpos : 0 < u i j) by (specialize (Hu i j); lia).
    assert (Hin : inside h w i j).
    { destruct (classic_inside i j) as [Hin|Hn]; [exact Hin|].
      rewrite (Hsup i j Hn) in Hpos. lia. }
    pose proof (Hleg i j Hin Hpos) as Hl.
    pose proof (Hst i j Hin) as Hlt.
    unfold fired, lap in Hl, Hlt.
    pose proof (IH (i + 1)%nat j). pose proof (IH i (j + 1)%nat).
    pose proof (IH (i - 1)%nat j). pose proof (IH i (j - 1)%nat).
    pose proof (IH i j).
    destruct (Z.le_gt_cases (c i j + u i j) (s i j)) as [Hok|Hbad];
      [exact Hok|exfalso].
    assert (T * 1 <= T * (c i j + u i j - s i j))
      by (apply Z.mul_le_mono_nonneg_l; lia).
    lia.
Qed.

(** Legality looks at the interior cells only, and more grains keep a
    count legal. *)
Lemma legal_mono f f' c :
  (forall i j, inside h w i j -> f i j <= f' i j) ->
  legal h w T f c -> legal h w T f' c.
Proof.
  intros Hle L. induction L as [c Hc|c u c' _ IH Hu Hsup Hleg Hc'].
  - now apply legal_zero.
  - apply (legal_step h w T f' c u c' IH Hu Hsup); [|exact Hc'].
    intros i j Hin Hpos. specialize (Hleg i j Hin Hpos).
    specialize (Hle i j Hin). unfold fired in *. lia.
Qed.

Lemma legal_ext f c c' :
  (forall i j, c' i j = c i j) -> legal h w T f c -> legal h w T f c'.
Proof.
  intros E L.
  apply (legal_step h w T f c (fun _ _ => 0) c' L).
  - intros; lia.
  - reflexivity.
  - intros; lia.
  - intros i j. rewrite E. lia.
Qed.

Lemma fired_fired f c c2 c3 i j :
  (forall i j, c3 i j = c i j + c2 i j) ->
  fired T (fired T f c) c2 i j = fired T f c3 i j.
Proof. intros E. unfold fired, lap. rewrite !E. lia. Qed.

(** Legal counts from the cells that legal counts left add up. *)
Lemma legal_app f c c2 :
  legal h w T f c -> legal h w T (fired T f c) c2 ->
  forall c3, (forall i j, c3 i j = c i j + c2 i j) -> legal h w T f c3.
Proof.
  intros L L2. induction L2 as [c2 Hc|c2 u c2' _ IH Hu Hsup Hleg Hc'];
    intros c3 E.
  - apply (legal_ext f c); [|exact L]. intros i j. rewrite E, Hc. lia.
  - apply (legal_step h w T f (fun i j => c i j + c2 i j) u c3).
    + apply IH. reflexivity.
    + exact Hu.
    + exact Hsup.
    + intros i j Hin Hpos. specialize (Hleg i j Hin Hpos).
      rewrite (fired_fired f c c2 (fun i j => c i j + c2 i j)) in Hleg;
        [exact Hleg|reflexivity].
    + intros i j. rewrite E, Hc'. lia.
Qed.

End LeastAction.

(** ** The loop of [run] fires legal counts *)

Lemma insideb_spec h w i j : insideb h w i j = true <-> inside h w i j.
Proof.
  unfold insideb, inside. rewrite !andb_true_iff, !Nat.leb_le. tauto.
Qed.

Lemma item_outside g i j :
  sandpile_grid g ->
  ~ inside (np.shape0 g) (np.shape1 g) i j ->
  (i < np.shape0 g)%nat -> (j < np.shape1 g)%nat ->
  item g i j = 0.
Proof.
  intros (_ & _ & _ & _ & Hb & _) Hn Hi Hj. unfold item. apply Hb.
  unfold on_border.
  destruct (divmod_position (np.shape1 g) i j Hj) as [-> ->].
  unfold inside in Hn.
  destruct (Nat.eqb_spec i 0), (Nat.eqb_spec i (np.shape0 g - 1)),
    (Nat.eqb_spec j 0), (Nat.eqb_spec j (np.shape1 g - 1));
    try reflexivity; lia.
Qed.

Lemma given_pass_counts g T i j :
  sandpile_grid g -> 0 < T ->
  (i < np.shape0 g)%nat -> (j < np.shape1 g)%nat ->
  given T (item g i j) = pass_counts T g i j.
Proof.
  intros Hg HT Hi Hj. unfold pass_counts.
  destruct (insideb _ _ i j) eqn:B; [reflexivity|].
  rewrite (item_outside g i j Hg); [|intros Hin|exact Hi|exact Hj].
  - unfold given. destruct (Z.leb_spec T 0); [lia|reflexivity].
  - apply insideb_spec in Hin. congruence.
Qed.

Lemma kept_given T v : 0 < T -> kept T v = v - T * given T v.
Proof.
  intros HT. unfold kept, given. destruct (T <=? v); [|lia].
  pose proof (Z.div_mod v T ltac:(lia)). lia.
Qed.

Lemma given_bounds T v : 0 < T -> 0 <= given T v /\ (0 <= v -> T * given T v <= v).
Proof.
  intros HT. unfold given. destruct (Z.leb_spec T v) as [Hv|Hv]; [|lia].
  split; [apply Z.div_pos; lia|].
  intros _. apply Z.mul_div_le. lia.
Qed.

(** A pass on the interior cells, as counts. *)
Lemma pass_fired g T :
  sandpile_grid g -> 4 <= T ->
  exists g',
    topple T (np.where_ge g T) g = (Ok tt, g') /\
    np.shape0 g' = np.shape0 g /\ np.shape1 g' = np.shape1 g /\
    forall i j, inside (np.shape0 g) (np.shape1 g) i j ->
                item g' i j = fired T (item g) (pass_counts T g) i j.
Proof.
  intros Hg HT.
  destruct (pass_result g T Hg HT) as (E & _).
  eexists. split; [exact E|]. split; [reflexivity|]. split; [reflexivity|].
  intros i j (Hi1 & Hi2 & Hj1 & Hj2). unfold item at 1.
  cbn [np.shape1 np.data]. rewrite clear_border_lookup.
  assert (B : on_border (np.shape0 g) (np.shape1 g)
                        (i * np.shape1 g + j) = false).
  { unfold on_border.
    destruct (divmod_position (np.shape1 g) i j ltac:(lia)) as [-> ->].
    destruct (Nat.eqb_spec i 0), (Nat.eqb_spec i (np.shape0 g - 1)),
      (Nat.eqb_spec j 0), (Nat.eqb_spec j (np.shape1 g - 1));
      try lia; reflexivity. }
  rewrite B, (pass_cell g T i j Hg HT Hi1 Hi2 Hj1 Hj2).
  rewrite !given_pass_counts by (try exact Hg; lia).
  rewrite kept_given by lia.
  rewrite (given_pass_counts g T i j Hg) by lia.
  unfold fired, lap. lia.
Qed.

Lemma pass_counts_legal g T :
  sandpile_grid g -> 0 < T ->
  legal (np.shape0 g) (np.shape1 g) T (item g) (pass_counts T g).
Proof.
  intros Hg HT.
  apply (legal_step _ _ T (item g) (fun _ _ => 0) (pass_counts T g)
           (pass_counts T g)).
  - now apply legal_zero.
  - intros i j. unfold pass_counts. destruct insideb; [|lia].
    apply (given_bounds T _ HT).
  - intros i j Hn. unfold pass_counts.
    destruct (insideb _ _ i j) eqn:B; [|reflexivity].
    apply insideb_spec in B. contradiction.
  - intros i j Hin Hpos. unfold fired, lap, pass_counts in *.
    destruct (insideb _ _ i j); [|lia].
    destruct Hg as (Hwf & _ & _ & Fd & _).
    assert (0 <= item g i j).
    { unfold item, np.cell.
      destruct (np.data g !! _) as [v|] eqn:E; simpl; [|lia].
      rewrite Forall_lookup in Fd. apply (Fd _ _ E). }
    pose proof (proj2 (given_bounds T (item g i j) HT) ltac:(lia)). lia.
  - intros i j. lia.
Qed.

Lemma relax_legal T :
  4 <= T ->
  forall fuel g k g',
    sandpile_grid g -> relax T fuel g = (Ok k, g') ->
    sandpile_grid g' /\
    np.shape0 g' = np.shape0 g /\ np.shape1 g' = np.shape1 g /\
    total g' <= total g /\
    exists c,
      legal (np.shape0 g) (np.shape1 g) T (item g) c /\
      forall i j, inside (np.shape0 g) (np.shape1 g) i j ->
                  item g' i j = fired T (item g) c i j.
Proof.
  intros HT. induction fuel as [|fuel IH]; intros g k g' Hg E;
    rewrite relax_unfold in E;
    destruct (np.max g) as [m| |] eqn:Em; try discriminate;
    destruct (Z.leb_spec T m) as [Hm|Hm]; try discriminate.
  - inversion E; subst. split; [exact Hg|]. repeat split; try lia.
    exists (fun _ _ => 0). split; [now apply legal_zero|].
    intros i j _. unfold fired, lap. lia.
  - destruct (pass_fired g T Hg HT) as (g1 & E1 & H0 & H1 & Hf).
    destruct (pass_progress g T Hg HT (unstable_where g T m Em Hm))
      as (g1' & E1' & Hg1 & _ & Ht1).
    rewrite E1 in E1'. inversion E1'; subst g1'. clear E1'.
    rewrite E1 in E.
    destruct (relax T fuel g1) as [[n| |] g2] eqn:E2; try discriminate.
    inversion E; subst. clear E.
    destruct (IH g1 n g' Hg1 E2) as (Hg' & H0' & H1' & Ht' & c1 & L1 & Hf1).
    rewrite H0, H1 in *.
    split; [exact Hg'|]. split; [exact H0'|]. split; [exact H1'|].
    split; [lia|].
    exists (fun i j => pass_counts T g i j + c1 i j). split.
    + apply (legal_app _ _ T (item g) (pass_counts T g) c1).
      * apply pass_counts_legal; [exact Hg|lia].
      * apply (legal_mono _ _ T (item g1)); [|exact L1].
        intros i j Hin. rewrite (Hf i j Hin). lia.
      * reflexivity.
    + intros i j Hin. rewrite (Hf1 i j Hin). unfold fired at 1.
      rewrite (Hf i j Hin). unfold fired, lap. lia.
  - inversion E; subst. split; [exact Hg|]. repeat split; try lia.
    exists (fun _ _ => 0). split; [now apply legal_zero|].
    intros i j _. unfold fired, lap. lia.
Qed.

Lemma foldl_max_ge : forall d v x,
  x = v \/ x ∈ d -> x <= foldl Z.max v d.
Proof.
  induction d as [|y d IH]; intros v x H; simpl.
  - destruct H as [->|H]; [lia|now apply elem_of_nil in H].
  - destruct H as [->|H].
    + etransitivity; [|apply IH; left; reflexivity]. lia.
    + apply elem_of_cons in H as [->|H].
      * etransitivity; [|apply IH; left; reflexivity]. lia.
      * apply IH. now right.
Qed.

Lemma stable_cell T g p : 0 < T -> stable T g -> np.cell (np.data g) p < T.
Proof.
  intros HT (m & E & Hm). unfold np.max in E.
  destruct (np.data g) as [|v d] eqn:Ed; [discriminate|].
  inversion E; subst. unfold np.cell.
  destruct ((v :: d) !! p) as [x|] eqn:Ex; simpl; [|lia].
  apply list_elem_of_lookup_2 in Ex.
  assert (x <= foldl Z.max v d); [|lia].
  apply foldl_max_ge. apply elem_of_cons in Ex. tauto.
Qed.

(** Two grids of the data model of one shape are equal when their
    interior cells are. *)
Lemma grid_ext g1 g2 :
  sandpile_grid g1 -> sandpile_grid g2 ->
  np.shape0 g1 = np.shape0 g2 -> np.shape1 g1 = np.shape1 g2 ->
  (forall i j, inside (np.shape0 g1) (np.shape1 g1) i j ->
               item g1 i j = item g2 i j) ->
  g1 = g2.
Proof.
  intros (W1 & _ & Hw & _ & B1 & _) (W2 & _ & _ & _ & B2 & _) H0 H1 Hi.
  destruct g1 as [h w d1], g2 as [h2 w2 d2].
  unfold np.wf, border_is_zero, item in *.
  cbn [np.shape0 np.shape1 np.data] in *. subst h2 w2. f_equal.
  apply list_eq. intros p.
  destruct (Nat.lt_ge_cases p (h * w)) as [Hp|Hp].
  - destruct (lookup_lt_is_Some_2 d1 p ltac:(lia)) as [x1 E1].
    destruct (lookup_lt_is_Some_2 d2 p ltac:(lia)) as [x2 E2].
    rewrite E1, E2. f_equal.
    rewrite <- (cell_lookup _ _ _ E1), <- (cell_lookup _ _ _ E2).
    destruct (on_border h w p) eqn:B.
    + now rewrite (B1 p B), (B2 p B).
    + destruct (interior_off_border h w p Hw Hp B) as (i & j & -> & Hin).
      apply Hi. exact Hin.
  - rewrite !lookup_ge_None_2 by lia. reflexivity.
Qed.

(** ** The Abelian property *)

Lemma item_nonneg g i j : sandpile_grid g -> 0 <= item g i j.
Proof.
  intros (_ & _ & _ & Fd & _). unfold item, np.cell.
  destruct (np.data g !! _) as [v|] eqn:E; simpl; [|lia].
  rewrite Forall_lookup in Fd. apply (Fd _ _ E).
Qed.

Lemma add_items a b s :
  sandpile_grid a -> sandpile_grid b ->
  np.shape0 a = np.shape0 b -> np.shape1 a = np.shape1 b ->
  total a + total b < 2 ^ 63 ->
  np.add a b = Ok s ->
  sandpile_grid s /\ total s = total a + total b /\
  np.shape0 s = np.shape0 a /\ np.shape1 s = np.shape1 a /\
  forall i j, item s i j = item a i j + item b i j.
Proof.
  intros Ga Gb H0 H1 Hsum E.
  destruct (add_sandpile_grids a b Ga Gb H0 H1 Hsum) as (s' & E' & Gs & Ts).
  rewrite E in E'. inversion E'; subst s'. clear E'.
  split; [exact Gs|]. split; [exact Ts|].
  rewrite (add_same_shape a b H0 H1) in E. inversion E; subst s. clear E.
  split; [reflexivity|]. split; [reflexivity|].
  intros i j. unfold item. cbn [np.shape1 np.data].
  destruct Ga as (Wa & _ & _ & Fa & _), Gb as (Wb & _ & _ & Fb & _).
  rewrite (zip_add_exact _ _ _ _ (Forall_le_total _ Fa)
             (Forall_le_total _ Fb) Hsum).
  rewrite cell_zip_add, H1; [reflexivity|].
  unfold np.wf in *. rewrite Wa, Wb, H0, H1. reflexivity.
Qed.

Lemma zip_add_comm : forall da db,
  zip_with int64.add da db = zip_with int64.add db da.
Proof.
  induction da as [|x da IH]; intros [|y db]; simpl; try reflexivity.
  unfold int64.add at 1 3. rewrite (Z.add_comm x y). f_equal. apply IH.
Qed.

Lemma add_comm_same_shape a b :
  np.shape0 a = np.shape0 b -> np.shape1 a = np.shape1 b ->
  np.add a b = np.add b a.
Proof.
  intros H0 H1.
  rewrite (add_same_shape a b H0 H1), (add_same_shape b a) by congruence.
  rewrite H0, H1, zip_add_comm. reflexivity.
Qed.

(** Relaxing the first operand before the sum does not change the
    relaxed sum. *)
Lemma relax_sum_left T a b :
  4 <= T ->
  sandpile_grid a -> sandpile_grid b ->
  np.shape0 a = np.shape0 b -> np.shape1 a = np.shape1 b ->
  total a + total b < 2 ^ 63 ->
  forall f1 f2 f3 k1 k2 k3 a' s s' r1 r2,
    relax T f1 a = (Ok k1, a') ->
    np.add a b = Ok s -> relax T f2 s = (Ok k2, r1) ->
    np.add a' b = Ok s' -> relax T f3 s' = (Ok k3, r2) ->
    r1 = r2.
Proof.
  intros HT Ga Gb H0 H1 Hsum f1 f2 f3 k1 k2 k3 a' s s' r1 r2 Ra As Rs As' Rs'.
  destruct (relax_legal T HT _ _ _ _ Ga Ra)
    as (Ga' & A0 & A1 & At & ca & La & Fa).
  destruct (add_items a b s Ga Gb H0 H1 Hsum As)
    as (Gs & _ & S0 & S1 & Is).
  destruct (add_items a' b s' Ga' Gb ltac:(congruence) ltac:(congruence)
              ltac:(lia) As') as (Gs' & _ & S0' & S1' & Is').
  destruct (relax_legal T HT _ _ _ _ Gs Rs)
    as (G1 & R0 & R1 & _ & c1 & L1 & F1).
  destruct (relax_legal T HT _ _ _ _ Gs' Rs')
    as (G2 & Q0 & Q1 & _ & c2 & L2 & F2).
  pose proof (relax_Ok_stable _ _ _ _ _ Rs) as St1.
  pose proof (relax_Ok_stable _ _ _ _ _ Rs') as St2.
  rewrite S0', S1', A0, A1 in *. rewrite S0, S1 in *.
  set (h := np.shape0 a) in *. set (w := np.shape1 a) in *.
  set (c := fun i j => ca i j + c2 i j).
  (* the counts of the second way are legal from the sum *)
  assert (Hs' : forall i j, inside h w i j ->
                  item s' i j = fired T (item s) ca i j).
  { intros i j Hin. rewrite Is', (Fa i j Hin). unfold fired.
    rewrite Is. lia. }
  assert (Lc : legal h w T (item s) c).
  { apply (legal_app h w T (item s) ca c2).
    - apply (legal_mono h w T (item a)); [|exact La].
      intros i j _. rewrite Is. pose proof (item_nonneg b i j Gb). lia.
    - apply (legal_mono h w T (item s')); [|exact L2].
      intros i j Hin. rewrite (Hs' i j Hin). lia.
    - reflexivity. }
  assert (Fc : forall i j, inside h w i j ->
                 item r2 i j = fired T (item s) c i j).
  { intros i j Hin. rewrite (F2 i j Hin). unfold fired at 1.
    rewrite (Hs' i j Hin).
    apply (fired_fired T (item s) ca c2 c). reflexivity. }
  (* both counts leave a stable grid: they are equal *)
  assert (Hle1 : forall i j, c1 i j <= c i j).
  { apply (least_action h w T ltac:(lia) (item s) c1 c L1).
    - apply (legal_supported h w T (item s) c Lc).
    - intros i j Hin. rewrite <- (Fc i j Hin).
      apply stable_cell; [lia|exact St2]. }
  assert (Hle2 : forall i j, c i j <= c1 i j).
  { apply (least_action h w T ltac:(lia) (item s) c c1 Lc).
    - apply (legal_supported h w T (item s) c1 L1).
    - intros i j Hin. rewrite <- (F1 i j Hin).
      apply stable_cell; [lia|exact St1]. }
  apply grid_ext; try assumption; try congruence.
  intros i j Hin. rewrite R0, R1 in Hin.
  rewrite (F1 i j Hin), (Fc i j Hin). unfold fired, lap.
  pose proof (Hle1 i j). pose proof (Hle2 i j).
  pose proof (Hle1 (i + 1)%nat j). pose proof (Hle2 (i + 1)%nat j).
  pose proof (Hle1 i (j + 1)%nat). pose proof (Hle2 i (j + 1)%nat).
  pose proof (Hle1 (i - 1)%nat j). pose proof (Hle2 (i - 1)%nat j).
  pose proof (Hle1 i (j - 1)%nat). pose proof (Hle2 i (j - 1)%nat).
  replace (c1 i j) with (c i j) by lia.
  replace (c1 (i + 1)%nat j) with (c (i + 1)%nat j) by lia.
  replace (c1 i (j + 1)%nat) with (c i (j + 1)%nat) by lia.
  replace (c1 (i - 1)%nat j) with (c (i - 1)%nat j) by lia.
  replace (c1 i (j - 1)%nat) with (c i (j - 1)%nat) by lia.
  reflexivity.
Qed.

Lemma relax_returns T g :
  4 <= T -> sandpile_grid g ->
  exists N k g',
    relax T N g = (Ok k, g') /\ stable T g' /\ sandpile_grid g' /\
    np.shape0 g' = np.shape0 g /\ np.shape1 g' = np.shape1 g /\
    total g' <= total g.
Proof.
  intros HT Hg. pose proof (potential_nonneg g Hg) as Hp.
  assert (HN : potential g < Z.of_nat (S (Z.to_nat (potential g)))) by lia.
  destruct (relax_terminates T HT _ g Hg HN _ (Nat.le_refl _))
    as (k & g' & E & Hs & Hg' & Ht).
  destruct (relax_legal T HT _ _ _ _ Hg E) as (_ & H0 & H1 & _).
  exists (S (Z.to_nat (potential g))), k, g'.
  split; [exact E|]. split; [exact Hs|]. split; [exact Hg'|].
  split; [exact H0|]. split; [exact H1|exact Ht].
Qed.

(** For two grids of the data model (stable or not) of one shape, the
    loop of [run] takes the sum, the sum with the first grid relaxed and
    the sum with both grids relaxed to one and the same stable grid: the
    order in which cells topple does not matter.  (Threshold at least 4,
    and a grain count that fits a machine integer.) *)
Lemma relaxed_sums_agree T a b :
  4 <= T ->
  sandpile_grid a -> sandpile_grid b ->
  np.shape0 a = np.shape0 b -> np.shape1 a = np.shape1 b ->
  total a + total b < 2 ^ 63 ->
  exists N a' b' s s' s'' r,
    stable T r /\ sandpile_grid r /\
    sandpile_grid a' /\ sandpile_grid b' /\ sandpile_grid s'' /\
    np.add a b = Ok s /\ np.add a' b = Ok s' /\ np.add a' b' = Ok s'' /\
    total s = total a + total b /\
    total s' = total a' + total b /\
    total s'' = total a' + total b' /\
    forall fuel, (N <= fuel)%nat ->
      (exists k, relax T fuel a = (Ok k, a')) /\
      (exists k, relax T fuel b = (Ok k, b')) /\
      (exists k, relax T fuel s = (Ok k, r)) /\
      (exists k, relax T fuel s' = (Ok k, r)) /\
      (exists k, relax T fuel s'' = (Ok k, r)).
Proof.
  intros HT Ga Gb H0 H1 Hsum.
  destruct (relax_returns T a HT Ga)
    as (Na & ka & a' & Ea & _ & Ga' & A0 & A1 & Ta).
  destruct (relax_returns T b HT Gb)
    as (Nb & kb & b' & Eb & _ & Gb' & B0 & B1 & Tb).
  destruct (add_sandpile_grids a b Ga Gb H0 H1 Hsum) as (s & Es & Gs & Ts).
  destruct (relax_returns T s HT Gs) as (N1 & k1 & r1 & E1 & St1 & Gr1 & _).
  destruct (add_sandpile_grids a' b Ga' Gb ltac:(congruence)
              ltac:(congruence) ltac:(lia)) as (s' & Es' & Gs' & Ts').
  destruct (relax_returns T s' HT Gs') as (N2 & k2 & r2 & E2 & _).
  destruct (add_sandpile_grids a' b' Ga' Gb' ltac:(congruence)
              ltac:(congruence) ltac:(lia)) as (s'' & Es'' & Gs'' & Ts'').
  destruct (relax_returns T s'' HT Gs'') as (N3 & k3 & r3 & E3 & _).
  assert (R12 : r1 = r2).
  { apply (relax_sum_left T a b HT Ga Gb H0 H1 Hsum
             _ _ _ _ _ _ _ _ _ _ _ Ea Es E1 Es' E2). }
  assert (R23 : r2 = r3).
  { pose proof Es' as Es'c. pose proof Es'' as Es''c.
    rewrite (add_comm_same_shape a' b) in Es'c by congruence.
    rewrite (add_comm_same_shape a' b') in Es''c by congruence.
    apply (relax_sum_left T b a' HT Gb Ga' ltac:(congruence)
             ltac:(congruence) ltac:(lia)
             _ _ _ _ _ _ _ _ _ _ _ Eb Es'c E2 Es''c E3). }
  subst r2 r3.
  exists (Na + Nb + N1 + N2 + N3)%nat, a', b', s, s', s'', r1.
  split; [exact St1|]. split; [exact Gr1|].
  split; [exact Ga'|]. split; [exact Gb'|]. split; [exact Gs''|].
  split; [exact Es|]. split; [exact Es'|]. split; [exact Es''|].
  split; [exact Ts|]. split; [exact Ts'|]. split; [exact Ts''|].
  intros fuel Hfuel.
  pose proof (relax_fuel_mono T _ _ _ _ Ea fuel ltac:(lia)) as Fa.
  pose proof (relax_fuel_mono T _ _ _ _ Eb fuel ltac:(lia)) as Fb.
  pose proof (relax_fuel_mono T _ _ _ _ E1 fuel ltac:(lia)) as F1.
  pose proof (relax_fuel_mono T _ _ _ _ E2 fuel ltac:(lia)) as F2.
  pose proof (relax_fuel_mono T _ _ _ _ E3 fuel ltac:(lia)) as F3.
  eauto 10.
Qed.

(** ** The draw of automatic mode on a square grid *)

(** When the grid has as many rows as columns, every position that can be
    drawn is a cell of the grid, and the drive step adds one grain to that
    cell and to no other. *)
Lemma drive_increment_square self rand :
  np.shape0 (grid self) = np.shape1 (grid self) ->
  height self = Z.of_nat (np.shape0 (grid self)) ->
  width self = Z.of_nat (np.shape1 (grid self)) ->
  drawn self rand ->
  let d := np.data (grid self) in
  let p := (Z.to_nat rand.1 * np.shape1 (grid self) + Z.to_nat rand.2)%nat in
  iadd [(rand.1, rand.2)] [1] (grid self) =
  (Ok tt, reshape (grid self) (<[p := int64.add (np.cell d p) 1]> d)).
Proof.
  intros Hsq Hh Hw [Hx Hy]. cbv zeta.
  rewrite (iadd_Ok _ _ _ [(Z.to_nat rand.1 * np.shape1 (grid self)
                           + Z.to_nat rand.2)%nat]); [reflexivity|].
  rewrite positions_single.
  rewrite !check_index_nonneg by lia. reflexivity.
Qed.

(** ** Toppling one pile at a time *)

Lemma only_outside h w p i j :
  interior h w p -> (j < w)%nat -> ~ inside h w i j ->
  only (i * w + j) p = 0.
Proof.
  intros (i0 & j0 & -> & Hin) Hj Hn. unfold only.
  destruct (Nat.eqb_spec (i0 * w + j0) (i * w + j)) as [E|_]; [|reflexivity].
  exfalso. apply Hn. unfold inside in *.
  assert (i0 = i /\ j0 = j) as [-> ->]; [|exact Hin].
  destruct (divmod_position w i0 j0 ltac:(lia)) as [D1 D2].
  destruct (divmod_position w i j Hj) as [D3 D4].
  rewrite E in D1, D2. split; congruence.
Qed.

Lemma pile_count_neighbour h w T d p i j dx dy :
  np.wf (np.mk h w d) ->
  interior h w p -> inside h w i j ->
  -1 <= dx <= 1 -> -1 <= dy <= 1 ->
  only (moved w dx dy (i * w + j)) p * quot T d p =
  pile_count T (np.mk h w d) p (Z.to_nat (Z.of_nat i + dx))
             (Z.to_nat (Z.of_nat j + dy)).
Proof.
  intros _ Hp Hin Hdx Hdy. unfold pile_count. cbn [np.shape0 np.shape1 np.data].
  unfold inside in Hin.
  rewrite moved_position by lia.
  destruct (insideb h w _ _) eqn:B; [reflexivity|].
  rewrite (only_outside h w p); [lia|exact Hp|lia|].
  intros Hi. apply insideb_spec in Hi. congruence.
Qed.

(** One call of [topple] on one unstable interior pile, as counts. *)
Lemma single_fired g T p :
  sandpile_grid g -> 4 <= T ->
  interior (np.shape0 g) (np.shape1 g) p ->
  T <= np.cell (np.data g) p ->
  exists g',
    topple T [np.coord g p] g = (Ok tt, g') /\
    sandpile_grid g' /\
    np.shape0 g' = np.shape0 g /\ np.shape1 g' = np.shape1 g /\
    potential g' + 1 <= potential g /\ total g' <= total g /\
    legal (np.shape0 g) (np.shape1 g) T (item g) (pile_count T g p) /\
    forall i j, inside (np.shape0 g) (np.shape1 g) i j ->
                item g' i j = fired T (item g) (pile_count T g p) i j.
Proof.
  intros Hg HT Hp Hc.
  assert (Fint : Forall (interior (np.shape0 g) (np.shape1 g)) [p])
    by (constructor; [exact Hp|constructor]).
  assert (ND : NoDup [p]) by apply NoDup_singleton.
  assert (Hu : forall q, q ∈ [p] -> T <= np.cell (np.data g) q).
  { intros q Hq. apply list_elem_of_singleton in Hq. now subst q. }
  destruct (block_progress g T [p] Hg HT Fint ND Hu)
    as (g' & E & Hg' & H0 & H1 & _ & Hpot & Htot).
  destruct (block_result g T [p] Hg HT Fint ND Hu)
    as (E' & Hq & _ & _ & W5).
  change (np.coord g <$> [p]) with [np.coord g p] in E, E'.
  rewrite E in E'. inversion E'; subst g'. clear E'.
  destruct (Hq p ltac:(left)) as (Hq1 & Hq2 & Hq3).
  exists (np.mk (np.shape0 g) (np.shape1 g)
                (clear_border (np.shape0 g) (np.shape1 g)
                   (redistributed T (np.data g)
                      (moved (np.shape1 g) 0 0 <$> [p])
                      (moved (np.shape1 g) (-1) 0 <$> [p])
                      (moved (np.shape1 g) 0 (-1) <$> [p])
                      (moved (np.shape1 g) 1 0 <$> [p])
                      (moved (np.shape1 g) 0 1 <$> [p])))).
  split; [exact E|]. split; [exact Hg'|].
  split; [reflexivity|]. split; [reflexivity|].
  split; [apply Hpot; discriminate|]. split; [exact Htot|].
  destruct g as [h w d]. cbn [np.shape0 np.shape1 np.data] in *.
  split.
  - apply (legal_step h w T _ (fun _ _ => 0) (pile_count T (np.mk h w d) p)
             (pile_count T (np.mk h w d) p)).
    + now apply legal_zero.
    + intros i j. unfold pile_count, only. cbn [np.shape0 np.shape1 np.data].
      destruct insideb; [|lia]. destruct Nat.eqb; lia.
    + intros i j Hn. unfold pile_count.
      destruct (insideb _ _ i j) eqn:B; [|reflexivity].
      apply insideb_spec in B. contradiction.
    + intros i j Hin Hpos. unfold fired, lap, pile_count, only in *.
      cbn [np.shape0 np.shape1 np.data] in *.
      destruct (insideb h w i j); [|lia].
      destruct (Nat.eqb_spec p (i * w + j)) as [E0|_]; [|lia].
      unfold item. cbn [np.shape1 np.data]. rewrite <- E0. lia.
    + intros i j. lia.
  - intros i j Hin. unfold item at 1. cbn [np.shape1 np.data].
    rewrite clear_border_lookup.
    assert (B : on_border h w (i * w + j) = false).
    { unfold on_border. unfold inside in Hin.
      destruct (divmod_position w i j ltac:(lia)) as [-> ->].
      destruct (Nat.eqb_spec i 0), (Nat.eqb_spec i (h - 1)),
        (Nat.eqb_spec j 0), (Nat.eqb_spec j (w - 1));
        try lia; reflexivity. }
    rewrite B, <- wsum_only, W5, wsum_only. cbn [lsum].
    assert (Hk : interior h w (i * w + j)) by (exists i, j; split; auto).
    rewrite (only_moved h w (-1) 0 _ p ltac:(lia) ltac:(lia) Hp Hk).
    rewrite (only_moved h w 0 (-1) _ p ltac:(lia) ltac:(lia) Hp Hk).
    rewrite (only_moved h w 1 0 _ p ltac:(lia) ltac:(lia) Hp Hk).
    rewrite (only_moved h w 0 1 _ p ltac:(lia) ltac:(lia) Hp Hk).
    change (- -1) with 1. change (- (1)) with (-1). change (- 0) with 0.
    destruct Hg as (Hwf & _).
    pose proof (pile_count_neighbour h w T d p i j 1 0 Hwf Hp Hin
                  ltac:(lia) ltac:(lia)) as N1.
    pose proof (pile_count_neighbour h w T d p i j 0 1 Hwf Hp Hin
                  ltac:(lia) ltac:(lia)) as N2.
    pose proof (pile_count_neighbour h w T d p i j (-1) 0 Hwf Hp Hin
                  ltac:(lia) ltac:(lia)) as N3.
    pose proof (pile_count_neighbour h w T d p i j 0 (-1) Hwf Hp Hin
                  ltac:(lia) ltac:(lia)) as N4.
    pose proof (pile_count_neighbour h w T d p i j 0 0 Hwf Hp Hin
                  ltac:(lia) ltac:(lia)) as N0.
    rewrite moved_0 in N0. unfold inside in Hin.
    replace (Z.to_nat (Z.of_nat i + 1)) with (i + 1)%nat in * by lia.
    replace (Z.to_nat (Z.of_nat i + 0)) with i in * by lia.
    replace (Z.to_nat (Z.of_nat i + -1)) with (i - 1)%nat in * by lia.
    replace (Z.to_nat (Z.of_nat j + 1)) with (j + 1)%nat in * by lia.
    replace (Z.to_nat (Z.of_nat j + 0)) with j in * by lia.
    replace (Z.to_nat (Z.of_nat j + -1)) with (j - 1)%nat in * by lia.
    unfold fired, lap, item. cbn [np.shape1 np.data].
    rewrite <- N0, <- N1, <- N2, <- N3, <- N4.
    set (o := only (i * w + j) p) in *.
    set (q := quot T d p) in *. set (r := rest T d p) in *.
    set (o1 := only (moved w 1 0 (i * w + j)) p) in *.
    set (o2 := only (moved w 0 1 (i * w + j)) p) in *.
    set (o3 := only (moved w (-1) 0 (i * w + j)) p) in *.
    set (o4 := only (moved w 0 (-1) (i * w + j)) p) in *.
    rewrite Hq3. clearbody o q r o1 o2 o3 o4. ring.
Qed.

Lemma one_at_a_time_fired T :
  4 <= T ->
  forall ps g,
    sandpile_grid g ->
    Forall (interior (np.shape0 g) (np.shape1 g)) ps ->
    NoDup ps ->
    (forall p, p ∈ ps -> T <= np.cell (np.data g) p) ->
    exists g',
      topple_one_at_a_time T (np.coord g <$> ps) g = (Ok tt, g') /\
      sandpile_grid g' /\
      np.shape0 g' = np.shape0 g /\ np.shape1 g' = np.shape1 g /\
      potential g' <= potential g /\
      (ps <> [] -> potential g' + 1 <= potential g) /\
      total g' <= total g /\
      exists c,
        legal (np.shape0 g) (np.shape1 g) T (item g) c /\
        forall i j, inside (np.shape0 g) (np.shape1 g) i j ->
                    item g' i j = fired T (item g) c i j.
Proof.
  intros HT. induction ps as [|p ps IH]; intros g Hg Fint ND Hu.
  - exists g. split; [reflexivity|]. split; [exact Hg|].
    split; [reflexivity|]. split; [reflexivity|]. split; [lia|].
    split; [congruence|]. split; [lia|].
    exists (fun _ _ => 0). split; [now apply legal_zero|].
    intros i j _. unfold fired, lap. lia.
  - apply list.NoDup_cons in ND as [Hp ND].
    pose proof (Forall_inv Fint) as Ip. pose proof (Forall_inv_tail Fint) as Fps.
    destruct (single_fired g T p Hg HT Ip (Hu p ltac:(left)))
      as (g1 & E1 & Hg1 & H0 & H1 & Hp1 & Ht1 & L1 & F1).
    assert (Hu1 : forall q, q ∈ ps -> T <= np.cell (np.data g1) q).
    { intros q Hq. rewrite Forall_forall in Fps.
      destruct (Fps q ltac:(now apply list_elem_of_In)) as (i & j & -> & Hin).
      pose proof (F1 i j Hin) as Ei. unfold item in Ei. rewrite H1 in Ei.
      rewrite Ei. unfold fired, lap.
      pose proof (proj1 (legal_supported _ _ T _ _ L1)) as Hnn.
      pose proof (Hnn (i + 1)%nat j). pose proof (Hnn i (j + 1)%nat).
      pose proof (Hnn (i - 1)%nat j). pose proof (Hnn i (j - 1)%nat).
      assert (Z0 : pile_count T g p i j = 0).
      { unfold pile_count, only. destruct insideb; [|reflexivity].
        destruct (Nat.eqb_spec p (i * np.shape1 g + j)) as [->|_]; [|lia].
        contradiction. }
      rewrite Z0. pose proof (Hu _ ltac:(right; exact Hq)) as Hc.
      unfold item. lia. }
    rewrite <- H0, <- H1 in Fps.
    destruct (IH g1 Hg1 Fps ND Hu1)
      as (g' & E' & Hg' & H0' & H1' & Hp' & _ & Ht' & c1 & Lc1 & Fc1).
    assert (Ec : np.coord g1 <$> ps = np.coord g <$> ps).
    { apply fmap_ext_elem. intros q _. unfold np.coord. now rewrite H1. }
    rewrite Ec in E'. rewrite H0, H1 in *.
    exists g'. split.
    { rewrite fmap_cons. cbn [topple_one_at_a_time].
      rewrite (bind_Ok _ _ _ _ _ E1). exact E'. }
    split; [exact Hg'|]. split; [congruence|]. split; [congruence|].
    split; [lia|]. split; [intros _; lia|]. split; [lia|].
    exists (fun i j => pile_count T g p i j + c1 i j). split.
    + apply (legal_app _ _ T (item g) (pile_count T g p) c1).
      * exact L1.
      * apply (legal_mono _ _ T (item g1)); [|exact Lc1].
        intros i j Hin. rewrite (F1 i j Hin). lia.
      * reflexivity.
    + intros i j Hin. rewrite (Fc1 i j Hin). unfold fired at 1.
      rewrite (F1 i j Hin). unfold fired, lap. lia.
Qed.

Lemma relax_one_at_a_time_unfold T fuel g :
  relax_one_at_a_time T fuel g =
  match np.max g with
  | Ok m =>
      if T <=? m then
        match fuel with
        | O => (OutOfFuel, g)
        | S fuel' =>
            match topple_one_at_a_time T (np.where_ge g T) g with
            | (Ok _, g1) => count_pass (relax_one_at_a_time T fuel' g1)
            | (Raise e, g1) => (Raise e, g1)
            | (OutOfFuel, g1) => (OutOfFuel, g1)
            end
        end
      else (Ok O, g)
  | Raise e => (Raise e, g)
  | OutOfFuel => (OutOfFuel, g)
  end.
Proof.
  destruct fuel; simpl; unfold bind, np_max, np_where_ge, out_of_fuel, ret;
    destruct (np.max g) as [m| |]; try reflexivity;
    destruct (T <=? m); try reflexivity.
  destruct (topple_one_at_a_time T (np.where_ge g T) g) as [[[]| |] g1];
    try reflexivity.
  unfold count_pass.
  destruct (relax_one_at_a_time T fuel g1) as [[n| |] g2]; reflexivity.
Qed.

(** The loop that topples one pile at a time returns too, and what it
    fires are legal counts. *)
Lemma relax_one_at_a_time_returns T :
  4 <= T ->
  forall n g,
    sandpile_grid g -> potential g < Z.of_nat n ->
    forall fuel, (n <= fuel)%nat ->
    exists k g',
      relax_one_at_a_time T fuel g = (Ok k, g') /\ stable T g' /\
      sandpile_grid g' /\
      np.shape0 g' = np.shape0 g /\ np.shape1 g' = np.shape1 g /\
      exists c,
        legal (np.shape0 g) (np.shape1 g) T (item g) c /\
        forall i j, inside (np.shape0 g) (np.shape1 g) i j ->
                    item g' i j = fired T (item g) c i j.
Proof.
  intros HT. induction n as [|n IH]; intros g Hg Hpot fuel Hfuel.
  { pose proof (potential_nonneg g Hg). lia. }
  destruct (grid_has_max g Hg) as [m Em].
  rewrite relax_one_at_a_time_unfold, Em.
  destruct (Z.leb_spec T m) as [Hm|Hm].
  - destruct fuel as [|fuel]; [lia|].
    destruct (unstable_cells g T Hg ltac:(lia)) as (Fint & ND & Hu).
    destruct (one_at_a_time_fired T HT _ g Hg Fint ND Hu)
      as (g1 & E1 & Hg1 & H0 & H1 & _ & Hp1 & _ & c1 & L1 & F1).
    specialize (Hp1 (unstable_where g T m Em Hm)).
    unfold np.where_ge. rewrite E1.
    destruct (IH g1 Hg1 ltac:(lia) fuel ltac:(lia))
      as (k & g' & E2 & Hs & Hg' & H0' & H1' & c2 & L2 & F2).
    rewrite E2. rewrite H0, H1 in *.
    exists (S k), g'. split; [reflexivity|]. split; [exact Hs|].
    split; [exact Hg'|]. split; [congruence|]. split; [congruence|].
    exists (fun i j => c1 i j + c2 i j). split.
    + apply (legal_app _ _ T (item g) c1 c2); [exact L1| |reflexivity].
      apply (legal_mono _ _ T (item g1)); [|exact L2].
      intros i j Hin. rewrite (F1 i j Hin). lia.
    + intros i j Hin. rewrite (F2 i j Hin). unfold fired at 1.
      rewrite (F1 i j Hin). unfold fired, lap. lia.
  - exists O, g. split; [reflexivity|]. split; [now exists m|].
    split; [exact Hg|]. split; [reflexivity|]. split; [reflexivity|].
    exists (fun _ _ => 0). split; [now apply legal_zero|].
    intros i j _. unfold fired, lap. lia.
Qed.

(** Legal counts that both end in a stable grid end in the same grid. *)
Lemma stable_grids_equal T g r1 r2 c1 c2 :
  0 < T ->
  sandpile_grid r1 -> sandpile_grid r2 ->
  np.shape0 r1 = np.shape0 g -> np.shape1 r1 = np.shape1 g ->
  np.shape0 r2 = np.shape0 g -> np.shape1 r2 = np.shape1 g ->
  legal (np.shape0 g) (np.shape1 g) T (item g) c1 ->
  legal (np.shape0 g) (np.shape1 g) T (item g) c2 ->
  (forall i j, inside (np.shape0 g) (np.shape1 g) i j ->
               item r1 i j = fired T (item g) c1 i j) ->
  (forall i j, inside (np.shape0 g) (np.shape1 g) i j ->
               item r2 i j = fired T (item g) c2 i j) ->
  stable T r1 -> stable T r2 ->
  r1 = r2.
Proof.
  intros HT G1 G2 A0 A1 B0 B1 L1 L2 F1 F2 S1 S2.
  assert (Hle1 : forall i j, c1 i j <= c2 i j).
  { apply (least_action _ _ T HT (item g) c1 c2 L1).
    - apply (legal_supported _ _ T (item g) c2 L2).
    - intros i j Hin. rewrite <- (F2 i j Hin). now apply stable_cell. }
  assert (Hle2 : forall i j, c2 i j <= c1 i j).
  { apply (least_action _ _ T HT (item g) c2 c1 L2).
    - apply (legal_supported _ _ T (item g) c1 L1).
    - intros i j Hin. rewrite <- (F1 i j Hin). now apply stable_cell. }
  apply grid_ext; try assumption; try congruence.
  intros i j Hin. rewrite A0, A1 in Hin.
  rewrite (F1 i j Hin), (F2 i j Hin). unfold fired, lap.
  pose proof (Hle1 i j). pose proof (Hle2 i j).
  pose proof (Hle1 (i + 1)%nat j). pose proof (Hle2 (i + 1)%nat j).
  pose proof (Hle1 i (j + 1)%nat). pose proof (Hle2 i (j + 1)%nat).
  pose proof (Hle1 (i - 1)%nat j). pose proof (Hle2 (i - 1)%nat j).
  pose proof (Hle1 i (j - 1)%nat). pose proof (Hle2 i (j - 1)%nat).
  replace (c1 i j) with (c2 i j) by lia.
  replace (c1 (i + 1)%nat j) with (c2 (i + 1)%nat j) by lia.
  replace (c1 i (j + 1)%nat) with (c2 i (j + 1)%nat) by lia.
  replace (c1 (i - 1)%nat j) with (c2 (i - 1)%nat j) by lia.
  replace (c1 i (j - 1)%nat) with (c2 i (j - 1)%nat) by lia.
  reflexivity.
Qed.

(** The pass of [run] and the pass that topples one pile at a time may
    take different numbers of passes, but both loops end on the same
    grid. *)
Lemma one_at_a_time_same_grid T g :
  4 <= T -> sandpile_grid g ->
  exists N r,
    stable T r /\
    forall fuel, (N <= fuel)%nat ->
      (exists k, relax T fuel g = (Ok k, r)) /\
      (exists k, relax_one_at_a_time T fuel g = (Ok k, r)).
Proof.
  intros HT Hg.
  destruct (relax_returns T g HT Hg)
    as (N1 & k1 & r1 & E1 & S1 & G1 & A0 & A1 & _).
  destruct (relax_legal T HT _ _ _ _ Hg E1) as (_ & _ & _ & _ & c1 & L1 & F1).
  pose proof (potential_nonneg g Hg) as Hp.
  exists (N1 + S (Z.to_nat (potential g)))%nat, r1. split; [exact S1|].
  intros fuel Hfuel. split.
  - exists k1. apply (relax_fuel_mono T _ _ _ _ E1). lia.
  - destruct (relax_one_at_a_time_returns T HT (S (Z.to_nat (potential g)))
                g Hg ltac:(lia) fuel ltac:(lia))
      as (k2 & r2 & E2 & S2 & G2 & B0 & B1 & c2 & L2 & F2).
    exists k2. rewrite E2. f_equal. symmetry.
    apply (stable_grids_equal T g r1 r2 c1 c2); try assumption. lia.
Qed.

(** * Further properties of the methods *)

(** ** [set_pile] *)

Lemma check_index_mod axis size i :
  - Z.of_nat size <= i < Z.of_nat size ->
  np.check_index axis size i = Ok (Z.to_nat (i mod Z.of_nat size)).
Proof.
  intros Hi. destruct (Z.neg_nonneg_cases i) as [Hn|Hn].
  - rewrite check_index_negative by lia. do 2 f_equal.
    rewrite <- (Z.mod_small (i + Z.of_nat size) (Z.of_nat size)) by lia.
    rewrite <- (Z_mod_plus_full i 1 (Z.of_nat size)). f_equal. lia.
  - rewrite check_index_nonneg by lia. now rewrite Z.mod_small by lia.
Qed.

Lemma check_index_below axis size i :
  i < - Z.of_nat size ->
  np.check_index axis size i = Raise (IndexError axis i size).
Proof.
  intros Hi. unfold np.check_index.
  destruct (Z.leb_spec 0 i), (Z.ltb_spec i (Z.of_nat size)),
    (Z.leb_spec (- Z.of_nat size) i), (Z.ltb_spec i 0); simpl; try lia;
    reflexivity.
Qed.

Lemma position_eq w i j r c :
  (j < w)%nat -> (c < w)%nat ->
  (i * w + j = r * w + c)%nat <-> i = r /\ j = c.
Proof.
  intros Hj Hc. split; [|intros [-> ->]; reflexivity].
  intros E.
  pose proof (divmod_position w i j Hj) as [D1 M1].
  pose proof (divmod_position w r c Hc) as [D2 M2].
  rewrite E in D1, M1. split; congruence.
Qed.

Lemma position_bound h w r c :
  (r < h)%nat -> (c < w)%nat -> (r * w + c < h * w)%nat.
Proof. intros Hr Hc. nia. Qed.

(** X1: on a cell of the array, given by indices that may be negative,
    [set_pile] returns; reading the same indices back gives the value,
    every other cell and the shape are as before.  (NumPy refuses a value
    that is no 64-bit integer, hence the last hypothesis.) *)
Theorem set_pile_then_read :
  forall g x y v,
    np.wf g ->
    - Z.of_nat (np.shape0 g) <= x < Z.of_nat (np.shape0 g) ->
    - Z.of_nat (np.shape1 g) <= y < Z.of_nat (np.shape1 g) ->
    int64.in_range v ->
    exists g',
      set_pile x y v g = (Ok tt, g') /\
      np.shape0 g' = np.shape0 g /\ np.shape1 g' = np.shape1 g /\
      np.wf g' /\
      read [(x, y)] g' = (Ok [v], g') /\
      forall i j,
        (i < np.shape0 g)%nat -> (j < np.shape1 g)%nat ->
        item g' i j =
        if (Z.of_nat i =? x mod Z.of_nat (np.shape0 g))
           && (Z.of_nat j =? y mod Z.of_nat (np.shape1 g))
        then v else item g i j.
Proof.
  intros g x y v Hwf Hx Hy _.
  set (h := np.shape0 g) in *. set (w := np.shape1 g) in *.
  set (r := Z.to_nat (x mod Z.of_nat h)).
  set (c := Z.to_nat (y mod Z.of_nat w)).
  assert (Hr : (r < h)%nat).
  { pose proof (Z.mod_pos_bound x (Z.of_nat h) ltac:(lia)). lia. }
  assert (Hc : (c < w)%nat).
  { pose proof (Z.mod_pos_bound y (Z.of_nat w) ltac:(lia)). lia. }
  assert (Hp : forall g0, np.shape0 g0 = h -> np.shape1 g0 = w ->
                          np.positions g0 [(x, y)] = Ok [(r * w + c)%nat]).
  { intros g0 E0 E1. rewrite positions_single, E0, E1.
    rewrite !check_index_mod by lia. reflexivity. }
  pose proof (position_bound h w r c Hr Hc) as Hlt.
  exists (reshape g (<[(r * w + c)%nat := v]> (np.data g))).
  split; [unfold set_pile; now rewrite (assign_Ok _ _ _ _ (Hp g eq_refl eq_refl))|].
  split; [reflexivity|]. split; [reflexivity|].
  split; [unfold np.wf, reshape; simpl; rewrite length_insert; exact Hwf|].
  split.
  - rewrite (read_Ok _ _ [(r * w + c)%nat]) by (apply Hp; reflexivity).
    simpl. rewrite cell_insert_eq by (rewrite Hwf; exact Hlt). reflexivity.
  - intros i j Hi Hj. unfold item, reshape. cbn [np.data np.shape1].
    fold w.
    pose proof (Z.mod_pos_bound x (Z.of_nat h) ltac:(lia)).
    pose proof (Z.mod_pos_bound y (Z.of_nat w) ltac:(lia)).
    destruct (Z.eqb_spec (Z.of_nat i) (x mod Z.of_nat h)) as [Ei|Ei];
      destruct (Z.eqb_spec (Z.of_nat j) (y mod Z.of_nat w)) as [Ej|Ej];
      cbn [andb].
    + replace (i * w + j)%nat with (r * w + c)%nat
        by (subst r c; rewrite <- Ei, <- Ej, !Nat2Z.id; reflexivity).
      apply cell_insert_eq. rewrite Hwf. exact Hlt.
    + apply cell_insert_ne. intros E. symmetry in E.
      apply position_eq in E as [_ E]; [|exact Hj|exact Hc]. subst c. lia.
    + apply cell_insert_ne. intros E. symmetry in E.
      apply position_eq in E as [E _]; [|exact Hj|exact Hc]. subst r. lia.
    + apply cell_insert_ne. intros E. symmetry in E.
      apply position_eq in E as [E _]; [|exact Hj|exact Hc]. subst r. lia.
Qed.

Lemma set_pile_then_read_witness :
  exists g',
    set_pile (-1) 1 7 (np.mk 3 3 [0;0;0; 0;0;0; 0;0;0]) = (Ok tt, g') /\
    item g' 2 1 = 7 /\ item g' 1 1 = 0.
Proof.
  destruct (set_pile_then_read (np.mk 3 3 [0;0;0; 0;0;0; 0;0;0]) (-1) 1 7)
    as (g' & E & _ & _ & _ & _ & H);
    [reflexivity | simpl; lia | simpl; lia | unfold int64.in_range; lia |].
  exists g'. split; [exact E|]. split.
  - apply (H 2%nat 1%nat); simpl; lia.
  - apply (H 1%nat 1%nat); simpl; lia.
Defined.

(** X2: an index outside the array makes [set_pile] raise [IndexError],
    for the row index first, and the grid is left as it was. *)
Theorem set_pile_index_error :
  forall g x y v,
    (x < - Z.of_nat (np.shape0 g) \/ Z.of_nat (np.shape0 g) <= x ->
     set_pile x y v g = (Raise (IndexError 0 x (np.shape0 g)), g)) /\
    (- Z.of_nat (np.shape0 g) <= x < Z.of_nat (np.shape0 g) ->
     y < - Z.of_nat (np.shape1 g) \/ Z.of_nat (np.shape1 g) <= y ->
     set_pile x y v g = (Raise (IndexError 1 y (np.shape1 g)), g)).
Proof.
  intros g x y v. unfold set_pile, assign, update, np.setitem.
  rewrite positions_single. split.
  - intros [Hx|Hx];
      [rewrite check_index_below by lia|rewrite check_index_beyond by lia];
      reflexivity.
  - intros Hx Hy. rewrite (check_index_mod 0) by lia. simpl.
    destruct Hy as [Hy|Hy];
      [rewrite check_index_below by lia|rewrite check_index_beyond by lia];
      reflexivity.
Qed.

Lemma set_pile_index_error_witness :
  set_pile 3 0 5 (np.mk 3 3 [0;0;0; 0;0;0; 0;0;0]) =
    (Raise (IndexError 0 3 3), np.mk 3 3 [0;0;0; 0;0;0; 0;0;0]) /\
  set_pile 0 (-4) 5 (np.mk 3 3 [0;0;0; 0;0;0; 0;0;0]) =
    (Raise (IndexError 1 (-4) 3), np.mk 3 3 [0;0;0; 0;0;0; 0;0;0]).
Proof.
  split.
  - apply (proj1 (set_pile_index_error
                    (np.mk 3 3 [0;0;0; 0;0;0; 0;0;0]) 3 0 5)). simpl. lia.
  - apply (proj2 (set_pile_index_error
                    (np.mk 3 3 [0;0;0; 0;0;0; 0;0;0]) 0 (-4) 5)); simpl; lia.
Defined.

(** ** [__init__] *)

Lemma forallb_same_length n : forall rows : list (list Z),
  Forall (fun r' => length r' = n) rows ->
  forallb (fun r' => Nat.eqb (length r') n) rows = true.
Proof.
  induction 1 as [|r rows Hr _ IH]; [reflexivity|].
  simpl. rewrite IH, Hr, Nat.eqb_refl. reflexivity.
Qed.

Lemma length_concat_uniform n : forall rows : list (list Z),
  Forall (fun r' => length r' = n) rows ->
  length (concat rows) = (length rows * n)%nat.
Proof.
  induction 1 as [|r rows Hr _ IH]; [reflexivity|].
  simpl. rewrite length_app, IH, Hr. reflexivity.
Qed.

Lemma concat_uniform_lookup n : forall (rows : list (list Z)) i j row,
  Forall (fun r' => length r' = n) rows ->
  rows !! i = Some row -> (j < n)%nat ->
  concat rows !! (i * n + j)%nat = row !! j.
Proof.
  induction rows as [|r rows IH]; intros i j row F Hi Hj; [discriminate|].
  apply list.Forall_cons in F as [Hr F]. destruct i as [|i]; simpl in *.
  - injection Hi as ->. apply lookup_app_l. lia.
  - rewrite lookup_app_r by lia.
    replace (n + i * n + j - length r)%nat with (i * n + j)%nat by lia.
    now apply IH.
Qed.

Lemma any_false_zero d :
  existsb (fun v => negb (v =? 0)) d = false <-> Forall (fun v => v = 0) d.
Proof.
  induction d as [|v d IH]; simpl.
  - split; [constructor|reflexivity].
  - rewrite orb_false_iff, IH, list.Forall_cons.
    destruct (Z.eqb_spec v 0); simpl; intuition congruence.
Qed.

Lemma Forall_concat_zero : forall rows : list (list Z),
  Forall (fun v => v = 0) (concat rows) <->
  Forall (Forall (fun v => v = 0)) rows.
Proof.
  induction rows as [|r rows IH]; simpl.
  - split; constructor.
  - rewrite Forall_app, list.Forall_cons, IH. reflexivity.
Qed.

(** X3: a rectangular list of rows gives an object whose [height] and
    [width] are the number of rows and the length of the first row (the
    keyword arguments [height] and [width] are not looked at), and whose
    grid reads back the rows: [grid[i, j]] is [rows[i][j]]. *)
Theorem init_from_rows :
  forall r rs h w grains timesteps lv,
    Forall (fun r' => length r' = length r) rs ->
    Forall (Forall int64.in_range) (r :: rs) ->
    exists s,
      __init__ (Some (r :: rs)) h w grains timesteps lv = Ok s /\
      height s = Z.of_nat (S (length rs)) /\
      width s = Z.of_nat (length r) /\
      max_grains s = grains /\ max_iterations s = timesteps /\
      live_view s = lv /\
      np.wf (grid s) /\
      np.shape0 (grid s) = S (length rs) /\
      np.shape1 (grid s) = length r /\
      forall i j row v,
        (r :: rs) !! i = Some row -> row !! j = Some v ->
        item (grid s) i j = v.
Proof.
  intros r rs h w grains timesteps lv F _.
  assert (F' : Forall (fun r' => length r' = length r) (r :: rs))
    by (constructor; [reflexivity|exact F]).
  unfold __init__, np.array.
  rewrite (forallb_same_length _ _ F'). cbn [res_bind].
  eexists. split; [reflexivity|]. cbn [height width max_grains max_iterations
                                       live_view grid np.shape0 np.shape1].
  repeat (split; [reflexivity|]).
  split; [unfold np.wf; simpl np.data; simpl np.shape0; simpl np.shape1;
          apply (length_concat_uniform _ _ F')|].
  split; [reflexivity|]. split; [reflexivity|].
  intros i j row v Hi Hj. unfold item. cbn [np.data np.shape1].
  apply cell_lookup.
  rewrite (concat_uniform_lookup _ _ i j row F' Hi); [exact Hj|].
  rewrite Forall_lookup in F'. rewrite <- (F' i row Hi).
  apply lookup_lt_Some in Hj. exact Hj.
Qed.

Lemma init_from_rows_witness :
  exists s,
    __init__ (Some [[0;0;0]; [0;5;0]; [0;0;0]; [0;0;0]]) 3 3 4 10 false
      = Ok s /\
    height s = 4 /\ width s = 3 /\ item (grid s) 1 1 = 5.
Proof.
  destruct (init_from_rows [0;0;0] [[0;5;0]; [0;0;0]; [0;0;0]] 3 3 4 10 false)
    as (s & E & Hh & Hw & _ & _ & _ & _ & _ & _ & H).
  - repeat constructor.
  - repeat constructor; unfold int64.in_range; lia.
  - exists s. split; [exact E|]. split; [exact Hh|]. split; [exact Hw|].
    apply (H 1%nat 1%nat [0;5;0] 5); reflexivity.
Defined.

(** X4: which of its two modes [run] takes is decided by the grid alone:
    an object built without a grid, or from rows that hold only zeros, is
    run in automatic mode; an object built from rows with a cell that
    is not zero is relaxed as it is, whatever [max_timesteps] says. *)
Theorem init_selects_mode :
  forall rows h w grains timesteps lv s fuel draws,
    (__init__ None h w grains timesteps lv = Ok s \/
     (__init__ (Some rows) h w grains timesteps lv = Ok s /\
      Forall (Forall (fun v => v = 0)) rows) ->
     run s fuel draws =
     (let (r, g) := automatic grains fuel draws (Z.to_nat timesteps) 0 0
                              (grid s) in
      (r, set_grid s g))) /\
    (__init__ (Some rows) h w grains timesteps lv = Ok s ->
     ~ Forall (Forall (fun v => v = 0)) rows ->
     run s fuel draws =
     (let (r, g) := relax grains fuel (grid s) in
      (match r with
       | Ok n => Ok (Z.of_nat n)
       | Raise e => Raise e
       | OutOfFuel => OutOfFuel
       end, set_grid s g))).
Proof.
  intros rows h w grains timesteps lv s fuel draws.
  assert (Hrows : __init__ (Some rows) h w grains timesteps lv = Ok s ->
                  max_grains s = grains /\ max_iterations s = timesteps /\
                  np.data (grid s) = concat rows).
  { unfold __init__, np.array. destruct rows as [|r rs]; [discriminate|].
    destruct forallb; [|discriminate]. cbn [res_bind].
    intros [= <-]. repeat split. }
  split.
  - intros [E|[E Z0]].
    + unfold __init__, np.zeros in E.
      destruct ((h <? 0) || (w <? 0)); [discriminate|].
      cbn [res_bind] in E. injection E as <-.
      rewrite run_automatic; [reflexivity|].
      unfold np.any. cbn [grid np.data]. apply any_false_zero.
      apply Forall_replicate. reflexivity.
    + destruct (Hrows E) as (Eg & Et & Ed).
      rewrite run_automatic; [rewrite Eg, Et; reflexivity|].
      unfold np.any. rewrite Ed. apply any_false_zero.
      now apply Forall_concat_zero.
  - intros E Hnz. destruct (Hrows E) as (Eg & Et & Ed).
    rewrite run_direct; [rewrite Eg; reflexivity|].
    unfold np.any. rewrite Ed.
    destruct (existsb _ (concat rows)) eqn:Ex; [reflexivity|].
    exfalso. apply Hnz. apply Forall_concat_zero. now apply any_false_zero.
Qed.

Lemma init_selects_mode_witness :
  let fresh := mkSandpile 4 2 false 3 3 (np.mk 3 3 [0;0;0; 0;0;0; 0;0;0]) in
  let built := mkSandpile 4 2 false 3 3 (np.mk 3 3 [0;0;0; 0;5;0; 0;0;0]) in
  run fresh 5 (fun _ => (1, 1)) =
    (Ok 2, mkSandpile 4 2 false 3 3 (np.mk 3 3 [0;0;0; 0;2;0; 0;0;0])) /\
  run built 5 (fun _ => (1, 1)) =
    (Ok 1, mkSandpile 4 2 false 3 3 (np.mk 3 3 [0;0;0; 0;1;0; 0;0;0])).
Proof.
  split.
  - rewrite (proj1 (init_selects_mode [] 3 3 4 2 false
                      (mkSandpile 4 2 false 3 3
                                  (np.mk 3 3 [0;0;0; 0;0;0; 0;0;0]))
                      5 (fun _ => (1, 1)))); [reflexivity|].
    left. reflexivity.
  - rewrite (proj2 (init_selects_mode [[0;0;0]; [0;5;0]; [0;0;0]]
                      7 7 4 2 false
                      (mkSandpile 4 2 false 3 3
                                  (np.mk 3 3 [0;0;0; 0;5;0; 0;0;0]))
                      5 (fun _ => (1, 1)))); [reflexivity|reflexivity|].
    intros F. apply list.Forall_cons in F as [_ F].
    apply list.Forall_cons in F as [F _].
    apply list.Forall_cons in F as [_ F].
    apply list.Forall_cons in F as [F _]. discriminate.
Defined.

(** ** [topple] on a pile below the threshold *)

Lemma insert_cell_id (d : list Z) p : <[p := np.cell d p]> d = d.
Proof.
  unfold np.cell. destruct (d !! p) as [v|] eqn:E; simpl.
  - now apply list_insert_id.
  - apply list_insert_ge. now apply lookup_ge_None.
Qed.

Lemma cell_in_range d p :
  Forall int64.in_range d -> int64.in_range (np.cell d p).
Proof.
  intros F. unfold np.cell. destruct (d !! p) as [v|] eqn:E; simpl.
  - rewrite Forall_lookup in F. exact (F p v E).
  - unfold int64.in_range. lia.
Qed.

Lemma adds_zero d p :
  Forall int64.in_range d -> adds d [p] [0] = d.
Proof.
  intros F. unfold adds, puts. simpl. unfold np.write, int64.add. simpl.
  rewrite Z.add_0_r, wrap_in_range by now apply cell_in_range.
  apply insert_cell_id.
Qed.

Lemma reshape_data g : reshape g (np.data g) = g.
Proof. now destruct g. Qed.

(** X5: [topple] called on one pile that holds less than the threshold
    moves no grain: the pile and its neighbours keep their values, and all
    the call does is to empty the border. *)
Theorem topple_below_threshold :
  forall T g r c,
    np.wf g -> Forall int64.in_range (np.data g) -> 0 < T ->
    0 <= r -> r + 1 < Z.of_nat (np.shape0 g) ->
    0 <= c -> c + 1 < Z.of_nat (np.shape1 g) ->
    0 <= item g (Z.to_nat r) (Z.to_nat c) < T ->
    topple T [(r, c)] g =
    (Ok tt,
     reshape g (clear_border (np.shape0 g) (np.shape1 g) (np.data g))).
Proof.
  intros T g r c Hwf Fr HT Hr0 Hr Hc0 Hc Hv.
  set (h := np.shape0 g) in *. set (w := np.shape1 g) in *.
  assert (P : forall dx dy, -1 <= dx <= 1 -> -1 <= dy <= 1 ->
            exists p, np.positions g (shift dx dy [(r, c)]) = Ok [p]).
  { intros dx dy Hdx Hdy. apply positions_single_total; simpl; lia. }
  destruct (P (-1) 0) as [p1 E1]; [lia|lia|].
  destruct (P 0 (-1)) as [p2 E2]; [lia|lia|].
  destruct (P 1 0) as [p3 E3]; [lia|lia|].
  destruct (P 0 1) as [p4 E4]; [lia|lia|].
  assert (E0 : np.positions g [(r, c)]
               = Ok [(Z.to_nat r * w + Z.to_nat c)%nat]).
  { rewrite positions_single. fold h w.
    rewrite !check_index_nonneg by lia. reflexivity. }
  unfold topple.
  rewrite (bind_Ok _ _ _ _ _
             (redistribute_Ok T _ g _ _ _ _ _ E0 E1 E2 E3 E4)).
  assert (Ed : redistributed T (np.data g)
                 [(Z.to_nat r * w + Z.to_nat c)%nat] [p1] [p2] [p3] [p4]
               = np.data g).
  { unfold redistributed.
    set (v := item g (Z.to_nat r) (Z.to_nat c)) in *.
    change (np.cell (np.data g) <$> [(Z.to_nat r * w + Z.to_nat c)%nat])
      with [v].
    cbn [fmap list_fmap]. cbv beta.
    assert (Eq : int64.floor_divide v T = 0).
    { unfold int64.floor_divide.
      destruct (Z.eqb_spec T 0); [reflexivity|].
      now rewrite Z.div_small. }
    assert (Er : int64.remainder v T = v).
    { unfold int64.remainder.
      destruct (Z.eqb_spec T 0); [lia|]. now apply Z.mod_small. }
    rewrite Eq, Er.
    assert (Ep : puts (np.data g) [(Z.to_nat r * w + Z.to_nat c)%nat] [v]
                 = np.data g).
    { unfold puts. simpl. unfold np.write. simpl. subst v.
      unfold item. fold w. apply insert_cell_id. }
    rewrite Ep.
    rewrite (adds_zero _ p1 Fr), (adds_zero _ p2 Fr), (adds_zero _ p3 Fr).
    exact (adds_zero _ p4 Fr). }
  rewrite Ed, reshape_data. apply border_case_Ok; fold h; fold w; lia.
Qed.

Lemma topple_below_threshold_witness :
  topple 4 [(1, 1)] (np.mk 3 4 [1;2;0;1; 0;3;2;5; 0;0;1;0]) =
  (Ok tt, np.mk 3 4 [0;0;0;0; 0;3;2;0; 0;0;0;0]).
Proof.
  rewrite (topple_below_threshold 4 (np.mk 3 4 [1;2;0;1; 0;3;2;5; 0;0;1;0])
             1 1); [reflexivity|reflexivity| |lia|lia|simpl; lia|lia|simpl; lia|].
  - repeat constructor; unfold int64.in_range; lia.
  - unfold item. simpl. unfold np.cell. simpl. lia.
Defined.

(** ** A pass over a pile of the last row or of the last column *)

Lemma check_indices_total axis size : forall l,
  Forall (fun i => - Z.of_nat size <= i < Z.of_nat size) l ->
  exists ns, np.check_indices axis size l = Ok ns.
Proof.
  induction 1 as [|i l Hi _ [ns IH]]; [now exists []|].
  destruct (check_index_total axis size i Hi) as [n En].
  exists (n :: ns). simpl. now rewrite En, IH.
Qed.

Lemma check_indices_beyond axis size : forall l,
  Forall (fun i => - Z.of_nat size <= i <= Z.of_nat size) l ->
  Z.of_nat size ∈ l ->
  np.check_indices axis size l = Raise (IndexError axis (Z.of_nat size) size).
Proof.
  induction 1 as [|i l Hi _ IH]; intros Hin; [now apply elem_of_nil in Hin|].
  simpl. destruct (Z.eq_dec i (Z.of_nat size)) as [->|Hne].
  - now rewrite check_index_beyond by lia.
  - destruct (check_index_total axis size i ltac:(lia)) as [n ->]. simpl.
    apply elem_of_cons in Hin as [Hin|Hin]; [congruence|].
    now rewrite (IH Hin).
Qed.

Lemma positions_total g xy :
  Forall (fun c => - Z.of_nat (np.shape0 g) <= c.1 < Z.of_nat (np.shape0 g) /\
                   - Z.of_nat (np.shape1 g) <= c.2 < Z.of_nat (np.shape1 g))
         xy ->
  exists ps, np.positions g xy = Ok ps.
Proof.
  intros F. unfold np.positions.
  destruct (check_indices_total 0 (np.shape0 g) (xy.*1)) as [rows ->].
  { apply Forall_fmap. eapply Forall_impl; [|exact F]. simpl. tauto. }
  destruct (check_indices_total 1 (np.shape1 g) (xy.*2)) as [cols ->].
  { apply Forall_fmap. eapply Forall_impl; [|exact F]. simpl. tauto. }
  simpl. eauto.
Qed.

Lemma positions_beyond_rows g xy :
  Forall (fun c => - Z.of_nat (np.shape0 g) <= c.1 <= Z.of_nat (np.shape0 g))
         xy ->
  Z.of_nat (np.shape0 g) ∈ xy.*1 ->
  np.positions g xy =
  Raise (IndexError 0 (Z.of_nat (np.shape0 g)) (np.shape0 g)).
Proof.
  intros F Hin. unfold np.positions.
  rewrite check_indices_beyond; [reflexivity| |exact Hin].
  apply Forall_fmap. exact F.
Qed.

Lemma positions_beyond_columns g xy :
  Forall (fun c => - Z.of_nat (np.shape0 g) <= c.1 < Z.of_nat (np.shape0 g) /\
                   - Z.of_nat (np.shape1 g) <= c.2 <= Z.of_nat (np.shape1 g))
         xy ->
  Z.of_nat (np.shape1 g) ∈ xy.*2 ->
  np.positions g xy =
  Raise (IndexError 1 (Z.of_nat (np.shape1 g)) (np.shape1 g)).
Proof.
  intros F Hin. unfold np.positions.
  destruct (check_indices_total 0 (np.shape0 g) (xy.*1)) as [rows ->].
  { apply Forall_fmap. eapply Forall_impl; [|exact F]. simpl. tauto. }
  simpl. rewrite check_indices_beyond; [reflexivity| |exact Hin].
  apply Forall_fmap. eapply Forall_impl; [|exact F]. simpl. tauto.
Qed.

(** The coordinates [np.where] returns are coordinates of the array. *)
Lemma where_ge_bounds g T :
  np.wf g -> (0 < np.shape1 g)%nat ->
  Forall (fun c => 0 <= c.1 < Z.of_nat (np.shape0 g) /\
                   0 <= c.2 < Z.of_nat (np.shape1 g))
         (np.where_ge g T).
Proof.
  intros Hwf Hw. unfold np.where_ge. apply Forall_fmap, Forall_forall.
  intros p Hp. apply list_elem_of_In, elem_of_find_ge in Hp as (_ & Hp & _).
  rewrite Hwf in Hp. simpl in Hp. unfold np.coord. simpl.
  pose proof (Nat.mod_upper_bound p (np.shape1 g) ltac:(lia)).
  assert (p / np.shape1 g < np.shape0 g)%nat
    by (apply Nat.Div0.div_lt_upper_bound; lia).
  lia.
Qed.

Lemma where_ge_elem g T i j :
  np.wf g -> (i < np.shape0 g)%nat -> (j < np.shape1 g)%nat ->
  T <= item g i j ->
  (Z.of_nat i, Z.of_nat j) ∈ np.where_ge g T.
Proof.
  intros Hwf Hi Hj Hv. unfold np.where_ge.
  apply list_elem_of_fmap. exists (i * np.shape1 g + j)%nat. split.
  - unfold np.coord. destruct (divmod_position (np.shape1 g) i j Hj) as [-> ->].
    reflexivity.
  - apply elem_of_find_ge. rewrite Nat.sub_0_r, Hwf.
    pose proof (position_bound _ _ i j Hi Hj). split; [lia|]. split; [lia|].
    exact Hv.
Qed.

Lemma where_ge_item g T c :
  np.wf g -> (0 < np.shape1 g)%nat ->
  c ∈ np.where_ge g T ->
  T <= item g (Z.to_nat c.1) (Z.to_nat c.2).
Proof.
  intros Hwf Hw Hc. unfold np.where_ge in Hc.
  apply list_elem_of_fmap in Hc as (p & -> & Hp).
  apply elem_of_find_ge in Hp as (_ & _ & Hp). rewrite Nat.sub_0_r in Hp.
  unfold np.coord, item. simpl. rewrite !Nat2Z.id.
  rewrite (Nat.mul_comm (p / np.shape1 g)), <- Nat.div_mod_eq. exact Hp.
Qed.

Lemma max_ge_item g i j :
  np.wf g -> (i < np.shape0 g)%nat -> (j < np.shape1 g)%nat ->
  exists m, np.max g = Ok m /\ item g i j <= m.
Proof.
  intros Hwf Hi Hj. pose proof (position_bound _ _ i j Hi Hj) as Hp.
  rewrite <- Hwf in Hp. unfold np.max, item.
  destruct (lookup_lt_is_Some_2 _ _ Hp) as [v Ev].
  rewrite (cell_lookup _ _ _ Ev). apply list_elem_of_lookup_2 in Ev.
  destruct (np.data g) as [|v0 d]; [now apply elem_of_nil in Ev|].
  eexists. split; [reflexivity|]. apply foldl_max_ge.
  apply elem_of_cons in Ev. tauto.
Qed.

Lemma Forall_shift (P : Z * Z -> Prop) dx dy xy :
  Forall (fun c => P (c.1 + dx, c.2 + dy)) xy -> Forall P (shift dx dy xy).
Proof. intros F. unfold shift. now apply Forall_fmap. Qed.

(** The first statements of a pass of [run] cannot fail: the piles
    [np.where] found are cells of the array, and so are their upper and
    left neighbours, index [-1] included. *)
Lemma pass_prefix g T :
  np.wf g -> (0 < np.shape1 g)%nat ->
  exists p0 p1 p2,
    np.positions g (np.where_ge g T) = Ok p0 /\
    np.positions g (shift (-1) 0 (np.where_ge g T)) = Ok p1 /\
    np.positions g (shift 0 (-1) (np.where_ge g T)) = Ok p2.
Proof.
  intros Hwf Hw. pose proof (where_ge_bounds g T Hwf Hw) as Fb.
  assert (P : forall dx dy, -1 <= dx <= 0 -> -1 <= dy <= 0 ->
            exists ps, np.positions g (shift dx dy (np.where_ge g T)) = Ok ps).
  { intros dx dy Hdx Hdy. apply positions_total, Forall_shift.
    eapply Forall_impl; [|exact Fb]. simpl. lia. }
  destruct (P 0 0) as [p0 E0]; [lia|lia|]. rewrite shift_0 in E0.
  destruct (P (-1) 0) as [p1 E1]; [lia|lia|].
  destruct (P 0 (-1)) as [p2 E2]; [lia|lia|].
  now exists p0, p1, p2.
Qed.

(** With a cell at or above the threshold the loop of [run] makes a pass,
    and an exception of that pass ends the loop. *)
Lemma relax_raise_of_pass T g fuel i j e :
  np.wf g -> (i < np.shape0 g)%nat -> (j < np.shape1 g)%nat ->
  T <= item g i j ->
  (exists g1, redistribute T (np.where_ge g T) g = (Raise e, g1)) ->
  exists g', relax T (S fuel) g = (Raise e, g').
Proof.
  intros Hwf Hi Hj Hv [g1 Eg1].
  destruct (max_ge_item g i j Hwf Hi Hj) as (m & Em & Hm).
  rewrite relax_unfold, Em.
  destruct (Z.leb_spec T m); [|lia].
  unfold topple. rewrite (bind_Raise _ _ _ _ _ Eg1). eauto.
Qed.

Lemma relax_raises_last_row T g fuel j :
  np.wf g -> (0 < np.shape0 g)%nat ->
  (j < np.shape1 g)%nat -> T <= item g (np.shape0 g - 1) j ->
  exists g',
    relax T (S fuel) g =
    (Raise (IndexError 0 (Z.of_nat (np.shape0 g)) (np.shape0 g)), g').
Proof.
  intros Hwf Hh Hj Hv.
  destruct (pass_prefix g T Hwf ltac:(lia)) as (p0 & p1 & p2 & E0 & E1 & E2).
  pose proof (where_ge_bounds g T Hwf ltac:(lia)) as Fb.
  apply (relax_raise_of_pass T g fuel (np.shape0 g - 1) j);
    [exact Hwf|lia|exact Hj|exact Hv|].
  apply (redistribute_Raise_down T _ g p0 p1 p2); try assumption.
  apply positions_beyond_rows.
  - apply Forall_shift. eapply Forall_impl; [|exact Fb]. simpl. lia.
  - unfold shift. rewrite <- list_fmap_compose. apply list_elem_of_fmap.
    exists (Z.of_nat (np.shape0 g - 1), Z.of_nat j). split; [simpl; lia|].
    apply where_ge_elem; [exact Hwf|lia|exact Hj|exact Hv].
Qed.

(** X6: [run] cannot relax a grid that has an unstable pile in its last
    row or in its last column: the pass that topples it raises
    [IndexError] for the lower neighbour, which is outside the array, or,
    with no such pile in the last row, for the right neighbour. *)
Theorem pass_raises_on_last_row_or_column :
  forall T g fuel,
    np.wf g -> (0 < np.shape0 g)%nat -> (0 < np.shape1 g)%nat ->
    ((exists j, (j < np.shape1 g)%nat /\ T <= item g (np.shape0 g - 1) j) ->
     exists g',
       relax T (S fuel) g =
       (Raise (IndexError 0 (Z.of_nat (np.shape0 g)) (np.shape0 g)), g')) /\
    ((forall j, (j < np.shape1 g)%nat -> item g (np.shape0 g - 1) j < T) ->
     (exists i, (i < np.shape0 g)%nat /\ T <= item g i (np.shape1 g - 1)) ->
     exists g',
       relax T (S fuel) g =
       (Raise (IndexError 1 (Z.of_nat (np.shape1 g)) (np.shape1 g)), g')).
Proof.
  intros T g fuel Hwf Hh Hw. split.
  - intros (j & Hj & Hv). now apply (relax_raises_last_row T g fuel j).
  - intros Hlast (i & Hi & Hv).
    set (h := np.shape0 g) in *. set (w := np.shape1 g) in *.
    destruct (pass_prefix g T Hwf Hw) as (p0 & p1 & p2 & E0 & E1 & E2).
    pose proof (where_ge_bounds g T Hwf Hw) as Fb. fold h w in Fb.
    apply (relax_raise_of_pass T g fuel i (w - 1)%nat);
      [exact Hwf|exact Hi|fold w; lia|exact Hv|].
    destruct (positions_total g (shift 1 0 (np.where_ge g T))) as [p3 E3].
    { apply Forall_shift. fold h w. apply Forall_forall.
      intros c Hc. apply list_elem_of_In in Hc.
      pose proof (where_ge_item g T c Hwf Hw Hc) as Hge.
      rewrite Forall_forall in Fb.
      pose proof (Fb c ltac:(now apply list_elem_of_In)) as [Hc1 Hc2]. simpl.
      destruct (Z.eq_dec (c.1 + 1) (Z.of_nat h)) as [Elast|]; [|lia].
      exfalso. specialize (Hlast (Z.to_nat c.2) ltac:(lia)).
      replace (Z.to_nat c.1) with (h - 1)%nat in Hge by lia. lia. }
    apply (redistribute_Raise_right T _ g p0 p1 p2 p3); try assumption.
    apply positions_beyond_columns.
    + apply Forall_shift. fold h w.
      eapply Forall_impl; [|exact Fb]. simpl. lia.
    + fold w. unfold shift. rewrite <- list_fmap_compose.
      apply list_elem_of_fmap.
      exists (Z.of_nat i, Z.of_nat (w - 1)). split; [simpl; lia|].
      apply where_ge_elem; [exact Hwf|exact Hi|fold w; lia|exact Hv].
Qed.

Lemma pass_raises_on_last_row_or_column_witness :
  (exists g',
     relax 4 1 (np.mk 3 3 [0;0;0; 0;0;0; 0;4;0]) =
     (Raise (IndexError 0 3 3), g')) /\
  (exists g',
     relax 4 1 (np.mk 3 3 [0;0;0; 0;0;4; 0;0;0]) =
     (Raise (IndexError 1 3 3), g')).
Proof.
  split.
  - apply (proj1 (pass_raises_on_last_row_or_column
                    4 (np.mk 3 3 [0;0;0; 0;0;0; 0;4;0]) 0
                    eq_refl ltac:(simpl; lia) ltac:(simpl; lia))).
    exists 1%nat. split; [simpl; lia|]. vm_compute. discriminate.
  - apply (proj2 (pass_raises_on_last_row_or_column
                    4 (np.mk 3 3 [0;0;0; 0;0;4; 0;0;0]) 0
                    eq_refl ltac:(simpl; lia) ltac:(simpl; lia))).
    + intros j Hj. simpl in Hj.
      destruct j as [|[|[|j]]]; [reflexivity|reflexivity|reflexivity|lia].
    + exists 1%nat. split; [simpl; lia|]. vm_compute. discriminate.
Defined.

(** ** [run] in direct mode *)

Lemma relax_passes_bound T :
  4 <= T ->
  forall fuel g k g',
    sandpile_grid g -> relax T fuel g = (Ok k, g') ->
    Z.of_nat k + potential g' <= potential g.
Proof.
  intros HT. induction fuel as [|fuel IH]; intros g k g' Hg E;
    rewrite relax_unfold in E;
    destruct (grid_has_max g Hg) as [m Em]; rewrite Em in E;
    destruct (Z.leb_spec T m) as [Hm|Hm];
    try (injection E as <- <-; simpl; lia); [discriminate|].
  destruct (pass_progress g T Hg HT (unstable_where g T m Em Hm))
    as (g1 & E1 & Hg1 & Hp1 & _).
  rewrite E1 in E.
  destruct (relax T fuel g1) as [[n| |] g2] eqn:E2; try discriminate.
  injection E as <- <-. specialize (IH g1 n g2 Hg1 E2). lia.
Qed.

(** X7: in direct mode [run] ends on every grid of the data model when
    the threshold is at least 4.  It makes at most as many passes as the
    weighted grain count [potential] of the grid says, and it leaves a
    stable grid of the data model, of the same shape, with no more grains
    than before. *)
Theorem run_direct_terminates :
  forall self draws,
    sandpile_grid (grid self) -> 4 <= max_grains self ->
    np.any (grid self) = true ->
    exists k self',
      (forall fuel, (Z.to_nat (potential (grid self)) < fuel)%nat ->
                    run self fuel draws = (Ok (Z.of_nat k), self')) /\
      Z.of_nat k <= potential (grid self) /\
      stable (max_grains self) (grid self') /\
      sandpile_grid (grid self') /\
      np.shape0 (grid self') = np.shape0 (grid self) /\
      np.shape1 (grid self') = np.shape1 (grid self) /\
      total (grid self') <= total (grid self).
Proof.
  intros self draws Hg HT Hany.
  pose proof (potential_nonneg _ Hg) as Hp.
  destruct (relax_terminates _ HT (S (Z.to_nat (potential (grid self))))
              (grid self) Hg ltac:(lia) _ (le_n _))
    as (k & g' & E & Hs & Hg' & Ht).
  destruct (relax_legal _ HT _ _ _ _ Hg E) as (_ & H0 & H1 & _).
  pose proof (relax_passes_bound _ HT _ _ _ _ Hg E) as Hk.
  pose proof (potential_nonneg _ Hg') as Hp'.
  exists k, (set_grid self g'). split.
  - intros fuel Hfuel. rewrite (run_direct _ _ _ Hany).
    rewrite (relax_fuel_mono _ _ _ _ _ E fuel) by lia. reflexivity.
  - split; [lia|]. cbn [set_grid grid max_grains]. tauto.
Qed.

Lemma run_direct_terminates_witness :
  exists k self',
    run (mkSandpile 4 10 false 5 5
           (np.mk 5 5 [0;0;0;0;0; 0;0;0;0;0; 0;0;16;0;0;
                       0;0;0;0;0; 0;0;0;0;0]))
        300 (fun _ => (0, 0)) = (Ok (Z.of_nat k), self') /\
    stable 4 (grid self').
Proof.
  destruct (run_direct_terminates
              (mkSandpile 4 10 false 5 5
                 (np.mk 5 5 [0;0;0;0;0; 0;0;0;0;0; 0;0;16;0;0;
                             0;0;0;0;0; 0;0;0;0;0]))
              (fun _ => (0, 0)))
    as (k & self' & E & _ & Hs & _).
  - data_model_grid.
  - simpl. lia.
  - reflexivity.
  - exists k, self'. split; [|exact Hs].
    apply E. vm_compute. lia.
Defined.

(** ** What [run] leaves when it returns *)

Lemma drive_step_Ok_stable T fuel rand g u g' :
  drive_step T fuel rand g = (Ok u, g') -> stable T g'.
Proof.
  intros E. apply drive_step_Ok_inv in E as (g1 & m & _ & Em & [[Hm ->]|[_ [n En]]]).
  - now exists m.
  - eapply relax_Ok_stable, En.
Qed.

Lemma automatic_Ok T fuel draws : forall n i it g k g',
  automatic T fuel draws n i it g = (Ok k, g') ->
  k = it + Z.of_nat n /\ (n = O /\ g' = g \/ stable T g').
Proof.
  induction n as [|n IH]; intros i it g k g' E.
  - injection E as <- <-. split; [lia|now left].
  - cbn [automatic] in E. apply bind_Ok_inv in E as (u & g1 & E1 & E2).
    destruct (IH _ _ _ _ _ E2) as [-> Hs]. split; [lia|]. right.
    destruct Hs as [[_ ->]|Hs]; [|exact Hs].
    eapply drive_step_Ok_stable, E1.
Qed.

Lemma run_Ok_stable self fuel draws k self' :
  run self fuel draws = (Ok k, self') ->
  np.any (grid self) = true \/ 0 < max_iterations self ->
  stable (max_grains self) (grid self').
Proof.
  intros E H. destruct (np.any (grid self)) eqn:Hany.
  - rewrite (run_direct _ _ _ Hany) in E.
    destruct (relax (max_grains self) fuel (grid self)) as [[n| |] g] eqn:Er;
      try discriminate.
    injection E as _ <-. cbn [set_grid grid]. eapply relax_Ok_stable, Er.
  - destruct H as [H|H]; [discriminate|].
    rewrite (run_automatic _ _ _ Hany) in E.
    destruct (automatic _ _ _ _ _ _ _) as [r g] eqn:Ea.
    injection E as -> <-. cbn [set_grid grid].
    destruct (automatic_Ok _ _ _ _ _ _ _ _ _ Ea) as [_ [[Hn _]|Hs]];
      [lia|exact Hs].
Qed.

(** X8: whenever [run] returns, in either mode, no cell of the grid it
    leaves holds [max_grains] or more (in automatic mode: provided the
    loop made a turn at all); in automatic mode it has then made exactly
    [max_iterations] turns. *)
Theorem run_returns_stable :
  forall self fuel draws k self',
    run self fuel draws = (Ok k, self') ->
    np.any (grid self) = true \/ 0 < max_iterations self ->
    stable (max_grains self) (grid self') /\
    (np.any (grid self) = false -> k = max_iterations self).
Proof.
  intros self fuel draws k self' E H.
  split; [exact (run_Ok_stable _ _ _ _ _ E H)|].
  intros Hany. destruct H as [H|H]; [congruence|].
  rewrite (run_automatic _ _ _ Hany) in E.
  destruct (automatic _ _ _ _ _ _ _) as [r g] eqn:Ea.
  injection E as -> <-.
  destruct (automatic_Ok _ _ _ _ _ _ _ _ _ Ea) as [-> _]. lia.
Qed.

Lemma run_returns_stable_witness :
  let empty := mkSandpile 4 5 false 3 3 (np.mk 3 3 [0;0;0; 0;0;0; 0;0;0]) in
  let driven := mkSandpile 4 5 false 3 3 (np.mk 3 3 [0;0;0; 0;1;0; 0;0;0]) in
  run empty 3 (fun _ => (1, 1)) = (Ok 5, driven) /\
  stable 4 (grid driven).
Proof.
  assert (E : run (mkSandpile 4 5 false 3 3 (np.mk 3 3 [0;0;0; 0;0;0; 0;0;0]))
                  3 (fun _ => (1, 1))
              = (Ok 5, mkSandpile 4 5 false 3 3
                         (np.mk 3 3 [0;0;0; 0;1;0; 0;0;0])))
    by (vm_compute; reflexivity).
  split; [exact E|].
  apply (run_returns_stable _ _ _ _ _ E). right. simpl. lia.
Defined.

(** X9: a second call of [run] on the object that a first call left does
    nothing, as long as that object still holds a grain: it makes no
    iteration and changes no cell.  (With no grain left the second call
    would start automatic mode.) *)
Theorem run_twice :
  forall self fuel draws k self' fuel' draws',
    run self fuel draws = (Ok k, self') ->
    np.any (grid self') = true ->
    run self' fuel' draws' = (Ok 0, self').
Proof.
  intros self fuel draws k self' fuel' draws' E Hany'.
  assert (Hmg : max_grains self' = max_grains self).
  { unfold run in E. destruct (run_body _ _ _ _) as [r g].
    injection E as _ <-. reflexivity. }
  assert (Hs : stable (max_grains self) (grid self')).
  { destruct (np.any (grid self)) eqn:Hany.
    - apply (run_Ok_stable _ _ _ _ _ E). now left.
    - destruct (Z_lt_le_dec 0 (max_iterations self)) as [Hit|Hit].
      + apply (run_Ok_stable _ _ _ _ _ E). now right.
      + rewrite (run_no_iteration _ _ _ Hany Hit) in E.
        injection E as _ <-. congruence. }
  destruct Hs as (m & Em & Hm).
  apply (run_direct_below_threshold _ _ _ m Hany' Em). lia.
Qed.

Lemma run_twice_witness :
  let rested := mkSandpile 4 10 false 3 4
                (np.mk 3 4 [0;0;0;0; 0;1;2;0; 0;0;0;0]) in
  run rested 0 (fun _ => (0, 0)) = (Ok 0, rested).
Proof.
  apply (run_twice
           (mkSandpile 4 10 false 3 4 (np.mk 3 4 [0;0;0;0; 0;5;1;0; 0;0;0;0]))
           3 (fun _ => (1, 1)) 1
           (mkSandpile 4 10 false 3 4 (np.mk 3 4 [0;0;0;0; 0;1;2;0; 0;0;0;0]))
           0 (fun _ => (0, 0))).
  - vm_compute. reflexivity.
  - reflexivity.
Defined.

(** ** The shape of the grid *)

Lemma same_shape_refl g : same_shape g g.
Proof. repeat split. Qed.

Lemma same_shape_trans g1 g2 g3 :
  same_shape g1 g2 -> same_shape g2 g3 -> same_shape g1 g3.
Proof. unfold same_shape. intros (?&?&?) (?&?&?). repeat split; congruence. Qed.

Lemma keeps_shape_ret {A} (a : A) : keeps_shape (ret a).
Proof. intros g r g' [= _ <-]. apply same_shape_refl. Qed.

Lemma keeps_shape_bind {A B} (m : M A) (k : A -> M B) :
  keeps_shape m -> (forall a, keeps_shape (k a)) -> keeps_shape (bind m k).
Proof.
  intros Hm Hk g r g' E. unfold bind in E.
  destruct (m g) as [[a| |] g1] eqn:Em.
  - eapply same_shape_trans; [exact (Hm _ _ _ Em)|exact (Hk _ _ _ _ E)].
  - injection E as _ <-. exact (Hm _ _ _ Em).
  - injection E as _ <-. exact (Hm _ _ _ Em).
Qed.

Lemma keeps_shape_pure {A} (f : np.ndarray -> res A) :
  keeps_shape (fun g => (f g, g)).
Proof. intros g r g' [= _ <-]. apply same_shape_refl. Qed.

Lemma keeps_shape_update f :
  (forall g g', f g = Ok g' -> same_shape g g') -> keeps_shape (update f).
Proof.
  intros Hf g r g' E. unfold update in E.
  destruct (f g) as [g1| |] eqn:Ef; injection E as _ <-;
    [exact (Hf _ _ Ef)|apply same_shape_refl|apply same_shape_refl].
Qed.

Lemma keeps_shape_assign xy vs : keeps_shape (assign xy vs).
Proof.
  apply keeps_shape_update. intros g g' E. unfold np.setitem in E.
  destruct (np.positions g xy) as [ps| |]; try discriminate.
  injection E as <-. repeat split. simpl. apply length_puts.
Qed.

Lemma keeps_shape_iadd xy vs : keeps_shape (iadd xy vs).
Proof.
  apply keeps_shape_bind; [apply keeps_shape_pure|].
  intros old. apply keeps_shape_assign.
Qed.

Lemma keeps_shape_redistribute T xy : keeps_shape (redistribute T xy).
Proof.
  apply keeps_shape_bind; [apply keeps_shape_pure|]. intros pile.
  repeat (apply keeps_shape_bind; [|intros _]);
    first [apply keeps_shape_assign|apply keeps_shape_iadd].
Qed.

Lemma keeps_shape_border_case : keeps_shape border_case.
Proof.
  unfold border_case.
  repeat (apply keeps_shape_bind; [|intros _]);
    apply keeps_shape_update; intros g g' E;
    unfold np.setrow, np.setcol in E;
    destruct (np.check_index _ _ _); try discriminate;
    injection E as <-; repeat split; simpl; apply length_imap.
Qed.

Lemma keeps_shape_topple T xy : keeps_shape (topple T xy).
Proof.
  apply keeps_shape_bind; [apply keeps_shape_redistribute|].
  intros _. apply keeps_shape_border_case.
Qed.

Lemma keeps_shape_relax T : forall fuel, keeps_shape (relax T fuel).
Proof.
  induction fuel as [|fuel IH]; cbn [relax];
    (apply keeps_shape_bind; [apply keeps_shape_pure|]); intros m;
    destruct (T <=? m); try apply keeps_shape_ret.
  - apply keeps_shape_pure.
  - apply keeps_shape_bind; [apply keeps_shape_pure|]. intros xy.
    apply keeps_shape_bind; [apply keeps_shape_topple|]. intros _.
    apply keeps_shape_bind; [exact IH|]. intros n. apply keeps_shape_ret.
Qed.

Lemma keeps_shape_drive_step T fuel rand : keeps_shape (drive_step T fuel rand).
Proof.
  unfold drive_step.
  apply keeps_shape_bind; [apply keeps_shape_iadd|]. intros _.
  apply keeps_shape_bind; [apply keeps_shape_pure|]. intros m.
  destruct (T <=? m); [|apply keeps_shape_ret].
  apply keeps_shape_bind; [apply keeps_shape_relax|]. intros _.
  apply keeps_shape_ret.
Qed.

Lemma keeps_shape_automatic T fuel draws : forall n i it,
  keeps_shape (automatic T fuel draws n i it).
Proof.
  induction n as [|n IH]; intros i it; cbn [automatic].
  - apply keeps_shape_ret.
  - apply keeps_shape_bind; [apply keeps_shape_drive_step|].
    intros _. apply IH.
Qed.

Lemma keeps_shape_run_body self fuel draws :
  keeps_shape (run_body self fuel draws).
Proof.
  unfold run_body.
  apply keeps_shape_bind; [apply keeps_shape_pure|]. intros nonzero.
  destruct (negb nonzero); [apply keeps_shape_automatic|].
  apply keeps_shape_bind; [apply keeps_shape_relax|]. intros n.
  apply keeps_shape_ret.
Qed.

(** X10: whatever [run] does (return, raise, or loop on) it never
    resizes the grid: the array it leaves has the shape and the number of
    cells of the array it found, and [height], [width] and the threshold
    of the object are the same. *)
Theorem run_keeps_shape :
  forall self fuel draws,
    let self' := (run self fuel draws).2 in
    np.shape0 (grid self') = np.shape0 (grid self) /\
    np.shape1 (grid self') = np.shape1 (grid self) /\
    length (np.data (grid self')) = length (np.data (grid self)) /\
    height self' = height self /\ width self' = width self /\
    max_grains self' = max_grains self.
Proof.
  intros self fuel draws. unfold run.
  destruct (run_body self fuel draws (grid self)) as [r g] eqn:E.
  destruct (keeps_shape_run_body _ _ _ _ _ _ E) as (H0 & H1 & Hl).
  cbn [snd set_grid grid height width max_grains]. tauto.
Qed.

(** ** A threshold that is not positive *)

Lemma topple_Ok_first_cell T xy g u g' :
  topple T xy g = (Ok u, g') -> np.data g <> [] ->
  exists d, np.data g' = 0 :: d.
Proof.
  intros E Hne.
  pose proof (keeps_shape_topple _ _ _ _ _ E) as (_ & _ & Hl).
  pose proof (topple_border_is_zero _ _ _ _ _ E) as Hb.
  apply topple_Ok_inv in E as (gm & _ & E).
  apply border_case_Ok_inv in E as (Hh & Hw & ->).
  specialize (Hb 0%nat). cbn [reshape np.shape0 np.shape1 np.data] in *.
  destruct (clear_border _ _ _) as [|v d].
  - destruct (np.data g); [contradiction|discriminate].
  - exists d. f_equal. apply Hb. unfold on_border.
    rewrite Nat.Div0.div_0_l. reflexivity.
Qed.

Lemma relax_never_returns T :
  T <= 0 ->
  forall fuel g m,
    np.max g = Ok m -> T <= m ->
    forall k g', relax T fuel g <> (Ok k, g').
Proof.
  intros HT. induction fuel as [|fuel IH]; intros g m Em Hm k g' E;
    rewrite relax_unfold, Em in E;
    destruct (Z.leb_spec T m); try lia; [discriminate|].
  destruct (topple T (np.where_ge g T) g) as [[u| |] g1] eqn:E1;
    try discriminate.
  destruct (topple_Ok_first_cell _ _ _ _ _ E1) as [d Ed].
  { unfold np.max in Em. destruct (np.data g); [discriminate|congruence]. }
  destruct (relax T fuel g1) as [[n| |] g2] eqn:E2; try discriminate.
  apply (IH g1 (foldl Z.max 0 d)) in E2; [exact E2| |].
  - unfold np.max. now rewrite Ed.
  - pose proof (foldl_max_ge d 0 0 ltac:(now left)). lia.
Qed.

(** X11: with a threshold of 0 or less, [run] in direct mode never
    returns once some cell is at or above the threshold: each pass ends by
    emptying the border, so the maximum never falls below 0.  The call
    loops for ever or, with a pile in the last row or column, raises. *)
Theorem run_nonpositive_threshold_never_returns :
  forall self fuel draws m,
    max_grains self <= 0 ->
    np.any (grid self) = true ->
    np.max (grid self) = Ok m -> max_grains self <= m ->
    forall k self', run self fuel draws <> (Ok k, self').
Proof.
  intros self fuel draws m HT Hany Em Hm k self' E.
  rewrite (run_direct _ _ _ Hany) in E.
  destruct (relax (max_grains self) fuel (grid self)) as [[n| |] g] eqn:Er;
    try discriminate.
  exact (relax_never_returns _ HT _ _ _ Em Hm _ _ Er).
Qed.

Lemma run_nonpositive_threshold_never_returns_witness :
  run (mkSandpile 0 10 false 3 3 (np.mk 3 3 [0;0;0; 0;2;0; 0;0;0]))
      50 (fun _ => (0, 0)) <>
  (Ok 50, mkSandpile 0 10 false 3 3 (np.mk 3 3 [0;0;0; 0;0;0; 0;0;0])).
Proof.
  apply (run_nonpositive_threshold_never_returns
           (mkSandpile 0 10 false 3 3 (np.mk 3 3 [0;0;0; 0;2;0; 0;0;0]))
           50 (fun _ => (0, 0)) 2); [simpl; lia|reflexivity|reflexivity|simpl; lia].
Defined.

(** ** Automatic mode: grains that land on the border *)

Lemma max_lt_threshold g T :
  np.data g <> [] -> Forall (fun v => v < T) (np.data g) ->
  exists m, np.max g = Ok m /\ m < T.
Proof.
  intros Hne F. unfold np.max. destruct (np.data g) as [|v d]; [contradiction|].
  apply list.Forall_cons in F as [Hv F].
  eexists. split; [reflexivity|]. now apply foldl_max_lt.
Qed.

Lemma iadd_one g x y :
  0 <= x < Z.of_nat (np.shape0 g) -> 0 <= y < Z.of_nat (np.shape1 g) ->
  let p := (Z.to_nat x * np.shape1 g + Z.to_nat y)%nat in
  iadd [(x, y)] [1] g =
  (Ok tt,
   reshape g (<[p := int64.add (np.cell (np.data g) p) 1]> (np.data g))).
Proof.
  intros Hx Hy. cbv zeta.
  rewrite (iadd_Ok _ _ _ [(Z.to_nat x * np.shape1 g + Z.to_nat y)%nat]);
    [reflexivity|].
  rewrite positions_single, !check_index_nonneg by lia. reflexivity.
Qed.

(** One turn of the loop of automatic mode, for a draw inside the
    array. *)
Lemma drive_step_drop T fuel x y g :
  0 <= x < Z.of_nat (np.shape0 g) -> 0 <= y < Z.of_nat (np.shape1 g) ->
  let p := (Z.to_nat x * np.shape1 g + Z.to_nat y)%nat in
  let g1 :=
    reshape g (<[p := int64.add (np.cell (np.data g) p) 1]> (np.data g)) in
  drive_step T fuel (x, y) g =
  match np.max g1 with
  | Ok m =>
      if T <=? m then
        match relax T fuel g1 with
        | (Ok _, g') => (Ok tt, g')
        | (Raise e, g') => (Raise e, g')
        | (OutOfFuel, g') => (OutOfFuel, g')
        end
      else (Ok tt, g1)
  | Raise e => (Raise e, g1)
  | OutOfFuel => (OutOfFuel, g1)
  end.
Proof.
  intros Hx Hy. cbv zeta. unfold drive_step. cbn [fst snd].
  rewrite (bind_Ok _ _ _ _ _ (iadd_one g x y Hx Hy)).
  unfold bind, np_max, ret.
  destruct (np.max _) as [m| |]; try reflexivity.
  destruct (T <=? m); reflexivity.
Qed.

Lemma wf_insert g p v : np.wf g -> np.wf (reshape g (<[p := v]> (np.data g))).
Proof. intros H. unfold np.wf, reshape. simpl. now rewrite length_insert. Qed.

(** Grains dropped again and again on one cell of the last row: when the
    cell reaches the threshold, the pass that topples it raises. *)
Lemma automatic_fills_last_row T fuel draws y : forall m n i it g,
  np.wf g -> (0 < np.shape0 g)%nat ->
  0 <= y < Z.of_nat (np.shape1 g) -> T < 2 ^ 63 ->
  Forall (fun v => - 2 ^ 63 <= v < T) (np.data g) ->
  item g (np.shape0 g - 1) (Z.to_nat y) = T - Z.of_nat (S m) ->
  (m < n)%nat ->
  (forall k, (k <= m)%nat ->
             draws (i + k)%nat = (Z.of_nat (np.shape0 g) - 1, y)) ->
  exists g',
    automatic T (S fuel) draws n i it g =
    (Raise (IndexError 0 (Z.of_nat (np.shape0 g)) (np.shape0 g)), g').
Proof.
  induction m as [|m IH]; intros n i it g Hwf Hh Hy HT F Hv Hn Hd.
  all: destruct n as [|n]; [lia|]; cbn [automatic].
  all: pose proof (Hd 0%nat ltac:(lia)) as Hd0; rewrite Nat.add_0_r in Hd0.
  all: rewrite Hd0.
  all: pose proof (drive_step_drop T (S fuel) (Z.of_nat (np.shape0 g) - 1) y g
                     ltac:(lia) Hy) as Es; cbv zeta in Es.
  all: replace (Z.to_nat (Z.of_nat (np.shape0 g) - 1))
         with (np.shape0 g - 1)%nat in Es by lia.
  all: set (p := ((np.shape0 g - 1) * np.shape1 g + Z.to_nat y)%nat) in *.
  all: assert (Hp : (p < length (np.data g))%nat)
         by (rewrite Hwf; apply position_bound; lia).
  all: pose proof (Forall_cell _ _ p F Hp) as Hr; cbv beta in Hr.
  all: assert (Hc : int64.add (np.cell (np.data g) p) 1
                    = np.cell (np.data g) p + 1)
         by (unfold int64.add; apply wrap_in_range;
             unfold int64.in_range; lia).
  all: rewrite Hc in Es.
  all: set (g1 := reshape g (<[p := np.cell (np.data g) p + 1]> (np.data g)))
         in *.
  all: assert (Hwf1 : np.wf g1) by now apply wf_insert.
  all: assert (Hv1 : item g1 (np.shape0 g - 1) (Z.to_nat y)
                     = np.cell (np.data g) p + 1)
         by (unfold item, g1, reshape; cbn [np.data np.shape1]; fold p;
             now rewrite cell_insert_eq).
  all: unfold item in Hv; fold p in Hv.
  - destruct (relax_raises_last_row T g1 fuel (Z.to_nat y) Hwf1 Hh)
      as [g' Eg'].
    { simpl. lia. }
    { change (np.shape0 g1) with (np.shape0 g). rewrite Hv1. lia. }
    destruct (max_ge_item g1 (np.shape0 g - 1) (Z.to_nat y) Hwf1)
      as (mx & Em & Hmx); [simpl; lia|simpl; lia|].
    exists g'. rewrite (bind_Raise _ _ _
                         (IndexError 0 (Z.of_nat (np.shape0 g)) (np.shape0 g))
                         g'); [reflexivity|].
    rewrite Es, Em. destruct (Z.leb_spec T mx); [|lia].
    change (np.shape0 g1) with (np.shape0 g) in Eg'. now rewrite Eg'.
  - assert (F1 : Forall (fun v => - 2 ^ 63 <= v < T) (np.data g1)).
    { unfold g1, reshape. cbn [np.data]. apply Forall_insert; [exact F|]. lia. }
    destruct (max_lt_threshold g1 T) as (mx & Em & Hmx).
    { unfold g1, reshape. cbn [np.data]. intros E.
      apply (f_equal length) in E. rewrite length_insert in E.
      simpl in E. lia. }
    { eapply Forall_impl; [|exact F1]. simpl. lia. }
    destruct (IH n (S i) (it + 1) g1) as [g' Eg']; try assumption.
    + change (np.shape0 g1) with (np.shape0 g). rewrite Hv1. lia.
    + lia.
    + intros k Hk. change (np.shape0 g1) with (np.shape0 g).
      rewrite <- (Hd (S k)) by lia. f_equal. lia.
    + exists g'. rewrite (bind_Ok _ _ _ tt g1).
      * exact Eg'.
      * rewrite Es, Em. destruct (Z.leb_spec T mx); [lia|]. reflexivity.
Qed.

(** X12: automatic mode can fail on any grid, square ones included.
    Grains that land on a cell of the last row stay there until some pass
    empties the border; if the first [max_grains] grains all land on one
    such cell, the cell reaches the threshold and toppling it raises
    [IndexError], which ends [run]. *)
Theorem run_raises_when_last_row_fills :
  forall self fuel draws y,
    np.wf (grid self) -> (0 < np.shape0 (grid self))%nat ->
    np.any (grid self) = false ->
    0 <= y < Z.of_nat (np.shape1 (grid self)) ->
    1 <= max_grains self < 2 ^ 63 ->
    max_grains self <= max_iterations self ->
    (forall i, Z.of_nat i < max_grains self ->
               draws i = (Z.of_nat (np.shape0 (grid self)) - 1, y)) ->
    exists self',
      run self (S fuel) draws =
      (Raise (IndexError 0 (Z.of_nat (np.shape0 (grid self)))
                         (np.shape0 (grid self))), self').
Proof.
  intros self fuel draws y Hwf Hh Hany Hy HT Hit Hd.
  rewrite (run_automatic _ _ _ Hany).
  pose proof (proj1 (any_false_zero _) Hany) as Hz.
  destruct (automatic_fills_last_row (max_grains self) fuel draws y
              (Z.to_nat (max_grains self) - 1)
              (Z.to_nat (max_iterations self)) 0 0 (grid self))
    as [g' Eg']; try assumption; try lia.
  - eapply Forall_impl; [|exact Hz]. simpl. lia.
  - unfold item, np.cell.
    destruct (np.data (grid self) !! _) as [v|] eqn:Ev; simpl; [|lia].
    rewrite Forall_lookup in Hz. rewrite (Hz _ _ Ev). lia.
  - intros k Hk. apply Hd. lia.
  - rewrite Eg'. eauto.
Qed.

Lemma run_raises_when_last_row_fills_witness :
  let self := mkSandpile 4 1000000 false 3 3
                (np.mk 3 3 [0;0;0; 0;0;0; 0;0;0]) in
  drawn self (2, 2) /\
  exists self',
    run self 1 (fun _ => (2, 2)) = (Raise (IndexError 0 3 3), self').
Proof.
  split; [unfold drawn; simpl; lia|].
  apply (run_raises_when_last_row_fills
           (mkSandpile 4 1000000 false 3 3 (np.mk 3 3 [0;0;0; 0;0;0; 0;0;0]))
           0 (fun _ => (2, 2)) 2);
    [reflexivity|simpl; lia|reflexivity|simpl; lia|simpl; lia|simpl; lia|].
  intros i _. reflexivity.
Defined.

(** ** Automatic mode: grains that land in the interior *)

Lemma wsum_from_zero wt : forall d k,
  Forall (fun v => v = 0) d -> wsum_from wt k d = 0.
Proof.
  induction d as [|v d IH]; intros k F; [reflexivity|].
  apply list.Forall_cons in F as [-> F]. simpl. rewrite (IH _ F). lia.
Qed.

Lemma zero_grid_sandpile g :
  np.wf g -> (0 < np.shape0 g)%nat -> (0 < np.shape1 g)%nat ->
  np.any g = false ->
  sandpile_grid g /\ total g = 0.
Proof.
  intros Hwf Hh Hw Hany. apply any_false_zero in Hany.
  assert (Ht : total g = 0) by now apply wsum_from_zero.
  split; [|exact Ht].
  split; [exact Hwf|]. split; [exact Hh|]. split; [exact Hw|].
  split; [eapply Forall_impl; [|exact Hany]; simpl; lia|].
  split; [|rewrite Ht; lia].
  intros p _. unfold np.cell.
  destruct (np.data g !! p) as [v|] eqn:Ev; [|reflexivity].
  rewrite Forall_lookup in Hany. exact (Hany _ _ Ev).
Qed.

Lemma wsum_from_le wt B : forall d k,
  (forall p, (k <= p < k + length d)%nat -> wt p <= B) ->
  Forall (fun v => 0 <= v) d ->
  wsum_from wt k d <= B * wsum_from (fun _ => 1) k d.
Proof.
  induction d as [|v d IH]; intros k Hw F; simpl; [lia|].
  apply list.Forall_cons in F as [Hv F].
  assert (wsum_from wt (S k) d <= B * wsum_from (fun _ => 1) (S k) d).
  { apply IH; [|exact F]. intros p Hp. apply Hw. simpl. lia. }
  assert (wt k <= B) by (apply Hw; simpl; lia).
  nia.
Qed.

Lemma weight_le h w p :
  (p < h * w)%nat ->
  weight h w p <= Z.of_nat h * Z.of_nat h * (Z.of_nat w * Z.of_nat w).
Proof.
  intros Hp. unfold weight.
  assert (0 < w)%nat by (destruct w; lia).
  pose proof (Nat.mod_upper_bound p w ltac:(lia)).
  assert (p / w < h)%nat by (apply Nat.Div0.div_lt_upper_bound; lia).
  apply Z.mul_le_mono_nonneg; nia.
Qed.

Lemma potential_le g :
  sandpile_grid g ->
  potential g <=
  Z.of_nat (np.shape0 g) * Z.of_nat (np.shape0 g)
  * (Z.of_nat (np.shape1 g) * Z.of_nat (np.shape1 g)) * total g.
Proof.
  intros (Hwf & _ & _ & Hnn & _ & _). unfold potential, total, wsum.
  apply wsum_from_le; [|exact Hnn].
  intros p Hp. apply weight_le. rewrite <- Hwf. lia.
Qed.

Lemma inside_off_border h w i j :
  inside h w i j -> on_border h w (i * w + j) = false.
Proof.
  intros (Hi & Hi' & Hj & Hj'). unfold on_border.
  destruct (divmod_position w i j ltac:(lia)) as [-> ->].
  repeat (apply orb_false_iff; split); apply Nat.eqb_neq; lia.
Qed.

(** A grain dropped on an interior cell of a grid of the data model,
    and the relaxation that follows. *)
Lemma drive_step_interior T fuel x y g :
  4 <= T -> sandpile_grid g -> total g + 1 < 2 ^ 63 ->
  inside (np.shape0 g) (np.shape1 g) (Z.to_nat x) (Z.to_nat y) ->
  (Z.to_nat (Z.of_nat (np.shape0 g) * Z.of_nat (np.shape0 g)
             * (Z.of_nat (np.shape1 g) * Z.of_nat (np.shape1 g))
             * (total g + 1)) < fuel)%nat ->
  exists g',
    drive_step T fuel (x, y) g = (Ok tt, g') /\
    sandpile_grid g' /\
    np.shape0 g' = np.shape0 g /\ np.shape1 g' = np.shape1 g /\
    total g' <= total g + 1.
Proof.
  intros HT Hg Htot (Hx & Hx' & Hy & Hy') Hfuel.
  pose proof Hg as (Hwf & Hh & Hw & Hnn & Hb & _).
  rewrite drive_step_drop by lia. cbv zeta.
  set (p := (Z.to_nat x * np.shape1 g + Z.to_nat y)%nat).
  assert (Hp : (p < length (np.data g))%nat)
    by (rewrite Hwf; apply position_bound; lia).
  destruct (bump_cell (fun _ => 1) (total g + 1) (np.data g) p 1 Hp)
    as [Hsum Hall]; [|lia|lia|].
  { eapply Forall_impl; [|apply (Forall_le_total _ Hnn)].
    simpl. unfold total, wsum. lia. }
  set (g1 := reshape g _).
  assert (Hg1 : sandpile_grid g1).
  { split; [now apply wf_insert|]. split; [exact Hh|]. split; [exact Hw|].
    split; [eapply Forall_impl; [|exact Hall]; simpl; lia|].
    split.
    - intros q Hq. unfold g1, reshape in *. cbn [np.data np.shape0 np.shape1] in *.
      rewrite cell_insert_ne; [now apply Hb|].
      intros <-. unfold p in Hq.
      rewrite inside_off_border in Hq; [discriminate|].
      unfold inside. lia.
    - unfold total, g1, reshape. cbn [np.data]. rewrite Hsum.
      fold (total g). lia. }
  assert (Ht1 : total g1 = total g + 1).
  { unfold total, g1, reshape. cbn [np.data]. rewrite Hsum.
    fold (total g). lia. }
  destruct (grid_has_max g1 Hg1) as [m Em]. rewrite Em.
  destruct (Z.leb_spec T m).
  - pose proof (potential_le g1 Hg1) as Hpl.
    pose proof (potential_nonneg g1 Hg1) as Hp0.
    change (np.shape0 g1) with (np.shape0 g) in Hpl.
    change (np.shape1 g1) with (np.shape1 g) in Hpl.
    rewrite Ht1 in Hpl.
    destruct (relax_terminates T HT (S (Z.to_nat (potential g1))) g1 Hg1
                ltac:(lia) fuel ltac:(lia))
      as (k & g' & E & _ & Hg' & Ht').
    pose proof (keeps_shape_relax _ _ _ _ _ E) as (H0 & H1 & _).
    rewrite E. exists g'. split; [reflexivity|]. split; [exact Hg'|].
    split; [exact H0|]. split; [exact H1|]. lia.
  - exists g1. split; [reflexivity|]. split; [exact Hg1|].
    split; [reflexivity|]. split; [reflexivity|]. lia.
Qed.

Lemma automatic_interior T fuel draws : 4 <= T -> forall n i it g,
  sandpile_grid g -> total g + Z.of_nat n < 2 ^ 63 ->
  (forall k, inside (np.shape0 g) (np.shape1 g)
                    (Z.to_nat (draws k).1) (Z.to_nat (draws k).2)) ->
  (Z.to_nat (Z.of_nat (np.shape0 g) * Z.of_nat (np.shape0 g)
             * (Z.of_nat (np.shape1 g) * Z.of_nat (np.shape1 g))
             * (total g + Z.of_nat n)) < fuel)%nat ->
  exists g',
    automatic T fuel draws n i it g = (Ok (it + Z.of_nat n), g') /\
    sandpile_grid g' /\
    np.shape0 g' = np.shape0 g /\ np.shape1 g' = np.shape1 g /\
    total g' <= total g + Z.of_nat n.
Proof.
  intros HT. induction n as [|n IH]; intros i it g Hg Htot Hd Hfuel.
  - exists g. cbn [automatic]. unfold ret. rewrite Z.add_0_r.
    split; [reflexivity|]. split; [exact Hg|].
    split; [reflexivity|]. split; [reflexivity|]. lia.
  - cbn [automatic].
    pose proof Hg as (_ & _ & _ & Hnn & _ & _).
    assert (Ht0 : 0 <= total g) by (apply wsum_from_nonneg; [lia|exact Hnn]).
    set (B := Z.of_nat (np.shape0 g) * Z.of_nat (np.shape0 g)
              * (Z.of_nat (np.shape1 g) * Z.of_nat (np.shape1 g))) in *.
    assert (HB : 0 <= B) by (unfold B; nia).
    destruct (drive_step_interior T fuel (draws i).1 (draws i).2 g HT Hg
                ltac:(lia) (Hd i))
      as (g1 & E1 & Hg1 & H0 & H1 & Ht1).
    { fold B. nia. }
    rewrite <- surjective_pairing in E1.
    rewrite (bind_Ok _ _ _ _ _ E1).
    pose proof Hg1 as (_ & _ & _ & Hnn1 & _ & _).
    assert (Ht10 : 0 <= total g1)
      by (apply wsum_from_nonneg; [lia|exact Hnn1]).
    destruct (IH (S i) (it + 1) g1 Hg1 ltac:(lia)) as (g' & E & Hg' & H0' & H1' & Ht').
    + rewrite H0, H1. exact Hd.
    + rewrite H0, H1. fold B. nia.
    + exists g'. split; [rewrite E; do 2 f_equal; lia|].
      split; [exact Hg'|]. split; [congruence|]. split; [congruence|]. lia.
Qed.

(** X13: when every grain lands in the interior of the grid, automatic
    mode ends (threshold at least 4): [run] makes its [max_iterations]
    turns and leaves a stable grid of the data model that holds at most
    [max_iterations] grains. *)
Theorem run_automatic_interior_draws :
  forall self fuel draws,
    let h := np.shape0 (grid self) in
    let w := np.shape1 (grid self) in
    np.wf (grid self) -> (0 < h)%nat -> (0 < w)%nat ->
    np.any (grid self) = false ->
    4 <= max_grains self ->
    0 < max_iterations self < 2 ^ 63 ->
    (forall i, inside h w (Z.to_nat (draws i).1) (Z.to_nat (draws i).2)) ->
    (Z.to_nat (Z.of_nat h * Z.of_nat h * (Z.of_nat w * Z.of_nat w)
               * max_iterations self) < fuel)%nat ->
    exists self',
      run self fuel draws = (Ok (max_iterations self), self') /\
      stable (max_grains self) (grid self') /\
      sandpile_grid (grid self') /\
      total (grid self') <= max_iterations self.
Proof.
  intros self fuel draws h w Hwf Hh Hw Hany HT Hit Hd Hfuel.
  destruct (zero_grid_sandpile _ Hwf Hh Hw Hany) as [Hg Ht].
  rewrite (run_automatic _ _ _ Hany).
  destruct (automatic_interior (max_grains self) fuel draws HT
              (Z.to_nat (max_iterations self)) 0 0 (grid self) Hg)
    as (g' & E & Hg' & _ & _ & Ht'); [lia|exact Hd| |].
  { rewrite Ht, Z2Nat.id by lia. exact Hfuel. }
  rewrite E. exists (set_grid self g').
  split; [do 2 f_equal; lia|]. cbn [set_grid grid].
  split; [|split; [exact Hg'|lia]].
  destruct (automatic_Ok _ _ _ _ _ _ _ _ _ E) as [_ [[Hn _]|Hs]];
    [lia|exact Hs].
Qed.

Lemma run_automatic_interior_draws_witness :
  exists self',
    run (mkSandpile 4 6 false 3 3 (np.mk 3 3 [0;0;0; 0;0;0; 0;0;0]))
        500 (fun _ => (1, 1)) = (Ok 6, self') /\
    stable 4 (grid self').
Proof.
  destruct (run_automatic_interior_draws
              (mkSandpile 4 6 false 3 3 (np.mk 3 3 [0;0;0; 0;0;0; 0;0;0]))
              500 (fun _ => (1, 1)))
    as (self' & E & Hs & _);
    [reflexivity|simpl; lia|simpl; lia|reflexivity|simpl; lia|simpl; lia| | |].
  - intros _. unfold inside. simpl. lia.
  - vm_compute. lia.
  - exists self'. split; [exact E|exact Hs].
Defined.

(** ** [__add__] *)

Lemma broadcast_dim_comm m n : np.broadcast_dim m n = np.broadcast_dim n m.
Proof.
  unfold np.broadcast_dim.
  destruct (Nat.eqb_spec m n), (Nat.eqb_spec n m), (Nat.eqb_spec m 1),
    (Nat.eqb_spec n 1); subst; try reflexivity; congruence.
Qed.

Lemma np_add_comm a b : np.add a b = np.add b a.
Proof.
  unfold np.add.
  rewrite (broadcast_dim_comm (np.shape0 a)), (broadcast_dim_comm (np.shape1 a)).
  destruct (np.broadcast_dim _ _) as [h|]; [|reflexivity].
  destruct (np.broadcast_dim _ _) as [w|]; [|reflexivity].
  now rewrite zip_add_comm.
Qed.

Lemma add_unfold self other fuel draws sum :
  0 <= height self -> 0 <= width self ->
  np.add (grid self) (grid other) = Ok sum ->
  __add__ self other fuel draws =
  match run (mkSandpile default_grains default_max_timesteps
                        default_live_view (height self) (width self) sum)
            fuel draws with
  | (Ok _, result') => AddReturned result'
  | (Raise (ValueError _), _) =>
      AddPrinted "ValueError: grid sizes must match"
  | (Raise e, _) => AddRaised e
  | (OutOfFuel, _) => AddOutOfFuel
  end.
Proof.
  intros Hh Hw E. unfold __add__, __init__, np.zeros.
  destruct (Z.ltb_spec (height self) 0); [lia|].
  destruct (Z.ltb_spec (width self) 0); [lia|].
  cbn [orb res_bind]. rewrite E. reflexivity.
Qed.

(** X14: [__add__] is commutative: for two objects with the same [height]
    and [width], [a + b] and [b + a] do the same, whatever the shapes of
    the two grids (equal, broadcast, or refused). *)
Theorem add_commutes :
  forall self other fuel draws,
    height self = height other -> width self = width other ->
    __add__ self other fuel draws = __add__ other self fuel draws.
Proof.
  intros self other fuel draws Hh Hw. unfold __add__.
  now rewrite Hh, Hw, (np_add_comm (grid self)).
Qed.

Lemma add_commutes_witness :
  let a := mkSandpile 4 10 false 3 3 (np.mk 3 3 [0;0;0; 0;3;0; 0;0;0]) in
  let b := mkSandpile 8 20 true 3 3 (np.mk 1 3 [0;2;0]) in
  __add__ a b 5 (fun _ => (1, 1)) = __add__ b a 5 (fun _ => (1, 1)).
Proof.
  apply (add_commutes
           (mkSandpile 4 10 false 3 3 (np.mk 3 3 [0;0;0; 0;3;0; 0;0;0]))
           (mkSandpile 8 20 true 3 3 (np.mk 1 3 [0;2;0]))
           5 (fun _ => (1, 1))); reflexivity.
Defined.

Lemma total_pos_any g : 0 < total g -> np.any g = true.
Proof.
  intros Ht. destruct (np.any g) eqn:Hany; [reflexivity|].
  apply any_false_zero in Hany.
  unfold total, wsum in Ht. rewrite wsum_from_zero in Ht by exact Hany. lia.
Qed.

(** X15: the sum of two grids of the data model that have the same shape
    and hold a grain between them is always relaxed to the end:
    [__add__] returns, with the default threshold 4 whatever the
    thresholds of the operands, and the object it has built holds a
    stable grid of the data model with no more grains than the two
    operands together. *)
Theorem add_returns_stable_sum :
  forall self other draws,
    let a := grid self in
    let b := grid other in
    sandpile_grid a -> sandpile_grid b ->
    np.shape0 a = np.shape0 b -> np.shape1 a = np.shape1 b ->
    0 < total a + total b < 2 ^ 63 ->
    0 <= height self -> 0 <= width self ->
    exists N result,
      (forall fuel, (N <= fuel)%nat ->
                    __add__ self other fuel draws = AddReturned result) /\
      max_grains result = 4 /\
      height result = height self /\ width result = width self /\
      stable 4 (grid result) /\ sandpile_grid (grid result) /\
      np.shape0 (grid result) = np.shape0 a /\
      np.shape1 (grid result) = np.shape1 a /\
      total (grid result) <= total a + total b.
Proof.
  intros self other draws a b Ha Hb H0 H1 Ht Hh Hw.
  destruct (np.add a b) as [s| |] eqn:Es;
    try (destruct (add_sandpile_grids a b Ha Hb H0 H1 ltac:(lia))
           as (s' & Es' & _); congruence).
  destruct (add_items a b s Ha Hb H0 H1 ltac:(lia) Es)
    as (Hs & Hts & Hs0 & Hs1 & _).
  destruct (relax_returns 4 s ltac:(lia) Hs)
    as (N & k & g' & E & Hst & Hg' & G0 & G1 & Htg).
  exists N, (mkSandpile default_grains default_max_timesteps
                        default_live_view (height self) (width self) g').
  split.
  - intros fuel Hfuel. rewrite (add_unfold _ _ _ _ s Hh Hw Es).
    rewrite run_direct by (apply total_pos_any; cbn [grid]; lia).
    cbn [grid max_grains set_grid]. unfold default_grains.
    now rewrite (relax_fuel_mono _ _ _ _ _ E fuel Hfuel).
  - cbn [grid max_grains height width].
    repeat (split; [first [reflexivity|assumption|congruence]|]). lia.
Qed.

Lemma add_returns_stable_sum_witness :
  exists N result,
    (forall fuel, (N <= fuel)%nat ->
       __add__ (mkSandpile 8 10 false 3 3 (np.mk 3 3 [0;0;0; 0;3;0; 0;0;0]))
               (mkSandpile 4 10 false 3 3 (np.mk 3 3 [0;0;0; 0;2;0; 0;0;0]))
               fuel (fun _ => (1, 1)) = AddReturned result) /\
    stable 4 (grid result).
Proof.
  destruct (add_returns_stable_sum
              (mkSandpile 8 10 false 3 3 (np.mk 3 3 [0;0;0; 0;3;0; 0;0;0]))
              (mkSandpile 4 10 false 3 3 (np.mk 3 3 [0;0;0; 0;2;0; 0;0;0]))
              (fun _ => (1, 1)))
    as (N & result & E & _ & _ & _ & Hs & _);
    [data_model_grid|data_model_grid|reflexivity|reflexivity
    |vm_compute; split; reflexivity|simpl; lia|simpl; lia|].
  exists N, result. split; [exact E|exact Hs].
Defined.

Lemma zip_add_zero : forall d z,
  Forall int64.in_range d -> Forall (fun v => v = 0) z ->
  length z = length d ->
  zip_with int64.add d z = d.
Proof.
  induction d as [|v d IH]; intros [|x z] Fd Fz Hl; try discriminate;
    [reflexivity|].
  apply list.Forall_cons in Fd as [Hv Fd].
  apply list.Forall_cons in Fz as [-> Fz].
  simpl. unfold int64.add at 1. rewrite Z.add_0_r, wrap_in_range by exact Hv.
  f_equal. apply IH; [exact Fd|exact Fz|]. simpl in Hl. lia.
Qed.

(** X16: the empty sandpile is a neutral element for stable grids:
    adding an all-zero grid of the same shape to a grid that holds a
    grain and no pile of 4 or more gives back that grid, cell for cell. *)
Theorem add_empty_is_identity :
  forall self other fuel draws,
    np.wf (grid self) -> np.wf (grid other) ->
    np.shape0 (grid self) = np.shape0 (grid other) ->
    np.shape1 (grid self) = np.shape1 (grid other) ->
    Forall int64.in_range (np.data (grid self)) ->
    np.any (grid self) = true -> np.any (grid other) = false ->
    stable 4 (grid self) ->
    0 <= height self -> 0 <= width self ->
    __add__ self other fuel draws =
    AddReturned (mkSandpile 4 1000000 false (height self) (width self)
                            (grid self)).
Proof.
  intros self other fuel draws Hwa Hwb H0 H1 Fr Hany Hzero (m & Em & Hm) Hh Hw.
  assert (Es : np.add (grid self) (grid other) = Ok (grid self)).
  { rewrite (add_same_shape _ _ H0 H1).
    rewrite zip_add_zero; [now destruct (grid self)|exact Fr| |].
    - now apply any_false_zero.
    - rewrite Hwa, Hwb. congruence. }
  rewrite (add_unfold _ _ _ _ _ Hh Hw Es).
  rewrite (run_direct_below_threshold _ _ _ m); try assumption.
  reflexivity.
Qed.

Lemma add_empty_is_identity_witness :
  __add__ (mkSandpile 4 10 false 3 4 (np.mk 3 4 [0;0;0;0; 0;3;1;0; 0;0;0;0]))
          (mkSandpile 4 10 false 3 4 (np.mk 3 4 [0;0;0;0; 0;0;0;0; 0;0;0;0]))
          0 (fun _ => (1, 1)) =
  AddReturned (mkSandpile 4 1000000 false 3 4
                 (np.mk 3 4 [0;0;0;0; 0;3;1;0; 0;0;0;0])).
Proof.
  apply (add_empty_is_identity
           (mkSandpile 4 10 false 3 4 (np.mk 3 4 [0;0;0;0; 0;3;1;0; 0;0;0;0]))
           (mkSandpile 4 10 false 3 4 (np.mk 3 4 [0;0;0;0; 0;0;0;0; 0;0;0;0]))
           0 (fun _ => (1, 1)));
    try reflexivity; try (simpl; lia).
  - repeat constructor; unfold int64.in_range; lia.
  - exists 3. split; [reflexivity|lia].
Defined.

(** ** [topple] on one pile *)

Lemma cell_insert d p v x :
  (p < length d)%nat ->
  np.cell (<[p := v]> d) x = if Nat.eqb x p then v else np.cell d x.
Proof.
  intros Hp. destruct (Nat.eqb_spec x p) as [->|Hne].
  - now apply cell_insert_eq.
  - apply cell_insert_ne. congruence.
Qed.

Lemma position_eqb w i j a b :
  (j < w)%nat -> (b < w)%nat ->
  Nat.eqb (i * w + j) (a * w + b) = Nat.eqb i a && Nat.eqb j b.
Proof.
  intros Hj Hb. pose proof (position_eq w i j a b Hj Hb) as H.
  destruct (Nat.eqb_spec (i * w + j) (a * w + b)),
    (Nat.eqb_spec i a), (Nat.eqb_spec j b); simpl; tauto.
Qed.

Lemma cell_adds_single d p q x :
  (p < length d)%nat ->
  np.cell (adds d [p] [q]) x =
  if Nat.eqb x p then int64.add (np.cell d x) q else np.cell d x.
Proof.
  intros Hp. unfold adds, puts. cbn [fmap list_fmap zip_with zip foldl].
  unfold np.write. cbn [fst snd]. rewrite cell_insert by exact Hp.
  now destruct (Nat.eqb_spec x p) as [->|].
Qed.

Lemma length_adds d ps vs : length (adds d ps vs) = length d.
Proof. unfold adds. apply length_puts. Qed.

Lemma previous_index size (a : nat) :
  (a < size)%nat ->
  exists a',
    np.check_index 0 size (Z.of_nat a + -1) = Ok a' /\
    np.check_index 1 size (Z.of_nat a + -1) = Ok a' /\
    (a' < size)%nat /\
    ((1 <= a)%nat /\ a' = (a - 1)%nat \/ a = 0%nat /\ a' = (size - 1)%nat).
Proof.
  intros Ha. destruct a as [|a].
  - exists (size - 1)%nat. rewrite !check_index_negative by lia.
    repeat split; try lia; do 2 f_equal; lia.
  - exists a. rewrite !check_index_nonneg by lia.
    repeat split; try lia; do 2 f_equal; lia.
Qed.

(** X17: the toppling rule.  [topple] on one pile that holds [v] grains,
    anywhere but in the last row or column, leaves [v mod T] in the pile,
    adds [v div T] to each of the four cells next to it, changes no other
    cell, and then empties the border.  For a pile of the first row or
    column the index [-1] addresses the last row or column, which is
    emptied with the rest of the border: of such a pile only the share of
    its inner neighbour is left. *)
Theorem topple_single_pile :
  forall T g r c,
    np.wf g -> Forall (fun v => 0 <= v < 2 ^ 62) (np.data g) -> 0 < T ->
    (r + 1 < np.shape0 g)%nat -> (c + 1 < np.shape1 g)%nat ->
    exists g',
      topple T [(Z.of_nat r, Z.of_nat c)] g = (Ok tt, g') /\
      np.shape0 g' = np.shape0 g /\ np.shape1 g' = np.shape1 g /\
      forall i j,
        (i < np.shape0 g)%nat -> (j < np.shape1 g)%nat ->
        item g' i j =
        if on_border (np.shape0 g) (np.shape1 g) (i * np.shape1 g + j) then 0
        else if Nat.eqb i r && Nat.eqb j c then item g r c mod T
        else if neighbours r c i j then item g i j + item g r c / T
        else item g i j.
Proof.
  intros T g r c Hwf Fd HT Hr Hc.
  set (h := np.shape0 g) in *. set (w := np.shape1 g) in *.
  set (d := np.data g) in *. set (v := item g r c).
  assert (Hlen : length d = (h * w)%nat) by exact Hwf.
  assert (Hcell : forall p, 0 <= np.cell d p < 2 ^ 62).
  { intros p. unfold np.cell. destruct (d !! p) as [x|] eqn:E; simpl; [|lia].
    rewrite Forall_lookup in Fd. exact (Fd _ _ E). }
  destruct (floor_divide_exact v T HT) as (Eq & Er & Hq & Hm & _).
  { pose proof (Hcell (r * w + c)%nat). unfold v, item. fold d w. lia. }
  destruct (previous_index h r ltac:(lia)) as (r' & Er0 & _ & Hr'b & Hr').
  destruct (previous_index w c ltac:(lia)) as (c' & _ & Ec1 & Hc'b & Hc').
  assert (HB : forall a b, (a < h)%nat -> (b < w)%nat ->
                           (a * w + b < length d)%nat).
  { intros a b Ha Hb. rewrite Hlen. now apply position_bound. }
  set (p0 := (r * w + c)%nat).
  set (p1 := (r' * w + c)%nat). set (p2 := (r * w + c')%nat).
  set (p3 := ((r + 1) * w + c)%nat). set (p4 := (r * w + (c + 1))%nat).
  assert (E0 : np.positions g [(Z.of_nat r, Z.of_nat c)] = Ok [p0]).
  { rewrite positions_single. fold h w.
    rewrite !check_index_nonneg, !Nat2Z.id by lia. reflexivity. }
  assert (E1 : np.positions g (shift (-1) 0 [(Z.of_nat r, Z.of_nat c)])
               = Ok [p1]).
  { unfold shift. cbn [fmap list_fmap fst snd]. rewrite positions_single.
    fold h w. rewrite Er0, Z.add_0_r, check_index_nonneg, Nat2Z.id by lia.
    reflexivity. }
  assert (E2 : np.positions g (shift 0 (-1) [(Z.of_nat r, Z.of_nat c)])
               = Ok [p2]).
  { unfold shift. cbn [fmap list_fmap fst snd]. rewrite positions_single.
    fold h w. rewrite Ec1, Z.add_0_r, check_index_nonneg, Nat2Z.id by lia.
    reflexivity. }
  assert (E3 : np.positions g (shift 1 0 [(Z.of_nat r, Z.of_nat c)])
               = Ok [p3]).
  { unfold shift. cbn [fmap list_fmap fst snd]. rewrite positions_single.
    fold h w. replace (Z.of_nat r + 1) with (Z.of_nat (r + 1)) by lia.
    rewrite Z.add_0_r, !check_index_nonneg, !Nat2Z.id by lia. reflexivity. }
  assert (E4 : np.positions g (shift 0 1 [(Z.of_nat r, Z.of_nat c)])
               = Ok [p4]).
  { unfold shift. cbn [fmap list_fmap fst snd]. rewrite positions_single.
    fold h w. replace (Z.of_nat c + 1) with (Z.of_nat (c + 1)) by lia.
    rewrite Z.add_0_r, !check_index_nonneg, !Nat2Z.id by lia. reflexivity. }
  set (q := v / T) in *.
  assert (Hadd : forall p, int64.add (np.cell d p) q = np.cell d p + q).
  { intros p. unfold int64.add. apply wrap_in_range.
    pose proof (Hcell p) as Hvp. pose proof (Hcell p0) as Hv0.
    change (np.cell d p0) with v in Hv0.
    unfold int64.in_range. lia. }
  set (d5 := redistributed T d [p0] [p1] [p2] [p3] [p4]).
  exists (reshape g (clear_border h w d5)).
  split.
  { unfold topple.
    rewrite (bind_Ok _ _ _ _ _
               (redistribute_Ok T _ g _ _ _ _ _ E0 E1 E2 E3 E4)).
    rewrite border_case_Ok by (simpl; fold h w; lia). reflexivity. }
  split; [reflexivity|]. split; [reflexivity|].
  intros i j Hi Hj. unfold item at 1. cbn [reshape np.data np.shape1]. fold w.
  rewrite clear_border_lookup.
  destruct (on_border h w (i * w + j)) eqn:Hob; [reflexivity|].
  apply interior_off_border in Hob; [|lia|now apply position_bound].
  destruct Hob as (i0 & j0 & Eij & (Hi1 & Hi2 & Hj1 & Hj2)).
  apply position_eq in Eij as [<- <-]; [|lia|lia].
  unfold d5, redistributed.
  change (np.cell d <$> [p0]) with [v]. cbn [fmap list_fmap]. cbv beta.
  rewrite Eq, Er.
  rewrite !cell_adds_single by (rewrite ?length_adds, ?length_puts; apply HB; lia).
  unfold puts. cbn [zip_with zip foldl]. unfold np.write. cbn [fst snd].
  rewrite cell_insert by (apply HB; lia).
  unfold p4, p3, p2, p1, p0. rewrite !position_eqb by lia.
  unfold neighbours, item. fold d w.
  assert (Ei : Nat.eqb i r' = Nat.eqb (i + 1) r)
    by (destruct (Nat.eqb_spec i r'), (Nat.eqb_spec (i + 1) r);
        try reflexivity; lia).
  assert (Ej : Nat.eqb j c' = Nat.eqb (j + 1) c)
    by (destruct (Nat.eqb_spec j c'), (Nat.eqb_spec (j + 1) c);
        try reflexivity; lia).
  rewrite Ei, Ej.
  clear - Hadd.
  destruct (Nat.eqb_spec i r); destruct (Nat.eqb_spec i (r + 1));
    try (exfalso; lia);
    destruct (Nat.eqb_spec (i + 1) r); try (exfalso; lia);
    destruct (Nat.eqb_spec j c); destruct (Nat.eqb_spec j (c + 1));
    try (exfalso; lia);
    destruct (Nat.eqb_spec (j + 1) c); try (exfalso; lia);
    cbn [andb orb]; rewrite ?Hadd; fold q; repeat (f_equal; try lia).
Qed.

Lemma topple_single_pile_witness :
  (exists g',
     topple 4 [(1, 2)] (np.mk 3 4 [0;0;0;0; 0;2;9;0; 0;0;0;0]) = (Ok tt, g') /\
     item g' 1 2 = 1 /\ item g' 1 1 = 4 /\ item g' 2 2 = 0) /\
  (exists g',
     topple 4 [(0, 1)] (np.mk 3 4 [0;9;0;0; 0;2;0;0; 0;0;0;0]) = (Ok tt, g') /\
     item g' 0 1 = 0 /\ item g' 1 1 = 4 /\ item g' 2 1 = 0).
Proof.
  split.
  - destruct (topple_single_pile 4 (np.mk 3 4 [0;0;0;0; 0;2;9;0; 0;0;0;0])
                1 2)
      as (g' & E & _ & _ & H);
      [reflexivity|repeat constructor; lia|lia|simpl; lia|simpl; lia|].
    exists g'. split; [exact E|]. split; [|split].
    + exact (H 1%nat 2%nat ltac:(simpl; lia) ltac:(simpl; lia)).
    + exact (H 1%nat 1%nat ltac:(simpl; lia) ltac:(simpl; lia)).
    + exact (H 2%nat 2%nat ltac:(simpl; lia) ltac:(simpl; lia)).
  - destruct (topple_single_pile 4 (np.mk 3 4 [0;9;0;0; 0;2;0;0; 0;0;0;0])
                0 1)
      as (g' & E & _ & _ & H);
      [reflexivity|repeat constructor; lia|lia|simpl; lia|simpl; lia|].
    exists g'. split; [exact E|]. split; [|split].
    + exact (H 0%nat 1%nat ltac:(simpl; lia) ltac:(simpl; lia)).
    + exact (H 1%nat 1%nat ltac:(simpl; lia) ltac:(simpl; lia)).
    + exact (H 2%nat 1%nat ltac:(simpl; lia) ltac:(simpl; lia)).
Defined.

(** ** The arguments [__init__] accepts *)

Lemma forallb_same_length_inv n : forall rows : list (list Z),
  forallb (fun r' => Nat.eqb (length r') n) rows = true ->
  Forall (fun r' => length r' = n) rows.
Proof.
  induction rows as [|r rows IH]; simpl; intros H; [constructor|].
  apply andb_true_iff in H as [Hr H]. apply Nat.eqb_eq in Hr.
  constructor; [exact Hr|exact (IH H)].
Qed.

(** X18: the constructor succeeds exactly on these arguments: without a
    grid, a height and a width that are not negative (0 included); with a
    grid, a list of rows that is not empty and whose rows all have the
    length of the first one. *)
Theorem init_succeeds_iff :
  forall grid h w grains timesteps lv,
    (exists s, __init__ grid h w grains timesteps lv = Ok s) <->
    match grid with
    | None => 0 <= h /\ 0 <= w
    | Some rows =>
        exists r rs, rows = r :: rs /\
                     Forall (fun r' => length r' = length r) rs
    end.
Proof.
  intros [rows|] h w grains timesteps lv; unfold __init__.
  - destruct rows as [|r rs].
    + split; [intros [s E]; discriminate|intros (r & rs & E & _); discriminate].
    + unfold np.array.
      destruct (forallb _ (r :: rs)) eqn:B; cbn [res_bind].
      * split; [intros _|eauto]. exists r, rs. split; [reflexivity|].
        apply forallb_same_length_inv in B.
        now apply list.Forall_cons in B as [_ B].
      * split; [intros [s E]; discriminate|].
        intros (r0 & rs0 & [= <- <-] & F).
        rewrite forallb_same_length in B; [discriminate|].
        constructor; [reflexivity|exact F].
  - unfold np.zeros.
    destruct (Z.ltb_spec h 0), (Z.ltb_spec w 0); cbn [orb res_bind];
      (split; [intros [s E]; try discriminate; lia|intros [? ?]; try lia; eauto]).
Qed.

(** ** [set_pile], then [run] *)

Lemma sandpile_insert_interior g i j v :
  sandpile_grid g -> inside (np.shape0 g) (np.shape1 g) i j ->
  0 <= v -> total g - item g i j + v < 2 ^ 63 ->
  let p := (i * np.shape1 g + j)%nat in
  let g1 := reshape g (<[p := v]> (np.data g)) in
  sandpile_grid g1 /\
  total g1 = total g + (v - item g i j) /\
  potential g1 =
  potential g + weight (np.shape0 g) (np.shape1 g) p * (v - item g i j).
Proof.
  intros (Hwf & Hh & Hw & Hnn & Hb & Ht) Hin Hv Hsum. cbv zeta.
  pose proof Hin as (Hi & Hi' & Hj & Hj').
  set (p := (i * np.shape1 g + j)%nat).
  assert (Hp : (p < length (np.data g))%nat)
    by (rewrite Hwf; apply position_bound; lia).
  assert (Et : forall wt, wsum wt (<[p := v]> (np.data g))
                          = wsum wt (np.data g) + wt p * (v - item g i j))
    by (intros wt; now apply wsum_insert).
  split; [|split; [|apply Et]].
  2:{ unfold total. cbn [reshape np.data]. rewrite Et. lia. }
  split; [now apply wf_insert|]. split; [exact Hh|]. split; [exact Hw|].
  split; [apply Forall_insert; assumption|].
  split.
  - intros q Hq. cbn [reshape np.data np.shape0 np.shape1] in *.
    rewrite cell_insert_ne; [now apply Hb|].
    intros <-. unfold p in Hq. now rewrite inside_off_border in Hq.
  - unfold total. cbn [reshape np.data]. rewrite Et. fold (total g). lia.
Qed.

(** X19: the use the class is written for.  On an object built without
    a grid, [set_pile] of a positive number of grains on an interior cell
    followed by [run] relaxes that pile and ends (threshold at least 4):
    the number of passes is at most [x (H-1-x) y (W-1-y) v], and the
    stable grid that is left holds at most [v] grains. *)
Theorem set_pile_then_run :
  forall h w grains timesteps lv s x y v draws,
    __init__ None h w grains timesteps lv = Ok s ->
    4 <= grains ->
    1 <= x -> x + 2 <= h -> 1 <= y -> y + 2 <= w ->
    0 < v < 2 ^ 63 ->
    exists g1 k s',
      set_pile x y v (grid s) = (Ok tt, g1) /\
      (forall fuel,
         (Z.to_nat (x * (h - 1 - x) * (y * (w - 1 - y)) * v) < fuel)%nat ->
         run (set_grid s g1) fuel draws = (Ok (Z.of_nat k), s')) /\
      Z.of_nat k <= x * (h - 1 - x) * (y * (w - 1 - y)) * v /\
      stable grains (grid s') /\
      border_is_zero (grid s') /\
      total (grid s') <= v.
Proof.
  intros h w grains timesteps lv s x y v draws E HT Hx Hx' Hy Hy' Hv.
  unfold __init__, np.zeros in E.
  destruct (Z.ltb_spec h 0), (Z.ltb_spec w 0); try lia.
  cbn [orb res_bind] in E. injection E as <-. cbn [grid].
  set (g := np.mk (Z.to_nat h) (Z.to_nat w)
                  (replicate (Z.to_nat h * Z.to_nat w) 0)).
  assert (Hz : Forall (fun v => v = 0) (np.data g))
    by (apply Forall_replicate; reflexivity).
  destruct (zero_grid_sandpile g) as [Hg Ht];
    [apply length_replicate|simpl; lia|simpl; lia|now apply any_false_zero|].
  assert (Hin : inside (np.shape0 g) (np.shape1 g) (Z.to_nat x) (Z.to_nat y))
    by (unfold inside; simpl; lia).
  assert (Hit : item g (Z.to_nat x) (Z.to_nat y) = 0).
  { unfold item, np.cell. destruct (np.data g !! _) as [u|] eqn:Eu;
      [|reflexivity].
    rewrite Forall_lookup in Hz. exact (Hz _ _ Eu). }
  destruct (sandpile_insert_interior g (Z.to_nat x) (Z.to_nat y) v Hg Hin)
    as (Hg1 & Ht1 & Hp1); [lia|lia|].
  set (p := (Z.to_nat x * np.shape1 g + Z.to_nat y)%nat) in *.
  set (g1 := reshape g (<[p := v]> (np.data g))) in *.
  assert (Hpot : potential g1 = x * (h - 1 - x) * (y * (w - 1 - y)) * v).
  { rewrite Hp1, Hit. unfold potential at 1, wsum.
    rewrite wsum_from_zero by exact Hz.
    unfold p. rewrite weight_position by (simpl; lia). simpl np.shape0.
    simpl np.shape1. rewrite !Z2Nat.id by lia. lia. }
  destruct (relax_terminates grains HT (S (Z.to_nat (potential g1))) g1 Hg1
              ltac:(pose proof (potential_nonneg g1 Hg1); lia) _ (le_n _))
    as (k & g' & Er & Hs & Hg' & Ht').
  pose proof (relax_passes_bound _ HT _ _ _ _ Hg1 Er) as Hk.
  pose proof (potential_nonneg _ Hg') as Hp'.
  exists g1, k, (mkSandpile grains timesteps lv h w g').
  split.
  { unfold set_pile. rewrite (assign_Ok _ _ _ [p]); [reflexivity|].
    rewrite positions_single, !check_index_nonneg by (simpl; lia).
    reflexivity. }
  split.
  { intros fuel Hfuel. rewrite run_direct.
    - cbn [grid max_grains set_grid].
      rewrite (relax_fuel_mono _ _ _ _ _ Er fuel) by lia. reflexivity.
    - cbn [grid set_grid]. apply total_pos_any. lia. }
  cbn [grid]. split; [lia|]. split; [exact Hs|].
  split; [apply Hg'|]. lia.
Qed.

Lemma set_pile_then_run_witness :
  exists g1 k s',
    set_pile 2 2 16
      (np.mk 5 5 [0;0;0;0;0; 0;0;0;0;0; 0;0;0;0;0; 0;0;0;0;0; 0;0;0;0;0])
      = (Ok tt, g1) /\
    run (mkSandpile 4 10 false 5 5 g1) 300 (fun _ => (0, 0))
      = (Ok (Z.of_nat k), s') /\
    Z.of_nat k <= 256 /\ stable 4 (grid s').
Proof.
  destruct (set_pile_then_run 5 5 4 10 false
              (mkSandpile 4 10 false 5 5
                 (np.mk 5 5 [0;0;0;0;0; 0;0;0;0;0; 0;0;0;0;0;
                             0;0;0;0;0; 0;0;0;0;0]))
              2 2 16 (fun _ => (0, 0)))
    as (g1 & k & s' & E1 & E2 & Hk & Hs & _);
    [reflexivity|lia|lia|lia|lia|lia|lia|].
  exists g1, k, s'. split; [exact E1|]. split; [|split; [exact Hk|exact Hs]].
  apply E2. vm_compute. lia.
Defined.

(** * [topple] at the last row and the last column *)

(** What a call of [topple] that fails leaves: the statements before the
    failing one have been carried out. *)
Lemma redistribute_Raise_down_state T xy g p0 p1 p2 e :
  np.positions g xy = Ok p0 ->
  np.positions g (shift (-1) 0 xy) = Ok p1 ->
  np.positions g (shift 0 (-1) xy) = Ok p2 ->
  np.positions g (shift 1 0 xy) = Raise e ->
  let pile := np.cell (np.data g) <$> p0 in
  let incr := (fun v => int64.floor_divide v T) <$> pile in
  let new := (fun v => int64.remainder v T) <$> pile in
  redistribute T xy g =
  (Raise e, reshape g (adds (adds (puts (np.data g) p0 new) p1 incr) p2 incr)).
Proof.
  intros E0 E1 E2 E3. cbv zeta. unfold redistribute.
  rewrite (bind_Ok _ _ _ _ _ (read_Ok _ _ _ E0)).
  rewrite (bind_Ok _ _ _ _ _ (assign_Ok _ _ _ _ E0)).
  erewrite bind_Ok by (apply iadd_Ok; rewrite positions_reshape; exact E1).
  erewrite bind_Ok by (apply iadd_Ok; rewrite positions_reshape; exact E2).
  erewrite bind_Raise by (apply iadd_Raise; rewrite positions_reshape; exact E3).
  reflexivity.
Qed.

Lemma redistribute_Raise_right_state T xy g p0 p1 p2 p3 e :
  np.positions g xy = Ok p0 ->
  np.positions g (shift (-1) 0 xy) = Ok p1 ->
  np.positions g (shift 0 (-1) xy) = Ok p2 ->
  np.positions g (shift 1 0 xy) = Ok p3 ->
  np.positions g (shift 0 1 xy) = Raise e ->
  let pile := np.cell (np.data g) <$> p0 in
  let incr := (fun v => int64.floor_divide v T) <$> pile in
  let new := (fun v => int64.remainder v T) <$> pile in
  redistribute T xy g =
  (Raise e,
   reshape g (adds (adds (adds (puts (np.data g) p0 new) p1 incr) p2 incr)
                   p3 incr)).
Proof.
  intros E0 E1 E2 E3 E4. cbv zeta. unfold redistribute.
  rewrite (bind_Ok _ _ _ _ _ (read_Ok _ _ _ E0)).
  rewrite (bind_Ok _ _ _ _ _ (assign_Ok _ _ _ _ E0)).
  erewrite bind_Ok by (apply iadd_Ok; rewrite positions_reshape; exact E1).
  erewrite bind_Ok by (apply iadd_Ok; rewrite positions_reshape; exact E2).
  erewrite bind_Ok by (apply iadd_Ok; rewrite positions_reshape; exact E3).
  erewrite iadd_Raise by (rewrite positions_reshape; exact E4).
  reflexivity.
Qed.

(** C10, as stated, fails in its last clause.  A call of [topple] on a
    pile of the last row, or of the last column, does raise [IndexError],
    but not "rather than redistributing grains": when the access outside
    the array is reached, the pile has been reset and the neighbours
    above and to the left (and below, for a pile of the last column) have
    received their grains, and the grid is left like that. *)
Lemma topple_fails_after_redistributing :
  topple 4 [(2, 1)] (np.mk 3 3 [0;0;0; 0;0;0; 0;4;0]) =
    (Raise (IndexError 0 3 3), np.mk 3 3 [0;0;0; 0;1;0; 1;0;0]) /\
  topple 4 [(1, 2)] (np.mk 3 3 [0;0;0; 0;0;4; 0;0;0]) =
    (Raise (IndexError 1 3 3), np.mk 3 3 [0;0;1; 0;1;0; 0;0;1]).
Proof. split; reflexivity. Qed.

(** C10: [topple(r, c)] on a cell of the grid.  Outside the last row and
    the last column every access is accepted and the call returns (the
    indices [r - 1] and [c - 1] may be [-1], which NumPy accepts).  In
    the last row the access to row [H] raises [IndexError] on axis 0, and
    in the last column of another row the access to column [W] raises
    [IndexError] on axis 1; the grid the failing call leaves is the grid
    after the statements before the failing one: the pile reset to the
    remainder, the quotient added to the cell above and to the cell to
    the left and, in the second case, to the cell below; the border is not
    emptied. *)
Theorem topple_bounds :
  forall T g r c,
    0 <= r < Z.of_nat (np.shape0 g) ->
    0 <= c < Z.of_nat (np.shape1 g) ->
    let h := np.shape0 g in
    let w := np.shape1 g in
    let d := np.data g in
    let pile := (Z.to_nat r * w + Z.to_nat c)%nat in
    let above :=
      (Z.to_nat ((r - 1) mod Z.of_nat h) * w + Z.to_nat c)%nat in
    let before :=
      (Z.to_nat r * w + Z.to_nat ((c - 1) mod Z.of_nat w))%nat in
    let below := (Z.to_nat (r + 1) * w + Z.to_nat c)%nat in
    let incr := int64.floor_divide (np.cell d pile) T in
    let d1 := <[pile := int64.remainder (np.cell d pile) T]> d in
    let d2 := <[above := int64.add (np.cell d1 above) incr]> d1 in
    let d3 := <[before := int64.add (np.cell d2 before) incr]> d2 in
    let d4 := <[below := int64.add (np.cell d3 below) incr]> d3 in
    if r + 1 <? Z.of_nat h then
      if c + 1 <? Z.of_nat w then
        exists g', topple T [(r, c)] g = (Ok tt, g')
      else
        topple T [(r, c)] g =
        (Raise (IndexError 1 (Z.of_nat w) w), reshape g d4)
    else
      topple T [(r, c)] g = (Raise (IndexError 0 (Z.of_nat h) h), reshape g d3).
Proof.
  intros T g r c Hr Hc. cbv zeta.
  assert (E0 : np.positions g [(r, c)]
               = Ok [(Z.to_nat r * np.shape1 g + Z.to_nat c)%nat]).
  { rewrite positions_single, !check_index_nonneg by lia. reflexivity. }
  assert (E1 : np.positions g (shift (-1) 0 [(r, c)])
               = Ok [(Z.to_nat ((r - 1) mod Z.of_nat (np.shape0 g))
                      * np.shape1 g + Z.to_nat c)%nat]).
  { unfold shift. cbn [fmap list_fmap fst snd]. rewrite positions_single.
    rewrite (check_index_mod 0) by lia.
    rewrite Z.add_0_r, check_index_nonneg by lia. reflexivity. }
  assert (E2 : np.positions g (shift 0 (-1) [(r, c)])
               = Ok [(Z.to_nat r * np.shape1 g
                      + Z.to_nat ((c - 1) mod Z.of_nat (np.shape1 g)))%nat]).
  { unfold shift. cbn [fmap list_fmap fst snd]. rewrite positions_single.
    rewrite Z.add_0_r, check_index_nonneg by lia.
    rewrite (check_index_mod 1) by lia. reflexivity. }
  unfold topple.
  destruct (Z.ltb_spec (r + 1) (Z.of_nat (np.shape0 g))) as [Hd|Hd].
  - assert (E3 : np.positions g (shift 1 0 [(r, c)])
                 = Ok [(Z.to_nat (r + 1) * np.shape1 g + Z.to_nat c)%nat]).
    { unfold shift. cbn [fmap list_fmap fst snd]. rewrite positions_single.
      rewrite Z.add_0_r, !check_index_nonneg by lia. reflexivity. }
    destruct (Z.ltb_spec (c + 1) (Z.of_nat (np.shape1 g))) as [Hq|Hq].
    + destruct (positions_single_total g (r + 0) (c + 1)) as [p4 E4];
        [lia|lia|].
      rewrite (bind_Ok _ _ _ _ _
                 (redistribute_Ok T [(r, c)] g _ _ _ _ [p4] E0 E1 E2 E3 E4)).
      rewrite border_case_Ok by (simpl; lia). eauto.
    + assert (E4 : np.positions g (shift 0 1 [(r, c)]) =
                   Raise (IndexError 1 (Z.of_nat (np.shape1 g))
                                     (np.shape1 g))).
      { simpl. rewrite positions_single.
        rewrite check_index_nonneg by lia. simpl.
        rewrite check_index_beyond by lia.
        replace (c + 1) with (Z.of_nat (np.shape1 g)) by lia. reflexivity. }
      rewrite (bind_Raise _ _ _ _ _
                 (redistribute_Raise_right_state T _ _ _ _ _ _ _
                    E0 E1 E2 E3 E4)).
      reflexivity.
  - assert (E3 : np.positions g (shift 1 0 [(r, c)]) =
                 Raise (IndexError 0 (Z.of_nat (np.shape0 g))
                                   (np.shape0 g))).
    { simpl. rewrite positions_single.
      rewrite check_index_beyond by lia.
      replace (r + 1) with (Z.of_nat (np.shape0 g)) by lia. reflexivity. }
    rewrite (bind_Raise _ _ _ _ _
               (redistribute_Raise_down_state T _ _ _ _ _ _ E0 E1 E2 E3)).
    reflexivity.
Qed.

Lemma topple_bounds_witness :
  topple 4 [(2, 1)] (np.mk 3 4 [1;0;0;0; 0;2;0;0; 0;9;0;0]) =
  (Raise (IndexError 0 3 3), np.mk 3 4 [1;0;0;0; 0;4;0;0; 2;1;0;0]).
Proof.
  exact (topple_bounds 4 (np.mk 3 4 [1;0;0;0; 0;2;0;0; 0;9;0;0]) 2 1
           ltac:(simpl; lia) ltac:(simpl; lia)).
Defined.

(** * The Abelian property of [__add__] and [run] *)

Lemma any_total_pos g :
  Forall (fun v => 0 <= v) (np.data g) -> np.any g = true -> 0 < total g.
Proof.
  intros Hnn Hany.
  assert (H0 : 0 <= total g) by (apply wsum_from_nonneg; [lia|exact Hnn]).
  destruct (Z.eq_dec (total g) 0) as [Hz|]; [|lia].
  exfalso. unfold np.any in Hany. unfold total, wsum in Hz.
  revert Hnn Hany Hz. generalize 0%nat.
  induction (np.data g) as [|v d IH]; intros k Hnn Hany Hz; [discriminate|].
  apply list.Forall_cons in Hnn as [Hv Hnn]. simpl in Hany, Hz.
  assert (0 <= wsum_from (fun _ => 1) (S k) d)
    by (apply wsum_from_nonneg; [lia|exact Hnn]).
  apply orb_true_iff in Hany as [Hany|Hany].
  - destruct (Z.eqb_spec v 0); [discriminate|lia].
  - apply (IH (S k) Hnn Hany). lia.
Qed.

Lemma run_direct_Ok self fuel draws k g' :
  np.any (grid self) = true ->
  relax (max_grains self) fuel (grid self) = (Ok k, g') ->
  run self fuel draws = (Ok (Z.of_nat k), set_grid self g').
Proof. intros Hany E. rewrite (run_direct _ _ _ Hany), E. reflexivity. Qed.

Lemma add_direct_Ok self other fuel draws s k g' :
  0 <= height self -> 0 <= width self ->
  np.add (grid self) (grid other) = Ok s -> np.any s = true ->
  relax 4 fuel s = (Ok k, g') ->
  __add__ self other fuel draws =
  AddReturned (mkSandpile 4 1000000 false (height self) (width self) g').
Proof.
  intros Hh Hw Es Hany E. rewrite (add_unfold _ _ _ _ s Hh Hw Es).
  rewrite (run_direct_Ok _ _ _ k g'); [reflexivity|exact Hany|exact E].
Qed.

(** C1, as stated, fails for the program.  Two grids that are stable and
    hold two grains on one cell of the last row: their sum has a pile of 4
    there, and [__add__] ends in [IndexError], with no grid.  The empty
    grid is stable too, and adding a grid to it gives that grid back; but
    [run] on the empty grid is automatic mode, which drops a million
    grains on it, so that relaxing the empty operand first gives another
    sum.  And two piles of 4 relax to two empty grids, whose sum is
    empty: relaxing both operands first, the sum is run in automatic
    mode, where the sum of the piles themselves is relaxed to the empty
    grid. *)
Lemma abelian_property_fails_for_add :
  let edge := mkSandpile 4 1000000 false 3 3
                (np.mk 3 3 [0;0;0; 0;0;0; 0;2;0]) in
  let empty := mkSandpile 4 1000000 false 3 3
                 (np.mk 3 3 [0;0;0; 0;0;0; 0;0;0]) in
  let one := mkSandpile 4 1000000 false 3 3
               (np.mk 3 3 [0;0;0; 0;1;0; 0;0;0]) in
  let four := mkSandpile 4 1000000 false 3 3
                (np.mk 3 3 [0;0;0; 0;4;0; 0;0;0]) in
  let draws := fun i : nat => if Nat.eqb i 0 then (1, 1) else (0, 0) in
  (stable 4 (grid edge) /\
   __add__ edge edge 2 draws = AddRaised (IndexError 0 3 3)) /\
  (stable 4 (grid empty) /\ stable 4 (grid one) /\
   __add__ empty one 2 draws = AddReturned one /\
   add_relaxed_left empty one 2 draws draws =
     AddReturned (mkSandpile 4 1000000 false 3 3
                    (np.mk 3 3 [3;0;0; 0;2;0; 0;0;0]))) /\
  (__add__ four four 2 draws = AddReturned empty /\
   add_relaxed_both four four 2 draws draws draws =
     AddReturned (mkSandpile 4 1000000 false 3 3
                    (np.mk 3 3 [3;0;0; 0;1;0; 0;0;0]))).
Proof.
  cbv zeta.
  assert (Eempty : forall rest : Sandpile -> add_outcome,
            after_run (mkSandpile 4 1000000 false 3 3
                         (np.mk 3 3 [0;0;0; 0;0;0; 0;0;0]))
                      2 (fun i : nat => if Nat.eqb i 0 then (1, 1) else (0, 0))
                      rest
            = rest (mkSandpile 4 1000000 false 3 3
                      (np.mk 3 3 [3;0;0; 0;1;0; 0;0;0]))).
  { intros rest. unfold after_run.
    now rewrite run_empty_grid_drops_grains. }
  split; [split; [exists 2; split; [reflexivity|lia]|reflexivity]|].
  split.
  - split; [exists 0; split; [reflexivity|lia]|].
    split; [exists 1; split; [reflexivity|lia]|].
    split; [reflexivity|].
    unfold add_relaxed_left. rewrite Eempty. reflexivity.
  - split; [reflexivity|].
    unfold add_relaxed_both.
    assert (Efour : forall rest : Sandpile -> add_outcome,
              after_run (mkSandpile 4 1000000 false 3 3
                           (np.mk 3 3 [0;0;0; 0;4;0; 0;0;0]))
                        2 (fun i : nat =>
                             if Nat.eqb i 0 then (1, 1) else (0, 0))
                        rest
              = rest (mkSandpile 4 1000000 false 3 3
                        (np.mk 3 3 [0;0;0; 0;0;0; 0;0;0])))
      by (intros rest; reflexivity).
    rewrite !Efour.
    rewrite (add_unfold _ _ _ _ (np.mk 3 3 [0;0;0; 0;0;0; 0;0;0]));
      [|simpl; lia|simpl; lia|reflexivity].
    cbn [height width].
    change (mkSandpile default_grains default_max_timesteps default_live_view
                       3 3 (np.mk 3 3 [0;0;0; 0;0;0; 0;0;0]))
      with (mkSandpile 4 1000000 false 3 3 (np.mk 3 3 [0;0;0; 0;0;0; 0;0;0])).
    now rewrite run_empty_grid_drops_grains.
Qed.

(** C1: the Abelian property that the program has.  Take two objects of
    threshold 4 (the threshold [__add__] relaxes a sum with) whose grids
    are grids of the data model (no negative cell, an empty border) of one
    shape, each with a grain, so that [run] relaxes them.  Then [a + b]
    and [a.run()] followed by [a + b] return: they build the same object,
    whose grid is stable; and so does [a.run()], [b.run()] followed by
    [a + b] unless both relaxed operands are empty.  In that last case
    the common grid is the empty grid, and the sum of the relaxed operands
    is run in automatic mode.  The order in which cells topple does not
    matter. *)
Theorem abelian_property :
  forall a b : Sandpile,
    max_grains a = 4 -> max_grains b = 4 ->
    0 <= height a -> 0 <= width a ->
    sandpile_grid (grid a) -> sandpile_grid (grid b) ->
    np.shape0 (grid a) = np.shape0 (grid b) ->
    np.shape1 (grid a) = np.shape1 (grid b) ->
    np.any (grid a) = true -> np.any (grid b) = true ->
    total (grid a) + total (grid b) < 2 ^ 63 ->
    exists N ka kb a' b' r,
      stable 4 (grid r) /\ sandpile_grid (grid r) /\
      stable 4 (grid a') /\ stable 4 (grid b') /\
      (np.any (grid a') = false -> np.any (grid b') = false ->
       np.any (grid r) = false) /\
      forall fuel draws_a draws_b draws_sum,
        (N <= fuel)%nat ->
        run a fuel draws_a = (Ok ka, a') /\
        run b fuel draws_b = (Ok kb, b') /\
        __add__ a b fuel draws_sum = AddReturned r /\
        add_relaxed_left a b fuel draws_a draws_sum = AddReturned r /\
        (np.any (grid a') = true \/ np.any (grid b') = true ->
         add_relaxed_both a b fuel draws_a draws_b draws_sum =
           AddReturned r) /\
        (np.any (grid a') = false -> np.any (grid b') = false ->
         add_relaxed_both a b fuel draws_a draws_b draws_sum =
           match automatic 4 fuel draws_sum (Z.to_nat 1000000) 0 0
                           (grid r) with
           | (Ok _, g') =>
               AddReturned
                 (mkSandpile 4 1000000 false (height a) (width a) g')
           | (Raise (ValueError _), _) =>
               AddPrinted "ValueError: grid sizes must match"
           | (Raise e, _) => AddRaised e
           | (OutOfFuel, _) => AddOutOfFuel
           end).
Proof.
  intros a b Ta Tb Hh Hw Ga Gb H0 H1 Aa Ab Hsum.
  destruct (relaxed_sums_agree 4 (grid a) (grid b) ltac:(lia) Ga Gb H0 H1 Hsum)
    as (N & ga & gb & s & s' & s'' & r & St & Gr & Ga' & Gb' & Gs'' & Es & Es'
        & Es'' & Ts & Ts' & Ts'' & Hrun).
  pose proof Ga as (_ & _ & _ & Nna & _ & _).
  pose proof Gb as (_ & _ & _ & Nnb & _ & _).
  pose proof Ga' as (_ & _ & _ & Nna' & _ & _).
  pose proof Gb' as (_ & _ & _ & Nnb' & _ & _).
  pose proof (any_total_pos _ Nna Aa) as Pa.
  pose proof (any_total_pos _ Nnb Ab) as Pb.
  assert (Pa' : 0 <= total ga) by (apply wsum_from_nonneg; [lia|exact Nna']).
  assert (Pb' : 0 <= total gb) by (apply wsum_from_nonneg; [lia|exact Nnb']).
  destruct (Hrun N (le_n _))
    as ((ka & Ea) & (kb & Eb) & (k1 & E1) & (k2 & E2) & (k3 & E3)).
  assert (Sa : stable 4 ga) by (eapply relax_Ok_stable, Ea).
  assert (Sb : stable 4 gb) by (eapply relax_Ok_stable, Eb).
  exists N, (Z.of_nat ka), (Z.of_nat kb), (set_grid a ga), (set_grid b gb),
    (mkSandpile 4 1000000 false (height a) (width a) r).
  cbn [grid set_grid].
  split; [exact St|]. split; [exact Gr|].
  split; [exact Sa|]. split; [exact Sb|].
  assert (Hzero : np.any ga = false -> np.any gb = false ->
                  np.any s'' = false /\ r = s'').
  { intros Za Zb.
    pose proof Gs'' as (_ & _ & _ & Nns & _ & _).
    assert (Zs : np.any s'' = false).
    { destruct (np.any s'') eqn:As; [|reflexivity].
      apply any_false_zero in Za, Zb.
      assert (Za0 : total ga = 0) by now apply wsum_from_zero.
      assert (Zb0 : total gb = 0) by now apply wsum_from_zero.
      pose proof (any_total_pos _ Nns As). lia. }
    split; [exact Zs|].
    assert (Ss : stable 4 s'').
    { destruct (grid_has_max s'' Gs'') as [m Em]. exists m. split; [exact Em|].
      pose proof (proj1 (any_false_zero _) Zs) as Zd. unfold np.max in Em.
      destruct (np.data s'') as [|v d]; [discriminate|].
      injection Em as <-. apply list.Forall_cons in Zd as [-> Zd].
      assert (foldl Z.max 0 d < 1); [|lia].
      apply foldl_max_lt; [lia|].
      eapply Forall_impl; [|exact Zd]. simpl. lia. }
    rewrite (relax_stable 4 N s'' Ss) in E3. now injection E3 as _ <-. }
  split.
  { intros Za Zb. destruct (Hzero Za Zb) as [Zs ->]. exact Zs. }
  intros fuel da db ds Hfuel.
  destruct (Hrun fuel Hfuel)
    as ((ka' & Fa) & (kb' & Fb) & (k1' & F1) & (k2' & F2) & (k3' & F3)).
  pose proof (relax_fuel_mono 4 _ _ _ _ Ea fuel Hfuel) as Fa'.
  pose proof (relax_fuel_mono 4 _ _ _ _ Eb fuel Hfuel) as Fb'.
  assert (Ra : run a fuel da = (Ok (Z.of_nat ka), set_grid a ga))
    by (apply run_direct_Ok; [exact Aa|rewrite Ta; exact Fa']).
  assert (Rb : run b fuel db = (Ok (Z.of_nat kb), set_grid b gb))
    by (apply run_direct_Ok; [exact Ab|rewrite Tb; exact Fb']).
  split; [exact Ra|]. split; [exact Rb|].
  split.
  { apply (add_direct_Ok a b fuel ds s k1'); try assumption.
    apply total_pos_any. lia. }
  split.
  { unfold add_relaxed_left, after_run. rewrite Ra.
    apply (add_direct_Ok (set_grid a ga) b fuel ds s' k2'); try assumption.
    apply total_pos_any. lia. }
  split.
  { intros Hany. unfold add_relaxed_both, after_run. rewrite Ra, Rb.
    apply (add_direct_Ok (set_grid a ga) (set_grid b gb) fuel ds s'' k3');
      try assumption.
    apply total_pos_any.
    destruct Hany as [Hany|Hany].
    - pose proof (any_total_pos _ Nna' Hany). lia.
    - pose proof (any_total_pos _ Nnb' Hany). lia. }
  intros Za Zb. destruct (Hzero Za Zb) as [Zs ->].
  unfold add_relaxed_both, after_run. rewrite Ra, Rb.
  rewrite (add_unfold _ _ _ _ s''); [|exact Hh|exact Hw|exact Es''].
  rewrite run_automatic by exact Zs.
  cbn [max_grains max_iterations grid set_grid height width].
  unfold default_grains, default_max_timesteps, default_live_view.
  destruct (automatic 4 fuel ds (Z.to_nat 1000000) 0 0 s'')
    as [[x|[]|] g']; reflexivity.
Qed.

Lemma abelian_property_witness :
  let a := mkSandpile 4 10 false 3 3 (np.mk 3 3 [0;0;0; 0;9;0; 0;0;0]) in
  let b := mkSandpile 4 20 true 3 3 (np.mk 3 3 [0;0;0; 0;2;0; 0;0;0]) in
  exists N r,
    stable 4 (grid r) /\
    forall fuel draws_a draws_b draws_sum,
      (N <= fuel)%nat ->
      __add__ a b fuel draws_sum = AddReturned r /\
      add_relaxed_left a b fuel draws_a draws_sum = AddReturned r /\
      add_relaxed_both a b fuel draws_a draws_b draws_sum = AddReturned r.
Proof.
  cbv zeta.
  destruct (abelian_property
              (mkSandpile 4 10 false 3 3 (np.mk 3 3 [0;0;0; 0;9;0; 0;0;0]))
              (mkSandpile 4 20 true 3 3 (np.mk 3 3 [0;0;0; 0;2;0; 0;0;0])))
    as (N & ka & kb & a' & b' & r & St & _ & _ & _ & _ & H);
    [reflexivity|reflexivity|simpl; lia|simpl; lia
    |data_model_grid|data_model_grid|reflexivity|reflexivity
    |reflexivity|reflexivity|reflexivity|].
  exists (S N), r. split; [exact St|].
  intros fuel da db ds Hfuel.
  destruct (H fuel da db ds ltac:(lia)) as (Ra & Rb & E1 & E2 & E3 & _).
  split; [exact E1|]. split; [exact E2|]. apply E3.
  left.
  assert (Ea : run (mkSandpile 4 10 false 3 3 (np.mk 3 3 [0;0;0; 0;9;0; 0;0;0]))
                   fuel da
               = (Ok 1, mkSandpile 4 10 false 3 3
                          (np.mk 3 3 [0;0;0; 0;1;0; 0;0;0]))).
  { destruct fuel as [|fuel]; [lia|].
    assert (Er : relax 4 (S fuel) (np.mk 3 3 [0;0;0; 0;9;0; 0;0;0])
                 = (Ok 1%nat, np.mk 3 3 [0;0;0; 0;1;0; 0;0;0])).
    { rewrite relax_unfold.
      change (np.max (np.mk 3 3 [0;0;0; 0;9;0; 0;0;0])) with (@Ok Z 9).
      change (4 <=? 9) with true. cbv iota.
      change (topple 4 (np.where_ge (np.mk 3 3 [0;0;0; 0;9;0; 0;0;0]) 4)
                     (np.mk 3 3 [0;0;0; 0;9;0; 0;0;0]))
        with (@Ok unit tt, np.mk 3 3 [0;0;0; 0;1;0; 0;0;0]).
      cbv iota.
      rewrite relax_stable by (exists 1; split; [reflexivity|lia]).
      reflexivity. }
    rewrite (run_direct_Ok _ _ _ 1%nat (np.mk 3 3 [0;0;0; 0;1;0; 0;0;0]));
      [reflexivity|reflexivity|exact Er]. }
  rewrite Ea in Ra. injection Ra as _ <-. reflexivity.
Defined.
